(** * Tabular query session of the DuckDB data viewer webview

  A shallow embedding of the webview script of the data viewer
  (the session script with its loaders, and the older single-file
  webview that still carries [generateViewName]), and the properties of
  the result grid, the history ledger, loader selection, the relation
  name sanitizer, the export pipeline and cell rendering.

  JavaScript strings are sequences of UTF-16 code units; a code unit is
  a number of type [N].  Numbers are IEEE-754 doubles, taken from the
  Standard Library's [SpecFloat].  The module-level variables of the
  script are one record that every operation threads through. *)

From Stdlib Require Import ZArith NArith Lia SpecFloat.
From Stdlib Require DecimalString.
From stdpp Require Import base option list gmap strings.

Set Default Proof Using "Type".
Local Open Scope N_scope.

(* ===================================================================== *)
(** ** JavaScript strings *)
(* ===================================================================== *)

Module JsString.

(** A string value: its UTF-16 code units, in order. *)
Abbreviation jsstring := (list N).

(** The code units of an ASCII literal. *)
Definition js (s : string) : jsstring :=
  List.map (fun a => N.of_nat (Ascii.nat_of_ascii a)) (String.list_ascii_of_string s).

(** WhiteSpace and LineTerminator code points of ECMAScript: the set that
    [String.prototype.trim] strips and that [\s] matches. *)
Definition is_whitespace (c : N) : bool :=
  (9 <=? c) && (c <=? 13)
  || (c =? 32) || (c =? 160) || (c =? 5760)
  || (8192 <=? c) && (c <=? 8202)
  || (c =? 8232) || (c =? 8233) || (c =? 8239) || (c =? 8287)
  || (c =? 12288) || (c =? 65279).

Fixpoint trimStart (s : jsstring) : jsstring :=
  match s with
  | c :: t => if is_whitespace c then trimStart t else s
  | [] => []
  end.

(** [s.trim()] *)
Definition trim (s : jsstring) : jsstring :=
  rev (trimStart (rev (trimStart s))).

Fixpoint startsWith (p s : jsstring) : bool :=
  match p, s with
  | [], _ => true
  | a :: p', b :: s' => (a =? b) && startsWith p' s'
  | _ :: _, [] => false
  end.

(** [s.includes(t)]: [t] occurs in [s] as a contiguous run. *)
Fixpoint includes (s t : jsstring) : bool :=
  startsWith t s ||
  match s with
  | [] => false
  | _ :: s' => includes s' t
  end.

(** Truthiness of a string: the empty string is the only falsy one. *)
Definition truthy (s : jsstring) : bool :=
  match s with [] => false | _ :: _ => true end.

Definition is_upper (c : N) : bool := (65 <=? c) && (c <=? 90).
Definition is_lower (c : N) : bool := (97 <=? c) && (c <=? 122).
Definition is_digit (c : N) : bool := (48 <=? c) && (c <=? 57).

(** ASCII letters folded to lower case, every other code unit kept. *)
Definition ascii_lower (c : N) : N := if is_upper c then c + 32 else c.
Definition ascii_upper (c : N) : N := if is_lower c then c - 32 else c.

End JsString.
Import JsString.

(* ===================================================================== *)
(** ** Regular expressions *)
(* ===================================================================== *)

(** The script uses regular-expression literals for its tests on file
  names.  They are embedded as terms of [regex]; the anchors [^] and [$]
  and the [g] flag are carried by the operation that uses the pattern
  ([test_full], [test_suffix], [test_prefix], [strip_suffix], ...). *)

Module Regex.

Inductive regex : Type :=
| Void                                   (* matches nothing *)
| Eps                                    (* the empty string *)
| Class (p : N -> bool)                  (* one code unit satisfying [p] *)
| Seq (r1 r2 : regex)
| Alt (r1 r2 : regex)
| Star (r : regex).

Definition Plus (r : regex) : regex := Seq r (Star r).

(** A literal character; under the [i] flag of a non-unicode pattern an
    ASCII letter matches both of its cases and nothing else. *)
Definition Chr (c : N) : regex := Class (N.eqb c).
Definition ChrI (c : N) : regex := Class (fun x => ascii_lower x =? ascii_lower c).

Fixpoint LitI (w : jsstring) : regex :=
  match w with [] => Eps | c :: w' => Seq (ChrI c) (LitI w') end.

Fixpoint nullable (r : regex) : bool :=
  match r with
  | Void => false
  | Eps => true
  | Class _ => false
  | Seq r1 r2 => nullable r1 && nullable r2
  | Alt r1 r2 => nullable r1 || nullable r2
  | Star _ => true
  end.

(** Brzozowski derivative of [r] by the code unit [c]. *)
Fixpoint deriv (c : N) (r : regex) : regex :=
  match r with
  | Void => Void
  | Eps => Void
  | Class p => if p c then Eps else Void
  | Seq r1 r2 =>
      if nullable r1
      then Alt (Seq (deriv c r1) r2) (deriv c r2)
      else Seq (deriv c r1) r2
  | Alt r1 r2 => Alt (deriv c r1) (deriv c r2)
  | Star r1 => Seq (deriv c r1) (Star r1)
  end.

(** The whole of [s] is in the language of [r]. *)
Fixpoint matchesb (r : regex) (s : jsstring) : bool :=
  match s with
  | [] => nullable r
  | c :: s' => matchesb (deriv c r) s'
  end.

(** [/^r$/.test(s)] *)
Definition test_full (r : regex) (s : jsstring) : bool := matchesb r s.

(** [/r$/.test(s)]: some suffix of [s] matches [r]. *)
Fixpoint test_suffix (r : regex) (s : jsstring) : bool :=
  matchesb r s ||
  match s with
  | [] => false
  | _ :: s' => test_suffix r s'
  end.

(** [/^r/.test(s)]: some prefix of [s] matches [r]. *)
Definition test_prefix (r : regex) (s : jsstring) : bool :=
  matchesb (Seq r (Star (Class (fun _ => true)))) s.

(** [s.replace(/r$/, '')]: the leftmost match that reaches the end of
    the input is removed; without a match [s] is returned. *)
Fixpoint strip_suffix (r : regex) (s : jsstring) : jsstring :=
  if matchesb r s then []
  else match s with
       | [] => []
       | c :: s' => c :: strip_suffix r s'
       end.

(** [s.replace(/[p]/g, c)] for a one-character class [p]. *)
Definition replace_class (p : N -> bool) (c : N) (s : jsstring) : jsstring :=
  List.map (fun x => if p x then c else x) s.

(** [s.split(/[p]/)] for a one-character class [p]: the pieces between
    separators, in order; never an empty array. *)
Fixpoint split_class (p : N -> bool) (s : jsstring) : list jsstring :=
  match s with
  | [] => [[]]
  | c :: s' =>
      if p c then [] :: split_class p s'
      else match split_class p s' with
           | [] => [[c]]
           | piece :: rest => (c :: piece) :: rest
           end
  end.

(** Denotation of a pattern, used to justify [matchesb]. *)
Inductive Matches : regex -> jsstring -> Prop :=
| MEps : Matches Eps []
| MClass p c : p c = true -> Matches (Class p) [c]
| MSeq r1 r2 s1 s2 : Matches r1 s1 -> Matches r2 s2 -> Matches (Seq r1 r2) (s1 ++ s2)
| MAltL r1 r2 s : Matches r1 s -> Matches (Alt r1 r2) s
| MAltR r1 r2 s : Matches r2 s -> Matches (Alt r1 r2) s
| MStar0 r : Matches (Star r) []
| MStarS r s1 s2 : Matches r s1 -> Matches (Star r) s2 -> Matches (Star r) (s1 ++ s2).

End Regex.
Import Regex.

(* ===================================================================== *)
(** ** Loader registry *)
(* ===================================================================== *)

Module Loaders.

(** The [DataLoader] interface.  [load] talks to the engine and is outside
    the properties stated here; a loader is its [id] and its [canLoad]. *)
Record DataLoader : Type := {
  id : jsstring;
  canLoad : jsstring -> bool
}.

(** [/\.csv$/i] *)
Definition CSV_EXTENSIONS : regex := Seq (ChrI 46) (LitI (js "csv")).
(** [/\.(arrow|ipc)$/i] *)
Definition ARROW_EXTENSIONS : regex :=
  Seq (ChrI 46) (Alt (LitI (js "arrow")) (LitI (js "ipc"))).
(** [/\.(parquet|parq)$/i] *)
Definition PARQUET_EXTENSIONS : regex :=
  Seq (ChrI 46) (Alt (LitI (js "parquet")) (LitI (js "parq"))).

Definition csvLoader : DataLoader :=
  {| id := js "csv"; canLoad := fun fileName => test_suffix CSV_EXTENSIONS fileName |}.
Definition arrowLoader : DataLoader :=
  {| id := js "arrow"; canLoad := fun fileName => test_suffix ARROW_EXTENSIONS fileName |}.
Definition parquetLoader : DataLoader :=
  {| id := js "parquet"; canLoad := fun fileName => test_suffix PARQUET_EXTENSIONS fileName |}.

Definition DATA_LOADERS : list DataLoader := [arrowLoader; parquetLoader; csvLoader].

(** [DATA_LOADERS.find((loader) => loader.canLoad(fileName)) ?? csvLoader] *)
Definition selectLoader (fileName : jsstring) : DataLoader :=
  match List.find (fun loader => canLoad loader fileName) DATA_LOADERS with
  | Some loader => loader
  | None => csvLoader
  end.

(** The spec's wording of a loader's predicate: the file name ends, up to
    the case of ASCII letters, in the given extension. *)
Definition ends_with_ci (ext fileName : jsstring) : Prop :=
  exists stem tail, fileName = stem ++ tail /\ List.map ascii_lower tail = ext.

End Loaders.

(* ===================================================================== *)
(** ** Identifier sanitizer *)
(* ===================================================================== *)

Module SqlHelpers.

(** [[A-Za-z0-9_]] *)
Definition is_word (c : N) : bool :=
  is_upper c || is_lower c || is_digit c || (c =? 95).
(** [[A-Za-z_]] *)
Definition is_ident_start (c : N) : bool :=
  is_upper c || is_lower c || (c =? 95).
(** [[\\/]] *)
Definition is_path_separator (c : N) : bool := (c =? 92) || (c =? 47).

(** [/\.[^.]+$/] *)
Definition FINAL_EXTENSION : regex :=
  Seq (Chr 46) (Plus (Class (fun c => negb (c =? 46)))).

(** [/^[A-Za-z_][A-Za-z0-9_]*$/], used through [test_full]. *)
Definition simplePattern : regex :=
  Seq (Class is_ident_start) (Star (Class is_word)).

Definition generateViewName (fileName : jsstring) : jsstring :=
  let baseName := List.last (split_class is_path_separator fileName) fileName in
  let withoutExtension := strip_suffix FINAL_EXTENSION baseName in
  let sanitized := replace_class (fun c => negb (is_word c)) 95 withoutExtension in
  let sanitized := if truthy sanitized then sanitized else js "data_view" in
  if test_prefix (Class is_digit) sanitized
  then js "v_" ++ sanitized
  else sanitized.

Definition formatIdentifierForSql (identifier : jsstring) : jsstring :=
  if test_full simplePattern identifier then identifier
  else [34] ++ List.flat_map (fun c => if c =? 34 then [34; 34] else [c]) identifier ++ [34].

(** *** The sanitizer in the spec's words *)

(** The trailing path component: the whole name when it has no
    separator, what follows the last separator otherwise. *)
Inductive trailing_component : jsstring -> jsstring -> Prop :=
| trailing_whole name :
    forallb (fun c => negb (is_path_separator c)) name = true ->
    trailing_component name name
| trailing_after dir sep base :
    is_path_separator sep = true ->
    forallb (fun c => negb (is_path_separator c)) base = true ->
    trailing_component (dir ++ sep :: base) base.

(** The name without its final extension: the text after the last dot is
    dropped with the dot, unless there is no dot or nothing after it. *)
Inductive without_extension : jsstring -> jsstring -> Prop :=
| extension_none base :
    forallb (fun c => negb (c =? 46)) base = true ->
    without_extension base base
| extension_empty stem :
    without_extension (stem ++ [46]) (stem ++ [46])
| extension_final stem ext :
    ext <> [] ->
    forallb (fun c => negb (c =? 46)) ext = true ->
    without_extension (stem ++ 46 :: ext) stem.

(** A character outside [[A-Za-z0-9_]] becomes an underscore. *)
Definition underscored (c : N) : N := if is_word c then c else 95.

(** The default name for an empty result, the prefix for a leading digit. *)
Definition defaulted_and_prefixed (name : jsstring) : jsstring :=
  match name with
  | [] => js "data_view"
  | c :: _ => if is_digit c then js "v_" ++ name else name
  end.

End SqlHelpers.

(* ===================================================================== *)
(** ** Values held by result cells *)
(* ===================================================================== *)

Module Values.

(** A JavaScript number: an IEEE-754 double. *)
Abbreviation JsNumber := spec_float.

Definition js_sub (x y : JsNumber) : JsNumber := SFsub 53 1024 x y.
Definition js_mul (x y : JsNumber) : JsNumber := SFmul 53 1024 x y.
Definition js_of_Z (z : Z) : JsNumber := binary_normalize 53 1024 z 0 false.

(** [Number.isFinite(x)] for a value that is a number. *)
Definition isFinite (x : JsNumber) : bool :=
  match x with
  | S754_zero _ | S754_finite _ _ _ => true
  | S754_infinity _ | S754_nan => false
  end.

(** What [formatCell] can observe of an object that is not a [Date]:
    [JSON.stringify(value)] either yields text or throws, and
    [String(value)] yields text. *)
Record ObjectView : Type := {
  obj_json : option jsstring;
  obj_string : jsstring
}.

(** The values a cell of an Arrow row can hold (functions and symbols are
    not among them).  Dates and other objects carry the identity of the
    object, which is what [===] compares. *)
Inductive JsValue : Type :=
| VUndefined
| VNull
| VBoolean (b : bool)
| VNumber (x : JsNumber)
| VBigInt (z : Z)
| VString (s : jsstring)
| VDate (ref : nat) (time : JsNumber)
| VObject (ref : nat) (o : ObjectView).

(** [a === b] *)
Definition strict_equal (a b : JsValue) : bool :=
  match a, b with
  | VUndefined, VUndefined => true
  | VNull, VNull => true
  | VBoolean x, VBoolean y => Bool.eqb x y
  | VNumber x, VNumber y => SFeqb x y
  | VBigInt x, VBigInt y => Z.eqb x y
  | VString x, VString y => bool_decide (x = y)
  | VDate r1 _, VDate r2 _ => Nat.eqb r1 r2
  | VObject r1 _, VObject r2 _ => Nat.eqb r1 r2
  | _, _ => false
  end.

(** The outcome of a call: a value, or an exception with its message. *)
Inductive Completion (A : Type) : Type :=
| Normal (a : A)
| Throw (message : jsstring).
Arguments Normal {A} a.
Arguments Throw {A} message.

(** An Arrow table as the script reads it: the schema's field names, and
    per row index what [table.get(i)] returns; a row is read by property
    name. *)
Record Table : Type := {
  fields : list jsstring;
  tableRows : list (option (list (jsstring * JsValue)))
}.

Definition numRows (t : Table) : nat := length (tableRows t).

(** [row[name]]: the first property of that name, [undefined] without one. *)
Fixpoint property (row : list (jsstring * JsValue)) (name : jsstring) : JsValue :=
  match row with
  | [] => VUndefined
  | (k, v) :: row' => if bool_decide (k = name) then v else property row' name
  end.

(** [String(z)] for a BigInt: its decimal digits. *)
Definition bigintToString (z : Z) : jsstring :=
  js (DecimalString.NilZero.string_of_int (Z.to_int z)).

Inductive EngineCall : Type :=
| CallQuery (sql : jsstring)
| CallCopyFileToBuffer (path : jsstring)
| CallDropFile (path : jsstring).

(** What the script takes from its platform: the string and number
    routines of the language runtime that are used as given, the Arrow
    serializer, the engine's answers (an answer may depend on all earlier
    calls), and the two clocks, indexed by the number of earlier reads. *)
Class Platform : Type := {
  toLowerCase : jsstring -> jsstring;
  localeCompare : jsstring -> jsstring -> JsNumber;
  numberToString : JsNumber -> jsstring;
  isoDateText : JsNumber -> jsstring;
  tableToIPC : Table -> list N;
  engine_query : list EngineCall -> jsstring -> Completion (option Table);
  engine_copyFileToBuffer : list EngineCall -> jsstring -> Completion (list N);
  engine_dropFile : list EngineCall -> jsstring -> Completion unit;
  performance_now : nat -> JsNumber;
  Date_now : nat -> JsNumber
}.

Section WithPlatform.
Context {platform : Platform}.

(** [date.toISOString()]: a [RangeError] for an invalid date. *)
Definition toISOString (time : JsNumber) : Completion jsstring :=
  if isFinite time then Normal (isoDateText time)
  else Throw (js "Invalid time value").

Definition formatCell (value : JsValue) : Completion jsstring :=
  match value with
  | VNull | VUndefined => Normal []
  | VDate _ time => toISOString time
  | VNumber x => Normal (if isFinite x then numberToString x else [])
  | VObject _ o =>
      match obj_json o with
      | Some text => Normal text
      | None => Normal (obj_string o)
      end
  | VBoolean b => Normal (js (if b then "true" else "false"))
  | VBigInt z => Normal (bigintToString z)
  | VString s => Normal s
  end.

(** The values the claim about blank cells names: [null], [undefined]
    and the numbers that are not finite. *)
Definition blank_value (v : JsValue) : Prop :=
  v = VNull \/ v = VUndefined \/ exists x, v = VNumber x /\ isFinite x = false.

(** Every value but an invalid date: the values [formatCell] renders
    without an exception. *)
Definition renderable (v : JsValue) : Prop :=
  match v with
  | VDate _ time => isFinite time = true
  | _ => True
  end.

(** The text [formatCell] gives an object that is not a [Date]. *)
Definition object_text (o : ObjectView) : jsstring :=
  match obj_json o with
  | Some text => text
  | None => obj_string o
  end.

(** [aDisplay ?? ''] *)
Definition or_empty (text : option jsstring) : jsstring := default [] text.

Definition compareValues (a b : JsValue) (aDisplay bDisplay : option jsstring) : JsNumber :=
  if strict_equal a b then js_of_Z 0
  else
    let fallback :=
      localeCompare (toLowerCase (or_empty aDisplay)) (toLowerCase (or_empty bDisplay)) in
    match a, b with
    | VNumber x, VNumber y =>
        if isFinite x && isFinite y
        then (if SFltb x y then js_of_Z (-1) else js_of_Z 1)
        else fallback
    | VDate _ t1, VDate _ t2 => js_sub t1 t2
    | _, _ => fallback
    end.

End WithPlatform.

End Values.

(* ===================================================================== *)
(** ** Result grid *)
(* ===================================================================== *)

Module Grid.
Import Values.

Inductive SortDirection : Type := asc | desc.

Record TableRow : Type := {
  raw : list JsValue;
  display : list jsstring
}.

(** [rows] is the address of the array object that holds the rows. *)
Record TableData : Type := {
  columns : list jsstring;
  rows : nat
}.

(** [direction = None] is the script's [null]. *)
Record SortState : Type := {
  columnIndex : Z;
  direction : option SortDirection
}.

Definition neutralSort : SortState := {| columnIndex := -1; direction := None |}.

(** What the results container shows. *)
Inductive ResultsView : Type :=
| InitialView
| EmptyStateView                       (* "Query completed. No rows returned." *)
| TableView (header : list jsstring).  (* header buttons and filter inputs, one per column *)

(** A child of the table body. *)
Inductive BodyRow : Type :=
| EmptyRow (colSpan : nat)             (* "No rows match the current filters." *)
| DataRow (cells : list jsstring).

(** The text of the row-count label. *)
Inductive RowCount : Type :=
| NoRowsToDisplay
| AllRows (total : nat)
| RowsOf (visible total : nat).

(** The grid's part of the script's state.  [heap] holds the array objects
    of rows; [resultsContainer], [rowCountLabel] and [globalSearchInput]
    are [None] when the page has no such element, and hold what the
    element shows otherwise; [tableBodyElement] holds the children of the
    table body.  Page effects that mirror [sortState] (the sort
    indicators), the chart and the scroll position are not tracked. *)
Record Grid : Type := {
  heap : gmap nat (list TableRow);
  resultsContainer : option ResultsView;
  currentTableData : option TableData;
  columnFilters : list jsstring;
  globalFilter : jsstring;
  sortState : SortState;
  tableBodyElement : option (list BodyRow);
  rowCountLabel : option RowCount;
  globalSearchInput : option jsstring
}.

(** The skeleton on show has one filter input per entry of
    [columnFilters]. *)
Definition skeleton_filters (g : Grid) : Prop :=
  forall header,
    resultsContainer g = Some (TableView header) -> length (columnFilters g) = length header.

Definition with_sortState (v : SortState) (g : Grid) : Grid :=
  {| heap := heap g; resultsContainer := resultsContainer g;
     currentTableData := currentTableData g; columnFilters := columnFilters g;
     globalFilter := globalFilter g; sortState := v;
     tableBodyElement := tableBodyElement g; rowCountLabel := rowCountLabel g;
     globalSearchInput := globalSearchInput g |}.

Definition with_columnFilters (v : list jsstring) (g : Grid) : Grid :=
  {| heap := heap g; resultsContainer := resultsContainer g;
     currentTableData := currentTableData g; columnFilters := v;
     globalFilter := globalFilter g; sortState := sortState g;
     tableBodyElement := tableBodyElement g; rowCountLabel := rowCountLabel g;
     globalSearchInput := globalSearchInput g |}.

Definition with_globalFilter (v : jsstring) (g : Grid) : Grid :=
  {| heap := heap g; resultsContainer := resultsContainer g;
     currentTableData := currentTableData g; columnFilters := columnFilters g;
     globalFilter := v; sortState := sortState g;
     tableBodyElement := tableBodyElement g; rowCountLabel := rowCountLabel g;
     globalSearchInput := globalSearchInput g |}.

Definition with_globalSearchInput (v : option jsstring) (g : Grid) : Grid :=
  {| heap := heap g; resultsContainer := resultsContainer g;
     currentTableData := currentTableData g; columnFilters := columnFilters g;
     globalFilter := globalFilter g; sortState := sortState g;
     tableBodyElement := tableBodyElement g; rowCountLabel := rowCountLabel g;
     globalSearchInput := v |}.

(** *** Array objects *)

Definition array_read (h : gmap nat (list TableRow)) (a : nat) : list TableRow :=
  default [] (h !! a).

(** A new array object with the given elements, at an unused address. *)
Definition array_new (elements : list TableRow) (h : gmap nat (list TableRow))
  : nat * gmap nat (list TableRow) :=
  let a := fresh (dom h) in (a, <[a := elements]> h).

(** Every array object of [h] is in [h'] with the same elements. *)
Definition extends (h h' : gmap nat (list TableRow)) : Prop :=
  forall a elements, h !! a = Some elements -> h' !! a = Some elements.

(** [Array.prototype.sort] orders stably by the sign of the comparator,
    a result that is not positive (zero or NaN included) keeping the
    earlier element first. *)
Fixpoint sort_insert {A : Type} (compare : A -> A -> JsNumber) (x : A) (l : list A) : list A :=
  match l with
  | [] => [x]
  | y :: l' =>
      if SFltb (js_of_Z 0) (compare x y)
      then y :: sort_insert compare x l'
      else x :: l
  end.

Definition sorted_by {A : Type} (compare : A -> A -> JsNumber) (l : list A) : list A :=
  foldr (sort_insert compare) [] l.

(** [array.sort(compare)] sorts the array object in place. *)
Definition array_sort (compare : TableRow -> TableRow -> JsNumber) (a : nat)
    (h : gmap nat (list TableRow)) : gmap nat (list TableRow) :=
  <[a := sorted_by compare (array_read h a)]> h.

(** [l.every((x, idx) => f idx x)] *)
Fixpoint every_from {A : Type} (f : nat -> A -> bool) (idx : nat) (l : list A) : bool :=
  match l with
  | [] => true
  | x :: l' => f idx x && every_from f (S idx) l'
  end.

Definition updateRowCount (visible total : nat) (label : option RowCount) : option RowCount :=
  match label with
  | None => None
  | Some _ =>
      Some (if (total =? 0)%nat then NoRowsToDisplay
            else if (visible =? total)%nat then AllRows visible
            else RowsOf visible total)
  end.

(** The children [applyTableState] gives the table body for the rows on
    show: one row of cells per row, or the one row that says that no row
    matches; its [colSpan] is [columns.length || 1]. *)
Definition renderBody (columns' : list jsstring) (shown : list TableRow) : list BodyRow :=
  if (length shown =? 0)%nat
  then [EmptyRow (if (length columns' =? 0)%nat then 1%nat else length columns')]
  else List.map (fun row => DataRow (display row)) shown.

Section WithPlatform.
Context {platform : Platform}.

(** The callback of [currentTableData.rows.filter] in [applyTableState]. *)
Definition rowPasses (normalizedGlobal : jsstring) (normalizedFilters : list jsstring)
    (row : TableRow) : bool :=
  if truthy normalizedGlobal
     && negb (existsb (fun cell => includes (toLowerCase cell) normalizedGlobal) (display row))
  then false
  else
    every_from
      (fun idx filter =>
         if negb (truthy filter) then true
         else includes (toLowerCase (or_empty (display row !! idx))) filter)
      0%nat normalizedFilters.

(** The comparator of the sort in [applyTableState]. *)
Definition sortComparator (sortIndex : nat) (directionMultiplier : JsNumber)
    (a b : TableRow) : JsNumber :=
  let comparison :=
    compareValues (default VUndefined (raw a !! sortIndex))
                  (default VUndefined (raw b !! sortIndex))
                  (display a !! sortIndex) (display b !! sortIndex) in
  js_mul comparison directionMultiplier.

(** The local [visibleRows] of [applyTableState]: the address of the
    array it ends up naming, and the heap once it is computed. *)
Definition visibleRows (g : Grid) (data : TableData) : nat * gmap nat (list TableRow) :=
  let normalizedGlobal := toLowerCase (trim (globalFilter g)) in
  let normalizedFilters := List.map (fun value => toLowerCase (trim value)) (columnFilters g) in
  let '(filtered, h1) :=
    array_new (List.filter (rowPasses normalizedGlobal normalizedFilters)
                           (array_read (heap g) (rows data))) (heap g) in
  match direction (sortState g) with
  | Some d =>
      if (0 <=? columnIndex (sortState g))%Z then
        let directionMultiplier := match d with asc => js_of_Z 1 | desc => js_of_Z (-1) end in
        let sortIndex := Z.to_nat (columnIndex (sortState g)) in
        let '(copy, h2) := array_new (array_read h1 filtered) h1 in
        (copy, array_sort (sortComparator sortIndex directionMultiplier) copy h2)
      else array_new (array_read h1 filtered) h1
  | None => array_new (array_read h1 filtered) h1
  end.

(** The rows [visibleRows] ends up holding, as a function of the rows of
    the snapshot: used to state what the grid shows. *)
Definition visibleContent (g : Grid) (snapshot : list TableRow) : list TableRow :=
  let passing :=
    List.filter
      (rowPasses (toLowerCase (trim (globalFilter g)))
                 (List.map (fun value => toLowerCase (trim value)) (columnFilters g)))
      snapshot in
  match direction (sortState g) with
  | Some d =>
      if (0 <=? columnIndex (sortState g))%Z
      then sorted_by (sortComparator (Z.to_nat (columnIndex (sortState g)))
                        (match d with asc => js_of_Z 1 | desc => js_of_Z (-1) end))
                     passing
      else passing
  | None => passing
  end.

Definition applyTableState (g : Grid) : Grid :=
  match currentTableData g, tableBodyElement g with
  | Some data, Some _ =>
      let '(visible, h) := visibleRows g data in
      let shown := array_read h visible in
      let body := renderBody (columns data) shown in
      {| heap := h; resultsContainer := resultsContainer g;
         currentTableData := currentTableData g; columnFilters := columnFilters g;
         globalFilter := globalFilter g; sortState := sortState g;
         tableBodyElement := Some body;
         rowCountLabel :=
           updateRowCount (length shown) (length (array_read h (rows data))) (rowCountLabel g);
         globalSearchInput := globalSearchInput g |}
  | _, _ => g
  end.

Definition toggleSort (columnIndex' : Z) (g : Grid) : Grid :=
  let next :=
    if (columnIndex (sortState g) =? columnIndex')%Z then
      match direction (sortState g) with
      | Some asc => {| columnIndex := columnIndex (sortState g); direction := Some desc |}
      | Some desc => {| columnIndex := -1; direction := None |}
      | None => {| columnIndex := columnIndex (sortState g); direction := Some asc |}
      end
    else {| columnIndex := columnIndex'; direction := Some asc |} in
  applyTableState (with_sortState next g).

(** *** What the user does on the grid *)

Inductive GridEvent : Type :=
| GlobalSearchInput (text : jsstring)            (* typing in the search box *)
| ColumnFilterInput (index : nat) (text : jsstring)  (* typing in a column's filter *)
| HeaderClick (index : nat).                     (* clicking a column header *)

(** The listeners.  The search box has its listener when the page has
    the box.  The header buttons and filter inputs are those of the
    skeleton on show, one per column; [columnFilters] has an entry for
    each (see [skeleton_filters]), so the assignment
    [columnFilters[index] = input.value] is within the array. *)
Definition handle (e : GridEvent) (g : Grid) : Grid :=
  match e with
  | GlobalSearchInput text =>
      match globalSearchInput g with
      | Some _ =>
          applyTableState (with_globalFilter text (with_globalSearchInput (Some text) g))
      | None => g
      end
  | ColumnFilterInput index text =>
      match resultsContainer g with
      | Some (TableView header) =>
          if (index <? length header)%nat
          then applyTableState (with_columnFilters (<[index := text]> (columnFilters g)) g)
          else g
      | _ => g
      end
  | HeaderClick index =>
      match resultsContainer g with
      | Some (TableView header) =>
          if (index <? length header)%nat then toggleSort (Z.of_nat index) g else g
      | _ => g
      end
  end.

(** [buildTableSkeleton(columns)], for a page that has the container. *)
Definition buildTableSkeleton (columns' : list jsstring) (g : Grid) : Grid :=
  match resultsContainer g with
  | None => g
  | Some _ =>
      {| heap := heap g; resultsContainer := Some (TableView columns');
         currentTableData := currentTableData g; columnFilters := columnFilters g;
         globalFilter := globalFilter g; sortState := sortState g;
         tableBodyElement := Some [];
         rowCountLabel := rowCountLabel g;
         globalSearchInput := globalSearchInput g |}
  end.

End WithPlatform.

End Grid.

(* ===================================================================== *)
(** ** Query execution, history and export *)
(* ===================================================================== *)

Module Session.
Import Values Grid.

Record QueryHistoryEntry : Type := {
  id : Z;
  sql : jsstring;
  timestamp : JsNumber;
  durationMs : JsNumber;
  rowCount : nat;
  error : option jsstring
}.

Inductive ExportFormat : Type := csv | parquet | arrow.

(** A message posted to the host. *)
Inductive HostMessage : Type :=
| ExportData (fileName : jsstring) (format : ExportFormat) (buffer : list N).

(** The controls of the page that the session reads or writes. [status],
    [statusWrapperShown] and [exportStatus] are [None] when the page has
    no such element. *)
Record Page : Type := {
  sqlInput : jsstring;
  runButtonDisabled : bool;
  status : option jsstring;
  statusWrapperShown : option bool;
  exportStatus : option jsstring
}.

(** What has gone out of the script: the calls made to the engine, the
    messages posted to the host, and how often each clock was read. *)
Record World : Type := {
  engineLog : list EngineCall;
  posted : list HostMessage;
  performanceReads : nat;
  dateReads : nat
}.

(** The script's state.  [db] and [connection] say whether the handle is
    set.  An operation runs to its end before the next one starts: what
    other listeners could do while an operation waits for the engine is
    not part of this model. *)
Record State : Type := {
  db : bool;
  connection : bool;
  grid : Grid;
  lastArrowResult : option Table;
  queryHistory : list QueryHistoryEntry;
  nextHistoryId : Z;
  page : Page;
  world : World
}.

Definition with_grid (v : Grid) (s : State) : State :=
  {| db := db s; connection := connection s; grid := v;
     lastArrowResult := lastArrowResult s; queryHistory := queryHistory s;
     nextHistoryId := nextHistoryId s; page := page s; world := world s |}.

Definition with_lastArrowResult (v : option Table) (s : State) : State :=
  {| db := db s; connection := connection s; grid := grid s;
     lastArrowResult := v; queryHistory := queryHistory s;
     nextHistoryId := nextHistoryId s; page := page s; world := world s |}.

Definition with_queryHistory (v : list QueryHistoryEntry) (s : State) : State :=
  {| db := db s; connection := connection s; grid := grid s;
     lastArrowResult := lastArrowResult s; queryHistory := v;
     nextHistoryId := nextHistoryId s; page := page s; world := world s |}.

Definition with_nextHistoryId (v : Z) (s : State) : State :=
  {| db := db s; connection := connection s; grid := grid s;
     lastArrowResult := lastArrowResult s; queryHistory := queryHistory s;
     nextHistoryId := v; page := page s; world := world s |}.

Definition with_page (v : Page) (s : State) : State :=
  {| db := db s; connection := connection s; grid := grid s;
     lastArrowResult := lastArrowResult s; queryHistory := queryHistory s;
     nextHistoryId := nextHistoryId s; page := v; world := world s |}.

Definition with_world (v : World) (s : State) : State :=
  {| db := db s; connection := connection s; grid := grid s;
     lastArrowResult := lastArrowResult s; queryHistory := queryHistory s;
     nextHistoryId := nextHistoryId s; page := page s; world := v |}.

(** *** Page and world *)

Definition updateStatus (message : jsstring) (s : State) : State :=
  with_page
    {| sqlInput := sqlInput (page s); runButtonDisabled := runButtonDisabled (page s);
       status := match status (page s) with Some _ => Some message | None => None end;
       statusWrapperShown :=
         match statusWrapperShown (page s) with Some _ => Some true | None => None end;
       exportStatus := exportStatus (page s) |} s.

Definition hideStatusWrapper (s : State) : State :=
  with_page
    {| sqlInput := sqlInput (page s); runButtonDisabled := runButtonDisabled (page s);
       status := status (page s);
       statusWrapperShown :=
         match statusWrapperShown (page s) with Some _ => Some false | None => None end;
       exportStatus := exportStatus (page s) |} s.

Definition updateExportStatus (message : jsstring) (s : State) : State :=
  with_page
    {| sqlInput := sqlInput (page s); runButtonDisabled := runButtonDisabled (page s);
       status := status (page s); statusWrapperShown := statusWrapperShown (page s);
       exportStatus :=
         match exportStatus (page s) with Some _ => Some message | None => None end |} s.

Definition set_runButtonDisabled (v : bool) (s : State) : State :=
  with_page
    {| sqlInput := sqlInput (page s); runButtonDisabled := v;
       status := status (page s); statusWrapperShown := statusWrapperShown (page s);
       exportStatus := exportStatus (page s) |} s.

Definition log_call (c : EngineCall) (s : State) : State :=
  with_world
    {| engineLog := engineLog (world s) ++ [c]; posted := posted (world s);
       performanceReads := performanceReads (world s); dateReads := dateReads (world s) |} s.

(** [vscode.postMessage(m)] *)
Definition postMessage (m : HostMessage) (s : State) : State :=
  with_world
    {| engineLog := engineLog (world s); posted := posted (world s) ++ [m];
       performanceReads := performanceReads (world s); dateReads := dateReads (world s) |} s.

Section WithPlatform.
Context {platform : Platform}.

(** [performance.now()] *)
Definition performanceNow (s : State) : JsNumber * State :=
  (performance_now (performanceReads (world s)),
   with_world
     {| engineLog := engineLog (world s); posted := posted (world s);
        performanceReads := S (performanceReads (world s));
        dateReads := dateReads (world s) |} s).

(** [Date.now()] *)
Definition dateNow (s : State) : JsNumber * State :=
  (Date_now (dateReads (world s)),
   with_world
     {| engineLog := engineLog (world s); posted := posted (world s);
        performanceReads := performanceReads (world s);
        dateReads := S (dateReads (world s)) |} s).

(** [await connection.query(sql)] *)
Definition connectionQuery (sql' : jsstring) (s : State) : Completion (option Table) * State :=
  (engine_query (engineLog (world s)) sql', log_call (CallQuery sql') s).

(** [await db.copyFileToBuffer(path)] *)
Definition copyFileToBuffer (path : jsstring) (s : State) : Completion (list N) * State :=
  (engine_copyFileToBuffer (engineLog (world s)) path, log_call (CallCopyFileToBuffer path) s).

(** [await db.dropFile(path)] *)
Definition dropFile (path : jsstring) (s : State) : Completion unit * State :=
  (engine_dropFile (engineLog (world s)) path, log_call (CallDropFile path) s).

(** *** History ledger *)

Definition recordQueryHistory (entry : QueryHistoryEntry) (s : State) : State :=
  with_queryHistory (take 25 (entry :: queryHistory s)) s.

(** The listener of a "Run again" button: [queryHistory.find(item => item.id === id)]. *)
Definition findHistory (id' : Z) (s : State) : option QueryHistoryEntry :=
  List.find (fun item => (id item =? id')%Z) (queryHistory s).

(** A run of record operations, the first entry of the list first. *)
Definition recordAll (entries : list QueryHistoryEntry) (s : State) : State :=
  foldl (fun s entry => recordQueryHistory entry s) s entries.

(** *** Ingesting a result *)

(** The inner loop of [renderResults]: one cell per field of the schema. *)
Fixpoint readCells (row : list (jsstring * JsValue)) (names : list jsstring)
  : Completion TableRow :=
  match names with
  | [] => Normal {| raw := []; display := [] |}
  | name :: names' =>
      let value := property row name in
      match formatCell value with
      | Throw m => Throw m
      | Normal text =>
          match readCells row names' with
          | Throw m => Throw m
          | Normal r => Normal {| raw := value :: raw r; display := text :: display r |}
          end
      end
  end.

(** The outer loop of [renderResults]; a row that [table.get(i)] does not
    return is skipped. *)
Fixpoint readRows (rows' : list (option (list (jsstring * JsValue)))) (names : list jsstring)
  : Completion (list TableRow) :=
  match rows' with
  | [] => Normal []
  | None :: rows'' => readRows rows'' names
  | Some row :: rows'' =>
      match readCells row names with
      | Throw m => Throw m
      | Normal r =>
          match readRows rows'' names with
          | Throw m => Throw m
          | Normal rs => Normal (r :: rs)
          end
      end
  end.

Definition renderEmpty (g : Grid) : Grid :=
  {| heap := heap g; resultsContainer := Some EmptyStateView;
     currentTableData := None; columnFilters := columnFilters g;
     globalFilter := globalFilter g; sortState := sortState g;
     tableBodyElement := None;
     rowCountLabel := updateRowCount 0 0 (rowCountLabel g);
     globalSearchInput := globalSearchInput g |}.

Definition renderTable (columns' : list jsstring) (rows' : list TableRow) (g : Grid) : Grid :=
  let '(a, h) := array_new rows' (heap g) in
  let g1 :=
    {| heap := h; resultsContainer := resultsContainer g;
       currentTableData := Some {| columns := columns'; rows := a |};
       columnFilters := List.map (fun _ => []) columns';
       globalFilter := [];
       sortState := {| columnIndex := -1; direction := None |};
       tableBodyElement := tableBodyElement g;
       rowCountLabel := rowCountLabel g;
       globalSearchInput :=
         match globalSearchInput g with Some _ => Some [] | None => None end |} in
  applyTableState (buildTableSkeleton columns' g1).

Definition renderResults (table : option Table) (s : State) : Completion unit * State :=
  match resultsContainer (grid s) with
  | None => (Normal tt, s)
  | Some _ =>
      let empty := (Normal tt, with_lastArrowResult table (with_grid (renderEmpty (grid s)) s)) in
      match table with
      | None => empty
      | Some t =>
          if (numRows t =? 0)%nat then empty
          else
            let s1 := with_lastArrowResult table s in
            match readRows (tableRows t) (fields t) with
            | Throw m => (Throw m, s1)
            | Normal rows' => (Normal tt, with_grid (renderTable (fields t) rows' (grid s1)) s1)
            end
      end
  end.

(** *** Running a query *)

(** [{...entryBase, durationMs, rowCount}] and [{...entryBase, durationMs, error}] *)
Definition entry_with (entryBase : QueryHistoryEntry) (duration : JsNumber)
    (count : nat) (err : option jsstring) : QueryHistoryEntry :=
  {| id := id entryBase; sql := sql entryBase; timestamp := timestamp entryBase;
     durationMs := duration; rowCount := count; error := err |}.

(** The [catch] block of [runQuery]; the exception is thrown again. *)
Definition runQuery_catch (start : JsNumber) (entryBase : QueryHistoryEntry)
    (e : jsstring) (s : State) : Completion unit * State :=
  let '(stop, s) := performanceNow s in
  (Throw e,
   recordQueryHistory
     (entry_with entryBase (js_sub stop start) (rowCount entryBase) (Some e)) s).

(** The [try] block of [runQuery] with its [catch]. *)
Definition runQuery_try (normalizedSql : jsstring) (start : JsNumber)
    (entryBase : QueryHistoryEntry) (s : State) : Completion unit * State :=
  match connectionQuery normalizedSql s with
  | (Throw e, s) => runQuery_catch start entryBase e s
  | (Normal result, s) =>
      match renderResults result s with
      | (Throw e, s) => runQuery_catch start entryBase e s
      | (Normal _, s) =>
          let s := hideStatusWrapper s in
          let '(stop, s) := performanceNow s in
          let count := match result with Some t => numRows t | None => 0%nat end in
          (Normal tt,
           recordQueryHistory (entry_with entryBase (js_sub stop start) count None) s)
      end
  end.

Definition runQuery (sql' : jsstring) (s : State) : Completion unit * State :=
  if negb (connection s) then (Throw (js "No database connection."), s)
  else
    let normalizedSql := trim sql' in
    if negb (truthy normalizedSql)
    then (Normal tt, updateStatus (js "Enter a SQL query to run.") s)
    else
      let s := updateStatus (js "Running query...") s in
      let s := set_runButtonDisabled true s in
      let '(start, s) := performanceNow s in
      let id' := nextHistoryId s in
      let s := with_nextHistoryId (id' + 1)%Z s in
      let '(now, s) := dateNow s in
      let entryBase :=
        {| id := id'; sql := normalizedSql; timestamp := now;
           durationMs := js_of_Z 0; rowCount := 0%nat; error := None |} in
      let '(outcome, s) := runQuery_try normalizedSql start entryBase s in
      (outcome, set_runButtonDisabled false s).

(** *** Export *)

(** [sql.replace(/;\s*$/g, '').trim()] *)
Definition normalizeSqlForEmbedding (sql' : jsstring) : jsstring :=
  trim (strip_suffix (Seq (Chr 59) (Star (Class is_whitespace))) sql').

Definition format_text (format : ExportFormat) : jsstring :=
  match format with csv => js "csv" | parquet => js "parquet" | arrow => js "arrow" end.

Definition requestFileSave (fileName : jsstring) (buffer : list N) (format : ExportFormat)
    (s : State) : State :=
  let s := updateExportStatus (js "Choose where to save the file" ++ [8230]) s in
  postMessage (ExportData fileName format buffer) s.

Definition exportResult (format : ExportFormat) (s : State) : Completion unit * State :=
  if negb (connection s) || negb (db s)
  then (Throw (js "DuckDB is not ready for export."), s)
  else
    let baseName := js "duckdb_result" in
    let normalizedQuery := trim (sqlInput (page s)) in
    if negb (truthy normalizedQuery)
    then (Normal tt, updateExportStatus (js "Write a SQL query to export first.") s)
    else
      let s :=
        updateExportStatus
          (js "Preparing " ++ List.map ascii_upper (format_text format)
              ++ js " export" ++ [8230]) s in
      match format with
      | arrow =>
          let '(ran, s) :=
            match lastArrowResult s with
            | None => runQuery normalizedQuery s
            | Some _ => (Normal tt, s)
            end in
          match ran with
          | Throw e => (Throw e, s)
          | Normal _ =>
              match lastArrowResult s with
              | None =>
                  (Normal tt, updateExportStatus (js "Run the query before exporting to Arrow.") s)
              | Some t =>
                  (Normal tt, requestFileSave (baseName ++ js ".arrow") (tableToIPC t) format s)
              end
          end
      | _ =>
          let '(now, s) := dateNow s in
          let exportPath :=
            js "memory://duckdb-viewer/" ++ numberToString now ++ js "." ++ format_text format in
          let wrappedQuery := normalizeSqlForEmbedding normalizedQuery in
          let copyStatement :=
            match format with
            | csv =>
                js "COPY (" ++ wrappedQuery ++ js ") TO '" ++ exportPath
                   ++ js "' (FORMAT CSV, HEADER true);"
            | _ =>
                js "COPY (" ++ wrappedQuery ++ js ") TO '" ++ exportPath
                   ++ js "' (FORMAT PARQUET);"
            end in
          match connectionQuery copyStatement s with
          | (Throw e, s) => (Throw e, s)
          | (Normal _, s) =>
              match copyFileToBuffer exportPath s with
              | (Throw e, s) => (Throw e, s)
              | (Normal buffer, s) =>
                  match dropFile exportPath s with
                  | (Throw e, s) => (Throw e, s)
                  | (Normal _, s) =>
                      let extension := match format with csv => js "csv" | _ => js "parquet" end in
                      (Normal tt,
                       requestFileSave (baseName ++ js "." ++ extension) buffer format s)
                  end
              end
          end
      end.

End WithPlatform.

End Session.

(* ===================================================================== *)
(** ** A platform to run the definitions on *)
(* ===================================================================== *)

Module Demo.
Import Values Grid Session.

(** Orders two strings by their code units. *)
Fixpoint codeUnitCompare (a b : jsstring) : Z :=
  match a, b with
  | [], [] => 0
  | [], _ :: _ => -1
  | _ :: _, [] => 1
  | x :: a', y :: b' =>
      if x <? y then -1 else if y <? x then 1 else codeUnitCompare a' b'
  end.

(** Decimal digits of the integer part; exact on integers. *)
Definition integerText (x : JsNumber) : jsstring :=
  match x with
  | S754_zero _ => js "0"
  | S754_finite s m e => bigintToString (cond_Zopp s (Z.shiftl (Z.pos m) e))
  | S754_infinity false => js "Infinity"
  | S754_infinity true => js "-Infinity"
  | S754_nan => js "NaN"
  end.

(** The table of the file [a,b / 1,x / 2,y]. *)
Definition table_ab : Table :=
  {| fields := [js "a"; js "b"];
     tableRows :=
       [Some [(js "a", VNumber (js_of_Z 1)); (js "b", VString (js "x"))];
        Some [(js "a", VNumber (js_of_Z 2)); (js "b", VString (js "y"))]] |}.

(** An engine that rejects the statement [oops] and answers every other
    one with [table_ab]; ASCII case folding; clocks that advance by five
    milliseconds a read. *)
#[export] Instance platform : Platform := {|
  toLowerCase := List.map ascii_lower;
  localeCompare := fun a b => js_of_Z (codeUnitCompare a b);
  numberToString := integerText;
  isoDateText := fun t => js "T" ++ integerText t;
  tableToIPC := fun t => js "ARROW1";
  engine_query := fun _ sql' =>
    if bool_decide (sql' = js "oops") then Throw (js "Parser Error") else Normal (Some table_ab);
  engine_copyFileToBuffer := fun _ _ => Normal (js "a,b");
  engine_dropFile := fun _ _ => Normal tt;
  performance_now := fun n => js_of_Z (5 * Z.of_nat n);
  Date_now := fun n => js_of_Z (1700000000000 + 5 * Z.of_nat n)
|}.

(** The script's state when it has loaded, on a page with every element,
    once the engine is connected. *)
Definition initialGrid : Grid :=
  {| heap := ∅; resultsContainer := Some InitialView;
     currentTableData := None; columnFilters := []; globalFilter := [];
     sortState := {| columnIndex := -1; direction := None |};
     tableBodyElement := None; rowCountLabel := Some NoRowsToDisplay;
     globalSearchInput := Some [] |}.

Definition initialState : State :=
  {| db := true; connection := true; grid := initialGrid;
     lastArrowResult := None; queryHistory := []; nextHistoryId := 1;
     page := {| sqlInput := []; runButtonDisabled := false; status := Some [];
                statusWrapperShown := Some true; exportStatus := Some [] |};
     world := {| engineLog := []; posted := []; performanceReads := 0; dateReads := 0 |} |}.

(** The state after the query [SELECT a, b FROM t;] has run. *)
Definition loadedState : State :=
  snd (runQuery (js "SELECT a, b FROM t;") initialState).

(** The loaded grid after a click on the first header and the letter [x]
    typed into the search box. *)
Definition busyState : State :=
  with_grid
    (handle (GlobalSearchInput (js "x")) (handle (HeaderClick 0) (grid loadedState)))
    loadedState.

(** A result with the columns of [table_ab] and no rows. *)
Definition table_none : Table := {| fields := [js "a"; js "b"]; tableRows := [] |}.

(** The rows of [table_ab] as the grid holds them. *)
Definition rows_ab : list TableRow :=
  [{| raw := [VNumber (js_of_Z 1); VString (js "x")]; display := [js "1"; js "x"] |};
   {| raw := [VNumber (js_of_Z 2); VString (js "y")]; display := [js "2"; js "y"] |}].

Definition entryNumbered (i : nat) : QueryHistoryEntry :=
  {| id := Z.of_nat i; sql := js "SELECT 1"; timestamp := js_of_Z 0;
     durationMs := js_of_Z 0; rowCount := 1; error := None |}.

(** Thirty entries, numbered 1 to 30. *)
Definition thirtyEntries : list QueryHistoryEntry := List.map entryNumbered (seq 1 30).

End Demo.

(* ===================================================================== *)
(** ** Text written into SQL and into the page *)
(* ===================================================================== *)

Module SqlText.

(** [items.join(separator)] *)
Fixpoint join (separator : jsstring) (items : list jsstring) : jsstring :=
  match items with
  | [] => []
  | item :: rest =>
      match rest with
      | [] => item
      | _ :: _ => item ++ separator ++ join separator rest
      end
  end.

(** [buildDefaultQuery] of the single-file webview. *)
Definition buildDefaultQuery (columnNames : list jsstring) (viewReference : jsstring)
  : jsstring :=
  let columns :=
    if negb (length columnNames =? 0)%nat
    then join (js ", ") (List.map SqlHelpers.formatIdentifierForSql columnNames)
    else js "*" in
  js "SELECT " ++ columns ++ [10] ++ js "FROM " ++ viewReference ++ js ";".

(** [fileName.replace(/'/g, "''")], as the loaders write a file name into
    a SQL string literal. *)
Definition escapeSingleQuotes (fileName : jsstring) : jsstring :=
  List.flat_map (fun c => if c =? 39 then [39; 39] else [c]) fileName.

(** The class of [escapeHtml]'s pattern: ampersand, angle brackets,
    double quote and apostrophe. *)
Definition is_html_special (c : N) : bool :=
  (c =? 38) || (c =? 60) || (c =? 62) || (c =? 34) || (c =? 39).

(** The [map] of [escapeHtml], on the characters of its pattern. *)
Definition htmlEntity (c : N) : jsstring :=
  if c =? 38 then js "&amp;"
  else if c =? 60 then js "&lt;"
  else if c =? 62 then js "&gt;"
  else if c =? 34 then js "&quot;"
  else js "&#39;".

Definition escapeHtml (value : jsstring) : jsstring :=
  List.flat_map (fun c => if is_html_special c then htmlEntity c else [c]) value.

(** A text without white space at either end. *)
Definition trimmed (s : jsstring) : Prop :=
  match s with [] => True | c :: _ => is_whitespace c = false end /\
  match rev s with [] => True | c :: _ => is_whitespace c = false end.

End SqlText.

(* ===================================================================== *)
(** ** What the user does on the page *)
(* ===================================================================== *)

Module Actions.
Import Values Grid Session.

(** [reportError(e)], for an exception with the given message. *)
Definition reportError (message : jsstring) (s : State) : State :=
  with_page
    {| sqlInput := sqlInput (page s); runButtonDisabled := runButtonDisabled (page s);
       status :=
         match status (page s) with
         | Some _ => Some (js "Error: " ++ message)
         | None => None
         end;
       statusWrapperShown :=
         match statusWrapperShown (page s) with Some _ => Some true | None => None end;
       exportStatus := exportStatus (page s) |} s.

(** [sqlInput.value = text] *)
Definition with_sqlInput (text : jsstring) (s : State) : State :=
  with_page
    {| sqlInput := text; runButtonDisabled := runButtonDisabled (page s);
       status := status (page s); statusWrapperShown := statusWrapperShown (page s);
       exportStatus := exportStatus (page s) |} s.

(** [promise.catch(reportError)] *)
Definition catchReport (outcome : Completion unit * State) : State :=
  match outcome with
  | (Normal _, s) => s
  | (Throw message, s) => reportError message s
  end.

Inductive UserAction : Type :=
| TypeSql (text : jsstring)          (* typing into the query box *)
| RunClick                           (* the Run button, or Cmd/Ctrl+Enter in the box *)
| RunAgainClick (id : Z)             (* a "Run again" button of the history list *)
| ExportClick (format : ExportFormat)  (* an export button *)
| GridAction (e : GridEvent)         (* the search box, a filter or a header *)
| HostError (message : jsstring)     (* an [error] message of the extension host *)
| HostExportStatus (message : jsstring).  (* an [export-status] message with a text *)

(** A row with one raw value and one display text per column. *)
Definition row_shaped (width : nat) (row : TableRow) : Prop :=
  length (raw row) = width /\ length (display row) = width.

(** The grid holds its snapshot consistently: the skeleton on show is the
    one of the snapshot's columns, with the table body and one filter per
    column, and the rows are in the heap, one cell per column each. *)
Definition grid_ok (g : Grid) : Prop :=
  skeleton_filters g /\
  forall data,
    currentTableData g = Some data ->
    resultsContainer g = Some (TableView (columns data)) /\
    tableBodyElement g <> None /\
    length (columnFilters g) = length (columns data) /\
    exists snapshot,
      heap g !! rows data = Some snapshot /\
      Forall (row_shaped (length (columns data))) snapshot.

(** The ledger is well kept: at most 25 entries, ids all different and
    below the next id, texts trimmed and not blank. *)
Definition ledger_ok (s : State) : Prop :=
  (length (queryHistory s) <= 25)%nat /\
  NoDup (Session.id <$> queryHistory s) /\
  Forall (fun entry =>
            (Session.id entry < nextHistoryId s)%Z /\
            SqlText.trimmed (sql entry) /\ sql entry <> [])
         (queryHistory s).

Section WithPlatform.
Context {platform : Platform}.

(** The listeners of the page and of the host's messages; a failure ends
    in [reportError]. *)
Definition act (a : UserAction) (s : State) : State :=
  match a with
  | TypeSql text => with_sqlInput text s
  | RunClick => catchReport (runQuery (sqlInput (page s)) s)
  | RunAgainClick id' =>
      match findHistory id' s with
      | Some entry => catchReport (runQuery (sql entry) (with_sqlInput (sql entry) s))
      | None => s
      end
  | ExportClick format => catchReport (exportResult format s)
  | GridAction e => with_grid (handle e (grid s)) s
  | HostError message => reportError message s
  | HostExportStatus message => updateExportStatus message s
  end.

Definition actAll (actions : list UserAction) (s : State) : State :=
  foldl (fun s a => act a s) s actions.

End WithPlatform.

End Actions.

(* ===================================================================== *)
(** ** The chart's column *)
(* ===================================================================== *)

Module Chart.
Import Grid.

(** The members of Arrow's [Type] that the script names, and the rest. *)
Inductive ArrowType : Type :=
| Int | Int8 | Int16 | Int32 | Int64
| Uint8 | Uint16 | Uint32 | Uint64
| Float | Float16 | Float32 | Float64
| Decimal
| OtherType.

#[export] Instance ArrowType_eq_dec : EqDecision ArrowType.
Proof. solve_decision. Defined.

(** A field of a table's schema; [typeId] is [None] when undefined. *)
Record Field : Type := {
  name : jsstring;
  typeId : option ArrowType
}.

Definition integerTypes : list ArrowType :=
  [Int; Int8; Int16; Int32; Int64; Uint8; Uint16; Uint32; Uint64].

Definition numericTypes : list ArrowType :=
  [Int; Int8; Int16; Int32; Int64; Uint8; Uint16; Uint32; Uint64;
   Float; Float16; Float32; Float64; Decimal].

(** [types.includes(t)] *)
Definition includes (types : list ArrowType) (t : ArrowType) : bool :=
  existsb (fun t' => bool_decide (t' = t)) types.

Definition isIntegerField (field : Field) : bool :=
  match typeId field with
  | None => false
  | Some t => includes integerTypes t
  end.

Definition isNumericField (field : Field) : bool :=
  match typeId field with
  | None => false
  | Some t => includes numericTypes t
  end.

(** The chart's part of the page and of the script's variables:
    the values of the options of the column select ([None] when the page
    has no such element), and [chartState.column]. *)
Record ChartState : Type := {
  chartColumnSelect : option (list jsstring);
  column : jsstring
}.

Definition populateChartColumns (table : option (list Field)) (c : ChartState)
  : ChartState :=
  match chartColumnSelect c with
  | None => c
  | Some _ =>
      let fields :=
        match table with
        | Some all => List.filter isNumericField all
        | None => []
        end in
      let options := [] :: List.map name fields in
      let column' :=
        if negb (existsb (fun field => bool_decide (name field = column c)) fields)
        then
          let preferred :=
            match List.find isIntegerField fields with
            | Some field => Some field
            | None => List.hd_error fields
            end in
          match preferred with
          | Some field => name field
          | None => []
          end
        else column c in
      {| chartColumnSelect := Some options; column := column' |}
  end.

(** [columns.indexOf(text)] *)
Fixpoint indexOf (columns' : list jsstring) (text : jsstring) : Z :=
  match columns' with
  | [] => -1
  | first :: rest =>
      if bool_decide (first = text) then 0
      else let i := indexOf rest text in if (i =? -1)%Z then -1 else (i + 1)%Z
  end.

(** How far [renderChart] gets before it reads the rows: it returns at
    once without a canvas, shows one of its messages in place of the
    chart, or goes on to the points of the column with the index found. *)
Inductive ChartView : Type :=
| NoCanvas
| EmptyState (message : jsstring)
| PointsOf (columnIndex : Z).

Definition renderChart (chartCanvas : bool) (currentTableData' : option TableData)
    (c : ChartState) : ChartView :=
  if negb chartCanvas then NoCanvas
  else
    match currentTableData' with
    | None => EmptyState (js "Run a query to visualize data.")
    | Some data =>
        if negb (truthy (column c))
        then EmptyState (js "Pick a numeric column to start charting.")
        else
          let columnIndex := indexOf (columns data) (column c) in
          if (columnIndex =? -1)%Z
          then EmptyState (js "Selected column is not in the current result.")
          else PointsOf columnIndex
    end.

End Chart.

(* ===================================================================== *)
(** ** The statements of the file loaders *)
(* ===================================================================== *)

Module LoaderSql.
Import Values.

(** The statement that describes a CSV file, and the one that creates
    its view, from [csvLoader.load]. *)
Definition csv_describeQuery (fileName : jsstring) : jsstring :=
  js "DESCRIBE SELECT * FROM read_csv('" ++ SqlText.escapeSingleQuotes fileName
     ++ js "', header=true);".

Definition csv_createViewQuery (relationIdentifier fileName : jsstring) : jsstring :=
  [10] ++ js "      CREATE OR REPLACE TEMP VIEW " ++ relationIdentifier ++ js " AS "
       ++ [10] ++ js "      SELECT * FROM read_csv('" ++ SqlText.escapeSingleQuotes fileName
       ++ js "', header=true);" ++ [10] ++ js "    ".

(** The same two statements from [parquetLoader.load]. *)
Definition parquet_describeQuery (fileName : jsstring) : jsstring :=
  js "DESCRIBE SELECT * FROM read_parquet('" ++ SqlText.escapeSingleQuotes fileName
     ++ js "');".

Definition parquet_createViewQuery (relationIdentifier fileName : jsstring) : jsstring :=
  [10] ++ js "      CREATE OR REPLACE TEMP VIEW " ++ relationIdentifier ++ js " AS "
       ++ [10] ++ js "      SELECT * FROM read_parquet('" ++ SqlText.escapeSingleQuotes fileName
       ++ js "');" ++ [10] ++ js "    ".

(** The rows of a [DESCRIBE] or [PRAGMA table_info] answer, read by
    property name as the loaders do. *)
Definition InfoRow : Type := list (jsstring * JsValue).

(** [typeof name === 'string' && name.length > 0] *)
Definition is_named (v : JsValue) : option jsstring :=
  match v with
  | VString text => if negb (length text =? 0)%nat then Some text else None
  | _ => None
  end.

(** [rows.map(row => row[key]).filter(...)]: the detected columns. *)
Definition detectedColumns (key : jsstring) (rows : list InfoRow) : list jsstring :=
  omap (fun row => is_named (property row key)) rows.

Record SchemaColumn : Type := {
  column_name : jsstring;
  column_type : jsstring
}.

(** The schema entry of a row of [DESCRIBE], in the CSV and Parquet
    loaders. *)
Definition describedColumn {platform : Platform} (row : InfoRow) : SchemaColumn :=
  {| column_name :=
       match property row (js "column_name") with
       | VString text => text
       | _ => js "column"
       end;
     column_type :=
       match property row (js "column_type") with
       | VString text => text
       | VNumber x => numberToString x
       | _ =>
           match property row (js "type") with
           | VString text => text
           | _ => js "unknown"
           end
       end |}.

(** The schema entry of a row of [PRAGMA table_info], in the Arrow
    loader. *)
Definition infoColumn (row : InfoRow) : SchemaColumn :=
  {| column_name :=
       match property row (js "name") with
       | VString text => text
       | _ => js "column"
       end;
     column_type :=
       match property row (js "type") with
       | VString text => text
       | _ => js "unknown"
       end |}.

(** The text of a SQL string literal, read from just after its opening
    quote: two quotes stand for one quote of the text, and a quote on its
    own closes the literal.  The result is the text and what follows the
    closing quote; there is none when the literal is not closed. *)
Fixpoint readStringLiteral (text : jsstring) : option (jsstring * jsstring) :=
  match text with
  | [] => None
  | c :: rest =>
      if c =? 39
      then
        match rest with
        | c' :: rest' =>
            if c' =? 39
            then
              match readStringLiteral rest' with
              | Some (body, after) => Some (39 :: body, after)
              | None => None
              end
            else Some ([], rest)
        | [] => Some ([], [])
        end
      else
        match readStringLiteral rest with
        | Some (body, after) => Some (c :: body, after)
        | None => None
        end
  end.

End LoaderSql.

(* ===================================================================== *)
(** ** Starting the engine *)
(* ===================================================================== *)

Module Boot.
Import Values Grid Session Actions.

(** The bundle that [duckdb.selectBundle] picks: the worker source when
    it is a string that is not empty, and the module URL when there is
    one. *)
Record Bundle : Type := {
  mainWorker : option jsstring;
  mainModule : option jsstring
}.

(** What one attempt to start the engine meets outside the script: the
    answer of [selectBundle], and whether the worker can be created, the
    engine instantiated and opened, and a connection made; each failure
    carries the message of its exception. *)
Record Attempt : Type := {
  selectBundle : Completion Bundle;
  createDuckDBWorker : Completion unit;
  instantiate : Completion unit;
  open : Completion unit;
  connect : Completion unit
}.

(** The session with the two variables added that only the start-up
    touches: whether [duckdbInitializationPromise] is set, and how many
    [duckdb-ready] messages went to the host. *)
Record Startup : Type := {
  session : State;
  duckdbInitializationPromise : bool;
  readyPosted : nat
}.

Definition with_session (v : State) (b : Startup) : Startup :=
  {| session := v; duckdbInitializationPromise := duckdbInitializationPromise b;
     readyPosted := readyPosted b |}.

Definition with_db (v : bool) (s : State) : State :=
  {| db := v; connection := connection s; grid := grid s;
     lastArrowResult := lastArrowResult s; queryHistory := queryHistory s;
     nextHistoryId := nextHistoryId s; page := page s; world := world s |}.

Definition with_connection (v : bool) (s : State) : State :=
  {| db := db s; connection := v; grid := grid s;
     lastArrowResult := lastArrowResult s; queryHistory := queryHistory s;
     nextHistoryId := nextHistoryId s; page := page s; world := world s |}.

(** [vscode.postMessage({ command: 'duckdb-ready' })] *)
Definition postReady (b : Startup) : Startup :=
  {| session := session b; duckdbInitializationPromise := duckdbInitializationPromise b;
     readyPosted := S (readyPosted b) |}.

Definition ready_text : jsstring :=
  js "DuckDB ready. Waiting for file data" ++ [8230].

(** A step of the [try] block that can throw: the rest runs on the
    state only when it did not. *)
Definition attempt_step {A : Type} (outcome : Completion A)
    (rest : A -> Completion unit * Startup) (b : Startup) : Completion unit * Startup :=
  match outcome with
  | Normal a => rest a
  | Throw message => (Throw message, b)
  end.

(** How a part of the start-up can end, from the state [b]: the promise
    variable is left alone; without an exception the host has been told
    once and the script holds an engine and a connection; with one the
    host has been told nothing, and the connection is the one of [b] or
    there is a new one on an engine. *)
Definition stage_ends (b : Startup) (r : Completion unit * Startup) : Prop :=
  duckdbInitializationPromise r.2 = duckdbInitializationPromise b /\
  ((r.1 = Normal tt /\
    readyPosted r.2 = S (readyPosted b) /\
    connection (session r.2) = true /\
    db (session r.2) = true) \/
   ((exists message, r.1 = Throw message) /\
    readyPosted r.2 = readyPosted b /\
    ((connection (session r.2) = connection (session b) /\
      (db (session r.2) = db (session b) \/ db (session r.2) = true)) \/
     (connection (session r.2) = true /\ db (session r.2) = true)))).

Section WithPlatform.
Context {platform : Platform}.

(** [updateStatus(message)] during the start-up. *)
Definition startupStatus (message : jsstring) (b : Startup) : Startup :=
  with_session (updateStatus message (session b)) b.

(** [await connection.query(sql)] during the start-up. *)
Definition startupQuery (sql' : jsstring) (b : Startup) : Completion unit * Startup :=
  let '(outcome, s) := connectionQuery sql' (session b) in
  (match outcome with Normal _ => Normal tt | Throw message => Throw message end,
   with_session s b).

(** The [try] block of [bootstrapDuckDB], from its end to its start:
    what follows the connection, *)
Definition installExtensions (b : Startup) : Completion unit * Startup :=
  let b := startupStatus (js "Installing extensions...") b in
  match startupQuery (js "INSTALL parquet; LOAD parquet;") b with
  | (Throw message, b) => (Throw message, b)
  | (Normal _, b) =>
      match startupQuery (js "INSTALL sqlite; LOAD sqlite;") b with
      | (Throw message, b) => (Throw message, b)
      | (Normal _, b) => (Normal tt, postReady (startupStatus ready_text b))
      end
  end.

(** what follows the opening of the engine, *)
Definition connectEngine (a : Attempt) (b : Startup) : Completion unit * Startup :=
  let b := startupStatus (js "Connecting to DuckDB...") b in
  attempt_step (connect a)
    (fun _ => installExtensions (with_session (with_connection true (session b)) b)) b.

(** what follows the instantiation, *)
Definition openEngine (a : Attempt) (b : Startup) : Completion unit * Startup :=
  let b := startupStatus (js "Opening DuckDB...") b in
  attempt_step (open a) (fun _ => connectEngine a b) b.

(** what follows the assignment of [db], *)
Definition instantiateEngine (a : Attempt) (b : Startup) : Completion unit * Startup :=
  let b := startupStatus (js "Instantiating DuckDB...") b in
  attempt_step (instantiate a) (fun _ => openEngine a b) b.

(** what follows the checks of the bundle, *)
Definition createEngine (a : Attempt) (b : Startup) : Completion unit * Startup :=
  let b := startupStatus (js "Creating DuckDB worker from source...") b in
  attempt_step (createDuckDBWorker a)
    (fun _ => instantiateEngine a (with_session (with_db true (session b)) b)) b.

(** and the whole block. *)
Definition bootstrapDuckDB_try (a : Attempt) (b : Startup) : Completion unit * Startup :=
  let b := startupStatus (js "Selecting DuckDB bundle...") b in
  attempt_step (selectBundle a)
    (fun selectedBundle =>
       match mainWorker selectedBundle with
       | None => (Throw (js "Selected bundle has no worker source."), b)
       | Some _ =>
           match mainModule selectedBundle with
           | None => (Throw (js "Selected bundle has no WASM module URL."), b)
           | Some _ => createEngine a b
           end
       end) b.

(** [bootstrapDuckDB]: the [catch] block reports the exception. *)
Definition bootstrapDuckDB (a : Attempt) (b : Startup) : Completion unit * Startup :=
  match bootstrapDuckDB_try a b with
  | (Normal _, b) => (Normal tt, b)
  | (Throw message, b) => (Normal tt, with_session (reportError message (session b)) b)
  end.

(** [ensureDuckDBInitialized]; the [catch] that is chained on the promise
    clears the variable and throws again. *)
Definition ensureDuckDBInitialized (a : Attempt) (b : Startup) : Completion unit * Startup :=
  if connection (session b)
  then (Normal tt, postReady (startupStatus ready_text b))
  else if negb (duckdbInitializationPromise b)
  then
    let b :=
      {| session := session b; duckdbInitializationPromise := true;
         readyPosted := readyPosted b |} in
    match bootstrapDuckDB a b with
    | (Normal _, b) => (Normal tt, b)
    | (Throw message, b) =>
        (Throw message,
         {| session := session b; duckdbInitializationPromise := false;
            readyPosted := readyPosted b |})
    end
  else (Normal tt, b).

(** The listener of the host's [init] message:
    [ensureDuckDBInitialized(bundles).catch(reportError)]. *)
Definition init (a : Attempt) (b : Startup) : Startup :=
  match ensureDuckDBInitialized a b with
  | (Normal _, b) => b
  | (Throw message, b) => with_session (reportError message (session b)) b
  end.

Definition initAll (attempts : list Attempt) (b : Startup) : Startup :=
  foldl (fun b a => init a b) b attempts.

End WithPlatform.

End Boot.

(* ===================================================================== *)
(** ** More inputs to run the definitions on *)
(* ===================================================================== *)

Module Sample.
Import Values Grid Session Actions Chart Boot.

(** The loaded session of [Demo] with its query typed into the box. *)
Definition typedState : State :=
  with_sqlInput (js "SELECT a, b FROM t;") Demo.loadedState.

(** The loaded grid with two spaces in the search box. *)
Definition blankSearchGrid : Grid :=
  with_globalFilter (js "  ") (grid Demo.loadedState).

(** A visit to the page: the query is typed and run, the first column
    sorted, the result exported, and the host reports on the export. *)
Definition visit : list UserAction :=
  [TypeSql (js "SELECT a, b FROM t;"); RunClick; GridAction (HeaderClick 0);
   ExportClick csv; HostExportStatus (js "Export canceled."); RunAgainClick 1].

(** The fields of [Demo.table_ab] with their types. *)
Definition fields_ab : list Field :=
  [{| name := js "a"; typeId := Some Int32 |};
   {| name := js "b"; typeId := Some OtherType |}].

(** The chart on a page that has just loaded. *)
Definition initialChart : ChartState :=
  {| chartColumnSelect := Some [[]]; column := [] |}.

(** The script before the engine has started. *)
Definition freshStartup : Startup :=
  {| session := with_connection false (with_db false Demo.initialState);
     duckdbInitializationPromise := false;
     readyPosted := 0%nat |}.

(** An attempt where every step succeeds, and one where no bundle can
    be selected. *)
Definition goodAttempt : Attempt :=
  {| selectBundle :=
       Normal {| mainWorker := Some (js "worker"); mainModule := Some (js "duckdb.wasm") |};
     createDuckDBWorker := Normal tt; instantiate := Normal tt;
     open := Normal tt; connect := Normal tt |}.

Definition failingAttempt : Attempt :=
  {| selectBundle := Throw (js "No bundle");
     createDuckDBWorker := Normal tt; instantiate := Normal tt;
     open := Normal tt; connect := Normal tt |}.

(** The platform of [Demo] with an engine that cannot install the
    Parquet extension. *)
Definition noExtensions : Platform :=
  {| toLowerCase := @toLowerCase Demo.platform;
     localeCompare := @localeCompare Demo.platform;
     numberToString := @numberToString Demo.platform;
     isoDateText := @isoDateText Demo.platform;
     tableToIPC := @tableToIPC Demo.platform;
     engine_query := fun _ sql' =>
       if bool_decide (sql' = js "INSTALL parquet; LOAD parquet;")
       then Throw (js "IO Error") else Normal None;
     engine_copyFileToBuffer := @engine_copyFileToBuffer Demo.platform;
     engine_dropFile := @engine_dropFile Demo.platform;
     performance_now := @performance_now Demo.platform;
     Date_now := @Date_now Demo.platform |}.

End Sample.

(* ===================================================================== *)
(** * Properties *)
(* ===================================================================== *)

(** ** Strings and patterns *)

Section StringFacts.

Lemma trim_empty : trim [] = [].
Proof. reflexivity. Qed.

Lemma startsWith_nil (s : jsstring) : startsWith [] s = true.
Proof. destruct s; reflexivity. Qed.

Lemma includes_nil (s : jsstring) : includes s [] = true.
Proof. destruct s; reflexivity. Qed.

Lemma truthy_false (s : jsstring) : truthy s = false <-> s = [].
Proof. destruct s; simpl; split; congruence. Qed.

Lemma truthy_true (s : jsstring) : truthy s = true <-> s <> [].
Proof. destruct s; simpl; split; congruence. Qed.

End StringFacts.

Section RegexFacts.

Lemma Matches_Void_inv (s : jsstring) : ~ Matches Void s.
Proof. intros H; inversion H. Qed.

Lemma Matches_Eps_inv (s : jsstring) : Matches Eps s -> s = [].
Proof. intros H; inversion H; reflexivity. Qed.

Lemma Matches_Class_inv p (s : jsstring) :
  Matches (Class p) s -> exists c, s = [c] /\ p c = true.
Proof. intros H; inversion H; subst; eauto. Qed.

Lemma Matches_Seq_inv r1 r2 (s : jsstring) :
  Matches (Seq r1 r2) s -> exists s1 s2, s = s1 ++ s2 /\ Matches r1 s1 /\ Matches r2 s2.
Proof. intros H; inversion H; subst; eauto. Qed.

Lemma Matches_Alt_inv r1 r2 (s : jsstring) :
  Matches (Alt r1 r2) s -> Matches r1 s \/ Matches r2 s.
Proof. intros H; inversion H; subst; auto. Qed.

(** A non-empty match of a starred pattern starts with a non-empty match
    of its body. *)
Lemma Matches_Star_cons r c (s : jsstring) :
  Matches (Star r) (c :: s) ->
  exists s1 s2, s = s1 ++ s2 /\ Matches r (c :: s1) /\ Matches (Star r) s2.
Proof.
  intros H. remember (Star r) as r' eqn:Er. remember (c :: s) as w eqn:Ew.
  induction H as [| | | | | |r0 s1 s2 H1 _ H2 IH2]; try discriminate.
  injection Er as ->.
  destruct s1 as [|c1 s1]; simpl in Ew.
  - apply IH2; auto.
  - injection Ew as -> <-. eauto.
Qed.

Lemma nullable_Matches r : nullable r = true <-> Matches r [].
Proof.
  induction r as [| |p|r1 IH1 r2 IH2|r1 IH1 r2 IH2|r IH]; simpl; split; intros H.
  - discriminate.
  - inversion H.
  - constructor.
  - reflexivity.
  - discriminate.
  - inversion H.
  - apply andb_prop in H as [H1 H2].
    change (@nil N) with (@nil N ++ @nil N). constructor; [apply IH1 | apply IH2]; assumption.
  - apply Matches_Seq_inv in H as (s1 & s2 & E & H1 & H2).
    symmetry in E. apply app_eq_nil in E as [-> ->].
    apply IH1 in H1. apply IH2 in H2. rewrite H1, H2. reflexivity.
  - apply orb_prop in H as [H|H]; [apply MAltL, IH1 | apply MAltR, IH2]; assumption.
  - apply Matches_Alt_inv in H as [H|H]; [apply IH1 in H | apply IH2 in H]; rewrite H;
      auto using orb_true_r.
  - constructor.
  - reflexivity.
Qed.

Lemma deriv_Matches c r (s : jsstring) : Matches (deriv c r) s <-> Matches r (c :: s).
Proof.
  revert s. induction r as [| |p|r1 IH1 r2 IH2|r1 IH1 r2 IH2|r IH]; intros s; simpl.
  - split; intros H; inversion H.
  - split; intros H; inversion H.
  - destruct (p c) eqn:Ep; split; intros H.
    + apply Matches_Eps_inv in H as ->. constructor; assumption.
    + apply Matches_Class_inv in H as (c' & E & _). injection E as _ ->.
      constructor.
    + inversion H.
    + apply Matches_Class_inv in H as (c' & E & Hp). injection E as <- _. congruence.
  - assert (Hleft : forall s, Matches (Seq (deriv c r1) r2) s ->
                              Matches (Seq r1 r2) (c :: s)).
    { intros s0 H. apply Matches_Seq_inv in H as (s1 & s2 & -> & H1 & H2).
      change (c :: s1 ++ s2) with ((c :: s1) ++ s2). constructor; [apply IH1|]; assumption. }
    assert (Hright : Matches (Seq r1 r2) (c :: s) ->
                     Matches (Seq (deriv c r1) r2) s \/
                     (nullable r1 = true /\ Matches (deriv c r2) s)).
    { intros H. apply Matches_Seq_inv in H as (s1 & s2 & E & H1 & H2).
      destruct s1 as [|c1 s1]; simpl in E.
      - right. subst s2. split; [apply nullable_Matches; assumption | apply IH2; assumption].
      - left. injection E as <- ->. constructor; [apply IH1|]; assumption. }
    destruct (nullable r1) eqn:En; split; intros H.
    + apply Matches_Alt_inv in H as [H|H]; [apply Hleft; assumption|].
      change (c :: s) with ([] ++ c :: s).
      constructor; [apply nullable_Matches; assumption | apply IH2; assumption].
    + destruct (Hright H) as [H'|[_ H']]; [apply MAltL | apply MAltR]; assumption.
    + apply Hleft; assumption.
    + destruct (Hright H) as [H'|[H' _]]; [assumption | discriminate].
  - split; intros H.
    + apply Matches_Alt_inv in H as [H|H]; [apply MAltL, IH1 | apply MAltR, IH2]; assumption.
    + apply Matches_Alt_inv in H as [H|H]; [apply MAltL, IH1 | apply MAltR, IH2]; assumption.
  - split; intros H.
    + apply Matches_Seq_inv in H as (s1 & s2 & -> & H1 & H2).
      change (c :: s1 ++ s2) with ((c :: s1) ++ s2). constructor; [apply IH|]; assumption.
    + apply Matches_Star_cons in H as (s1 & s2 & -> & H1 & H2).
      constructor; [apply IH|]; assumption.
Qed.

(** The matcher decides the denotation. *)
Lemma matchesb_Matches r (s : jsstring) : matchesb r s = true <-> Matches r s.
Proof.
  revert r. induction s as [|c s IH]; intros r; simpl.
  - apply nullable_Matches.
  - rewrite IH. apply deriv_Matches.
Qed.

Lemma test_suffix_spec r (s : jsstring) :
  test_suffix r s = true <-> exists stem tail, s = stem ++ tail /\ Matches r tail.
Proof.
  induction s as [|c s IH]; simpl.
  - rewrite orb_false_r. rewrite nullable_Matches. split.
    + intros H. exists [], []. auto.
    + intros (stem & tail & E & H). symmetry in E. apply app_eq_nil in E as [_ ->]. assumption.
  - rewrite orb_true_iff, IH. change (matchesb (deriv c r) s) with (matchesb r (c :: s)).
    rewrite matchesb_Matches. split.
    + intros [H|(stem & tail & -> & H)].
      * exists [], (c :: s). auto.
      * exists (c :: stem), tail. auto.
    + intros (stem & tail & E & H). destruct stem as [|c' stem]; simpl in E.
      * left. subst tail. assumption.
      * right. injection E as _ ->. eauto.
Qed.

Lemma Matches_LitI w (s : jsstring) :
  Matches (LitI w) s <-> List.map ascii_lower s = List.map ascii_lower w.
Proof.
  revert s. induction w as [|c w IH]; intros s; simpl.
  - split.
    + intros H. apply Matches_Eps_inv in H as ->. reflexivity.
    + intros H. apply map_eq_nil in H as ->. constructor.
  - split.
    + intros H. apply Matches_Seq_inv in H as (s1 & s2 & -> & H1 & H2).
      apply Matches_Class_inv in H1 as (x & -> & Hx). apply N.eqb_eq in Hx.
      simpl. f_equal; [assumption | apply IH; assumption].
    + intros H. destruct s as [|x s]; [discriminate|]. simpl in H. injection H as Hx Hs.
      change (x :: s) with ([x] ++ s). constructor.
      * constructor. apply N.eqb_eq. assumption.
      * apply IH. assumption.
Qed.

Lemma Matches_Star_Class p (s : jsstring) :
  Matches (Star (Class p)) s <-> forallb p s = true.
Proof.
  induction s as [|c s IH]; simpl.
  - split; [reflexivity | constructor].
  - rewrite andb_true_iff, <- IH. split.
    + intros H. apply Matches_Star_cons in H as (s1 & s2 & -> & H1 & H2).
      apply Matches_Class_inv in H1 as (c' & E & Hp). injection E as <- ->.
      auto.
    + intros [Hp H]. change (c :: s) with ([c] ++ s). constructor; [constructor|]; assumption.
Qed.

(** [/^[p]/.test(s)] looks at the first code unit only. *)
Lemma test_prefix_Class p (s : jsstring) :
  test_prefix (Class p) s = match s with [] => false | c :: _ => p c end.
Proof.
  unfold test_prefix. destruct s as [|c s]; [reflexivity|].
  destruct (p c) eqn:Ep.
  - apply matchesb_Matches. change (c :: s) with ([c] ++ s).
    constructor; [constructor; assumption|].
    apply Matches_Star_Class. induction s; simpl; auto.
  - apply not_true_is_false. rewrite matchesb_Matches. intros H.
    apply Matches_Seq_inv in H as (s1 & s2 & E & H1 & _).
    apply Matches_Class_inv in H1 as (c' & -> & Hp). injection E as <- _. congruence.
Qed.

End RegexFacts.

(** ** Loader selection *)

Section LoaderFacts.
Import Loaders.

Lemma Matches_dot_ext w (s : jsstring) :
  Matches (Seq (ChrI 46) (LitI w)) s <-> List.map ascii_lower s = 46 :: List.map ascii_lower w.
Proof. apply (Matches_LitI (46 :: w)). Qed.

Lemma Matches_dot_ext2 w1 w2 (s : jsstring) :
  Matches (Seq (ChrI 46) (Alt (LitI w1) (LitI w2))) s <->
  List.map ascii_lower s = 46 :: List.map ascii_lower w1 \/
  List.map ascii_lower s = 46 :: List.map ascii_lower w2.
Proof.
  rewrite <- !Matches_dot_ext. split.
  - intros H. apply Matches_Seq_inv in H as (s1 & s2 & -> & H1 & H2).
    apply Matches_Alt_inv in H2 as [H2|H2]; [left | right]; constructor; assumption.
  - intros [H|H]; apply Matches_Seq_inv in H as (s1 & s2 & -> & H1 & H2);
      (constructor; [assumption|]); [apply MAltL | apply MAltR]; assumption.
Qed.

Lemma canLoad_csv (fileName : jsstring) :
  canLoad csvLoader fileName = true <-> ends_with_ci (js ".csv") fileName.
Proof.
  simpl. rewrite test_suffix_spec. unfold ends_with_ci.
  split; intros (stem & tail & E & H); exists stem, tail; (split; [assumption|]);
    apply (Matches_dot_ext (js "csv")); assumption.
Qed.

Lemma canLoad_arrow (fileName : jsstring) :
  canLoad arrowLoader fileName = true <->
  ends_with_ci (js ".arrow") fileName \/ ends_with_ci (js ".ipc") fileName.
Proof.
  simpl. rewrite test_suffix_spec. unfold ends_with_ci. split.
  - intros (stem & tail & E & H). apply (Matches_dot_ext2 (js "arrow") (js "ipc")) in H.
    destruct H as [H|H]; [left | right]; exists stem, tail; auto.
  - intros [(stem & tail & E & H)|(stem & tail & E & H)]; exists stem, tail;
      (split; [assumption|]); apply (Matches_dot_ext2 (js "arrow") (js "ipc")); auto.
Qed.

Lemma canLoad_parquet (fileName : jsstring) :
  canLoad parquetLoader fileName = true <->
  ends_with_ci (js ".parquet") fileName \/ ends_with_ci (js ".parq") fileName.
Proof.
  simpl. rewrite test_suffix_spec. unfold ends_with_ci. split.
  - intros (stem & tail & E & H). apply (Matches_dot_ext2 (js "parquet") (js "parq")) in H.
    destruct H as [H|H]; [left | right]; exists stem, tail; auto.
  - intros [(stem & tail & E & H)|(stem & tail & E & H)]; exists stem, tail;
      (split; [assumption|]); apply (Matches_dot_ext2 (js "parquet") (js "parq")); auto.
Qed.

(** C7. Loader selection returns the first loader of the registry order
    Arrow, Parquet, CSV whose predicate accepts the file name, and the CSV
    loader when none does; a loader's predicate holds exactly when the
    name ends, whatever the case of its ASCII letters, in one of the
    loader's extensions ([.arrow]/[.ipc], [.parquet]/[.parq], [.csv]).
    Selection is a total function of the name alone. *)
Theorem selectLoader_first_match (fileName : jsstring) :
  DATA_LOADERS = [arrowLoader; parquetLoader; csvLoader] /\
  selectLoader fileName =
    (if canLoad arrowLoader fileName then arrowLoader
     else if canLoad parquetLoader fileName then parquetLoader
     else csvLoader) /\
  (canLoad arrowLoader fileName = true <->
     ends_with_ci (js ".arrow") fileName \/ ends_with_ci (js ".ipc") fileName) /\
  (canLoad parquetLoader fileName = true <->
     ends_with_ci (js ".parquet") fileName \/ ends_with_ci (js ".parq") fileName) /\
  (canLoad csvLoader fileName = true <-> ends_with_ci (js ".csv") fileName).
Proof.
  split; [reflexivity|]. split.
  - unfold selectLoader, DATA_LOADERS. cbn [List.find].
    destruct (canLoad arrowLoader fileName); [reflexivity|].
    destruct (canLoad parquetLoader fileName); [reflexivity|].
    destruct (canLoad csvLoader fileName); reflexivity.
  - auto using canLoad_arrow, canLoad_parquet, canLoad_csv.
Qed.

End LoaderFacts.

(** ** Identifier sanitizer *)

Section SanitizerFacts.
Import SqlHelpers.

Lemma test_full_simplePattern (s : jsstring) :
  test_full simplePattern s = true <->
  exists c t, s = c :: t /\ is_ident_start c = true /\ forallb is_word t = true.
Proof.
  unfold test_full, simplePattern. rewrite matchesb_Matches. split.
  - intros H. apply Matches_Seq_inv in H as (s1 & s2 & -> & H1 & H2).
    apply Matches_Class_inv in H1 as (c & -> & Hc). apply Matches_Star_Class in H2.
    exists c, s2. auto.
  - intros (c & t & -> & Hc & Ht). change (c :: t) with ([c] ++ t).
    constructor; [constructor | apply Matches_Star_Class]; assumption.
Qed.

Lemma replace_class_word (s : jsstring) :
  forallb is_word (replace_class (fun c => negb (is_word c)) 95 s) = true.
Proof.
  induction s as [|c s IH]; simpl; [reflexivity|].
  rewrite IH, andb_true_r. destruct (is_word c) eqn:E; simpl; [assumption | reflexivity].
Qed.

Lemma word_not_digit (c : N) :
  is_word c = true -> is_digit c = false -> is_ident_start c = true.
Proof.
  unfold is_word, is_ident_start. intros H Hd. rewrite Hd, orb_false_r in H. assumption.
Qed.

(** A name made of word characters only, and not empty, is a safe
    identifier once a leading digit is prefixed. *)
Lemma prefix_digit_safe (s : jsstring) :
  s <> [] -> forallb is_word s = true ->
  test_full simplePattern
    (if test_prefix (Class is_digit) s then js "v_" ++ s else s) = true.
Proof.
  intros Hne Hw. rewrite test_prefix_Class. destruct s as [|c t]; [congruence|].
  simpl in Hw. apply andb_prop in Hw as [Hc Ht].
  apply test_full_simplePattern. destruct (is_digit c) eqn:Hd.
  - exists 118, (95 :: c :: t). repeat split. simpl. rewrite Hc, Ht. reflexivity.
  - exists c, t. auto using word_not_digit.
Qed.

Lemma split_class_trailing p (dir : jsstring) sep (base : jsstring) :
  p sep = true -> forallb (fun c => negb (p c)) base = true ->
  exists first pieces, split_class p (dir ++ sep :: base) = first :: pieces ++ [base].
Proof.
  intros Hsep Hbase.
  assert (Hb : split_class p base = [base]).
  { clear Hsep. induction base as [|c base IH]; simpl; [reflexivity|].
    simpl in Hbase. apply andb_prop in Hbase as [Hc Hbase].
    apply negb_true_iff in Hc. rewrite Hc, (IH Hbase). reflexivity. }
  induction dir as [|c dir (first & pieces & IH)]; simpl.
  - rewrite Hsep, Hb. exists [], []. reflexivity.
  - rewrite IH. destruct (p c).
    + exists [], (first :: pieces). reflexivity.
    + exists (c :: first), pieces. reflexivity.
Qed.

Lemma last_cons_snoc {A} (x : A) (l : list A) (y d : A) : List.last (x :: l ++ [y]) d = y.
Proof.
  revert x. induction l as [|z l IH]; intros x; [reflexivity|].
  change (List.last (x :: (z :: l) ++ [y]) d) with (List.last (z :: l ++ [y]) d). apply IH.
Qed.

Lemma Matches_FINAL_EXTENSION (s : jsstring) :
  Matches FINAL_EXTENSION s <->
  exists ext, s = 46 :: ext /\ ext <> [] /\ forallb (fun c => negb (c =? 46)) ext = true.
Proof.
  unfold FINAL_EXTENSION, Plus, Chr. split.
  - intros H. apply Matches_Seq_inv in H as (s1 & s2 & -> & H1 & H2).
    apply Matches_Class_inv in H1 as (c & -> & Hc). apply N.eqb_eq in Hc. subst c.
    apply Matches_Seq_inv in H2 as (s3 & s4 & -> & H3 & H4).
    apply Matches_Class_inv in H3 as (d & -> & Hd). apply Matches_Star_Class in H4.
    exists ([d] ++ s4). split; [reflexivity|]. split; [discriminate|].
    simpl. rewrite Hd, H4. reflexivity.
  - intros (ext & -> & Hne & Hext). destruct ext as [|d ext]; [congruence|].
    simpl in Hext. apply andb_prop in Hext as [Hd Hext].
    change (46 :: d :: ext) with ([46] ++ [d] ++ ext).
    constructor; [constructor; reflexivity|].
    constructor; [constructor; assumption | apply Matches_Star_Class; assumption].
Qed.

Lemma dot_inside (x y : jsstring) :
  forallb (fun c => negb (c =? 46)) (x ++ 46 :: y) = false.
Proof.
  induction x as [|c x IH]; simpl; [reflexivity|]. rewrite IH. apply andb_false_r.
Qed.

(** Without a match that reaches the end, [replace] returns its input. *)
Lemma strip_suffix_none r (s : jsstring) :
  (forall stem tail, s = stem ++ tail -> ~ Matches r tail) -> strip_suffix r s = s.
Proof.
  induction s as [|c s IH]; intros H.
  - simpl. destruct (nullable r) eqn:E; reflexivity.
  - cbn [strip_suffix]. destruct (matchesb r (c :: s)) eqn:E.
    + apply matchesb_Matches in E. exfalso. apply (H [] (c :: s)); [reflexivity | exact E].
    + f_equal. apply IH. intros stem tail ->. apply (H (c :: stem) tail). reflexivity.
Qed.

(** The leftmost match that reaches the end is the one removed. *)
Lemma strip_suffix_leftmost r (stem tail : jsstring) :
  Matches r tail ->
  (forall s1 c s2, stem = s1 ++ c :: s2 -> ~ Matches r (c :: s2 ++ tail)) ->
  strip_suffix r (stem ++ tail) = stem.
Proof.
  intros Ht. induction stem as [|c stem IH]; intros H.
  - simpl. apply matchesb_Matches in Ht. destruct tail; simpl in *; rewrite Ht; reflexivity.
  - change ((c :: stem) ++ tail) with (c :: stem ++ tail). cbn [strip_suffix].
    destruct (matchesb r (c :: stem ++ tail)) eqn:E.
    + apply matchesb_Matches in E. exfalso. apply (H [] c stem); [reflexivity | exact E].
    + f_equal. apply IH. intros s1 d s2 ->. apply (H (c :: s1) d s2). reflexivity.
Qed.

Lemma trailing_component_last (name base : jsstring) :
  trailing_component name base ->
  List.last (split_class is_path_separator name) name = base.
Proof.
  assert (Hwhole : forall b : jsstring,
             forallb (fun c => negb (is_path_separator c)) b = true ->
             split_class is_path_separator b = [b]).
  { induction b as [|c b IH]; simpl; [reflexivity|]. intros H.
    apply andb_prop in H as [Hc Hb]. apply negb_true_iff in Hc.
    rewrite Hc, (IH Hb). reflexivity. }
  intros [b Hb|dir sep b Hsep Hb].
  - rewrite (Hwhole b Hb). reflexivity.
  - destruct (split_class_trailing is_path_separator dir sep b Hsep Hb)
      as (first & pieces & ->).
    apply last_cons_snoc.
Qed.

Lemma without_extension_strip (base stem : jsstring) :
  without_extension base stem -> strip_suffix FINAL_EXTENSION base = stem.
Proof.
  intros [b Hb|st|st ext Hne Hext].
  - apply strip_suffix_none. intros s1 tail -> H.
    apply Matches_FINAL_EXTENSION in H as (ext & -> & _).
    rewrite dot_inside in Hb. discriminate.
  - apply strip_suffix_none. intros s1 tail E H.
    apply Matches_FINAL_EXTENSION in H as (ext & -> & Hne & Hext).
    destruct (exists_last Hne) as (ext' & d & ->).
    assert (E' : s1 ++ 46 :: ext' ++ [d] = (s1 ++ 46 :: ext') ++ [d])
      by (rewrite <- app_assoc; reflexivity).
    rewrite E' in E. apply app_inj_tail in E as [_ <-].
    rewrite dot_inside in Hext. discriminate.
  - apply strip_suffix_leftmost.
    + apply Matches_FINAL_EXTENSION. eauto.
    + intros s1 c s2 -> H. apply Matches_FINAL_EXTENSION in H as (ext' & E & _ & Hext').
      injection E as -> <-. rewrite dot_inside in Hext'. discriminate.
Qed.

Lemma trailing_component_total (name : jsstring) : exists base, trailing_component name base.
Proof.
  induction name as [|c name (base & IH)] using rev_ind.
  - exists []. constructor. reflexivity.
  - destruct (is_path_separator c) eqn:Ec.
    + exists []. apply trailing_after; [exact Ec | reflexivity].
    + exists (base ++ [c]).
      assert (Hc : forall b : jsstring,
                 forallb (fun c => negb (is_path_separator c)) b = true ->
                 forallb (fun c => negb (is_path_separator c)) (b ++ [c]) = true).
      { intros b Hb. rewrite forallb_app, Hb. simpl. rewrite Ec. reflexivity. }
      destruct IH as [b Hb|dir sep b Hsep Hb].
      * constructor. auto.
      * rewrite <- app_assoc. change ((sep :: b) ++ [c]) with (sep :: (b ++ [c])).
        apply trailing_after; auto.
Qed.

Lemma without_extension_total (base : jsstring) : exists stem, without_extension base stem.
Proof.
  induction base as [|c base (stem & IH)] using rev_ind.
  - exists []. constructor. reflexivity.
  - destruct (c =? 46) eqn:Ec.
    + apply N.eqb_eq in Ec. subst c. eexists. apply extension_empty.
    + assert (Hc : forall b : jsstring,
                 forallb (fun c => negb (c =? 46)) b = true ->
                 forallb (fun c => negb (c =? 46)) (b ++ [c]) = true).
      { intros b Hb. rewrite forallb_app, Hb. simpl. rewrite Ec. reflexivity. }
      destruct IH as [b Hb|st|st ext Hne Hext].
      * eexists. apply extension_none. auto.
      * exists st. rewrite <- app_assoc. apply extension_final; [discriminate|].
        simpl. rewrite Ec. reflexivity.
      * exists st. rewrite <- app_assoc. change ((46 :: ext) ++ [c]) with (46 :: (ext ++ [c])).
        apply extension_final; [|auto]. destruct ext; discriminate.
Qed.

(** C8. The relation-name sanitizer is a function defined on every file
    name.  Every name has a trailing path component, and that component a
    form without its final extension; the result is this form with every
    character outside [[A-Za-z0-9_]] replaced by an underscore, then the
    default name if that is empty and the prefix [v_] if it starts with a
    digit.  So the result is never empty and always matches
    [^[A-Za-z_][A-Za-z0-9_]*$], and the SQL formatter returns it as it
    is. *)
Theorem generateViewName_safe (fileName : jsstring) :
  generateViewName fileName <> [] /\
  test_full simplePattern (generateViewName fileName) = true /\
  formatIdentifierForSql (generateViewName fileName) = generateViewName fileName /\
  (exists base stem,
      trailing_component fileName base /\ without_extension base stem) /\
  (forall base stem,
      trailing_component fileName base -> without_extension base stem ->
      generateViewName fileName = defaulted_and_prefixed (List.map underscored stem)).
Proof.
  assert (Hsafe : test_full simplePattern (generateViewName fileName) = true).
  { unfold generateViewName.
    set (w := replace_class _ 95 _).
    apply prefix_digit_safe.
    - destruct (truthy w) eqn:E; [apply truthy_true; assumption | discriminate].
    - destruct (truthy w); [apply replace_class_word | reflexivity]. }
  split; [|split; [assumption|split; [|split]]].
  - apply test_full_simplePattern in Hsafe as (c & t & -> & _). discriminate.
  - unfold formatIdentifierForSql. rewrite Hsafe. reflexivity.
  - destruct (trailing_component_total fileName) as [base Hb].
    destruct (without_extension_total base) as [stem Hs]. eauto.
  - intros base stem Hb Hs. unfold generateViewName.
    rewrite (trailing_component_last _ _ Hb), (without_extension_strip _ _ Hs).
    assert (E : replace_class (fun c => negb (is_word c)) 95 stem = List.map underscored stem).
    { unfold replace_class, underscored. apply map_ext. intros c.
      destruct (is_word c); reflexivity. }
    rewrite E. destruct (List.map underscored stem) as [|c t]; [reflexivity|].
    cbn [truthy]. rewrite test_prefix_Class. reflexivity.
Qed.

End SanitizerFacts.

(** ** Cell rendering *)

Section CellFacts.
Import Values.

Lemma js_nonempty a (s : string) : js (String a s) <> [].
Proof. discriminate. Qed.

Lemma bigintToString_nonempty (z : Z) : bigintToString z <> [].
Proof.
  unfold bigintToString. destruct (Z.to_int z) as [d|d]; [|apply js_nonempty].
  destruct d; apply js_nonempty.
Qed.

Lemma integerText_nonempty (x : JsNumber) : Demo.integerText x <> [].
Proof.
  destruct x as [s|s| |s m e]; simpl;
    try destruct s; try apply js_nonempty; apply bigintToString_nonempty.
Qed.

Context {platform : Platform}.

Lemma formatCell_of_blank (v : JsValue) : blank_value v -> formatCell v = Normal [].
Proof.
  intros [->|[->|(x & -> & Hx)]]; [reflexivity | reflexivity |].
  simpl. rewrite Hx. reflexivity.
Qed.

(** C10, as amended. [formatCell] renders [null], [undefined] and every
    number that is not finite as the empty string, so that such cells have
    the same display text.  They are not the only ones: the empty string
    is rendered as the empty string too, and so is an object whose own
    text is empty.  With a runtime whose renderings of finite numbers and
    of valid dates are not empty, no other value is. *)
Theorem formatCell_empty_exactly
    (Hnumber : forall x, isFinite x = true -> numberToString x <> [])
    (Hdate : forall t, isFinite t = true -> isoDateText t <> []) :
  (forall v, blank_value v -> formatCell v = Normal []) /\
  (forall v1 v2, blank_value v1 -> blank_value v2 -> formatCell v1 = formatCell v2) /\
  (forall v,
     formatCell v = Normal [] <->
     blank_value v \/ v = VString [] \/
     exists ref o, v = VObject ref o /\ object_text o = []).
Proof.
  split; [exact formatCell_of_blank|]. split.
  { intros v1 v2 H1 H2. rewrite !formatCell_of_blank by assumption. reflexivity. }
  intros v. split.
  - destruct v as [| |b|x|z|s|ref t|ref o]; simpl; intros H.
    + left. right. left. reflexivity.
    + left. left. reflexivity.
    + destruct b; discriminate.
    + destruct (isFinite x) eqn:Hx.
      * injection H as H. apply Hnumber in Hx. contradiction.
      * left. right. right. eauto.
    + injection H as H. apply bigintToString_nonempty in H. contradiction.
    + injection H as ->. right. left. reflexivity.
    + unfold toISOString in H. destruct (isFinite t) eqn:Ht; [|discriminate].
      injection H as H. apply Hdate in Ht. contradiction.
    + right. right. exists ref, o. split; [reflexivity|].
      unfold object_text. destruct (obj_json o); injection H as H; assumption.
  - intros [H|[->|(ref & o & -> & H)]].
    + apply formatCell_of_blank. assumption.
    + reflexivity.
    + simpl. unfold object_text in H. destruct (obj_json o); rewrite H; reflexivity.
Qed.

End CellFacts.

(** The rule on a concrete runtime: minus infinity and [null] are both
    rendered as the empty string. *)
Lemma formatCell_empty_exactly_witness :
  @Values.formatCell Demo.platform (Values.VNumber (S754_infinity true))
  = @Values.formatCell Demo.platform Values.VNull.
Proof.
  refine (proj1 (proj2 (@formatCell_empty_exactly Demo.platform _ _)) _ _ _ _).
  - intros x _. apply integerText_nonempty.
  - intros t _. discriminate.
  - right. right. exists (S754_infinity true). split; reflexivity.
  - left. reflexivity.
Defined.

(** C10, as stated, fails on the empty string: it is rendered as the empty
    string and is none of [null], [undefined] or a number. *)
Lemma formatCell_empty_string_not_blank :
  @Values.formatCell Demo.platform (Values.VString []) = Values.Normal []
  /\ ~ Values.blank_value (Values.VString []).
Proof.
  split; [reflexivity|].
  intros [H|[H|(x & H & _)]]; discriminate.
Qed.

(** ** Result grid *)

Section GridFacts.
Import Values Grid.
Context {platform : Platform}.

Lemma extends_refl h : extends h h.
Proof. intros a elements H. exact H. Qed.

Lemma extends_trans h1 h2 h3 : extends h1 h2 -> extends h2 h3 -> extends h1 h3.
Proof. intros H12 H23 a elements H. apply H23, H12, H. Qed.

Lemma array_new_fresh elements (h : gmap nat (list TableRow)) :
  h !! (array_new elements h).1 = None.
Proof. simpl. apply not_elem_of_dom, is_fresh. Qed.

Lemma array_new_lookup elements (h : gmap nat (list TableRow)) :
  (array_new elements h).2 !! (array_new elements h).1 = Some elements.
Proof. simpl. apply lookup_insert_eq. Qed.

Lemma array_new_extends elements (h : gmap nat (list TableRow)) :
  extends h (array_new elements h).2.
Proof.
  intros a content Ha. simpl. rewrite lookup_insert_ne; [exact Ha|].
  intros E. pose proof (array_new_fresh elements h) as Hf. simpl in Hf.
  rewrite E, Ha in Hf. discriminate.
Qed.

(** Sorting the array that was just made leaves the older ones alone. *)
Lemma array_sort_new_extends compare elements (h : gmap nat (list TableRow)) :
  extends h (array_sort compare (array_new elements h).1 (array_new elements h).2).
Proof.
  intros a content Ha. unfold array_sort. rewrite lookup_insert_ne.
  - apply array_new_extends, Ha.
  - intros E. pose proof (array_new_fresh elements h) as Hf.
    rewrite E, Ha in Hf. discriminate.
Qed.

Lemma array_sort_new_lookup compare elements (h : gmap nat (list TableRow)) :
  array_sort compare (array_new elements h).1 (array_new elements h).2
    !! (array_new elements h).1
  = Some (sorted_by compare elements).
Proof.
  unfold array_sort. rewrite lookup_insert_eq. unfold array_read.
  rewrite array_new_lookup. reflexivity.
Qed.

Lemma array_read_lookup (h : gmap nat (list TableRow)) a elements :
  h !! a = Some elements -> array_read h a = elements.
Proof. unfold array_read. intros ->. reflexivity. Qed.

(** What [visibleRows] computes, and that it writes to new arrays only. *)
Lemma visibleRows_spec (g : Grid) (data : TableData) :
  extends (heap g) (visibleRows g data).2 /\
  (visibleRows g data).2 !! (visibleRows g data).1
  = Some (visibleContent g (array_read (heap g) (rows data))).
Proof.
  unfold visibleRows, visibleContent.
  set (passing := List.filter _ _).
  destruct (array_new passing (heap g)) as [filtered h1] eqn:E1.
  assert (H1 : extends (heap g) h1).
  { pose proof (array_new_extends passing (heap g)) as H. rewrite E1 in H. exact H. }
  assert (R1 : array_read h1 filtered = passing).
  { apply array_read_lookup.
    pose proof (array_new_lookup passing (heap g)) as H. rewrite E1 in H. exact H. }
  rewrite R1.
  assert (Hcopy : extends (heap g) (array_new passing h1).2 /\
                  (array_new passing h1).2 !! (array_new passing h1).1 = Some passing).
  { split; [|apply array_new_lookup].
    eapply extends_trans; [exact H1 | apply array_new_extends]. }
  destruct (direction (sortState g)) as [d|]; [|exact Hcopy].
  destruct (0 <=? columnIndex (sortState g))%Z; [|exact Hcopy].
  destruct (array_new passing h1) as [copy h2] eqn:E2. split.
  - eapply extends_trans; [exact H1|].
    pose proof (array_sort_new_extends
                  (sortComparator (Z.to_nat (columnIndex (sortState g)))
                     (match d with asc => js_of_Z 1 | desc => js_of_Z (-1) end))
                  passing h1) as H.
    rewrite E2 in H. exact H.
  - pose proof (array_sort_new_lookup
                  (sortComparator (Z.to_nat (columnIndex (sortState g)))
                     (match d with asc => js_of_Z 1 | desc => js_of_Z (-1) end))
                  passing h1) as H.
    rewrite E2 in H. exact H.
Qed.

(** [applyTableState] changes the heap, the table body and the row-count
    label, and nothing else. *)
Lemma applyTableState_keeps (g : Grid) :
  resultsContainer (applyTableState g) = resultsContainer g /\
  currentTableData (applyTableState g) = currentTableData g /\
  columnFilters (applyTableState g) = columnFilters g /\
  globalFilter (applyTableState g) = globalFilter g /\
  sortState (applyTableState g) = sortState g /\
  globalSearchInput (applyTableState g) = globalSearchInput g /\
  (tableBodyElement (applyTableState g) = None <-> tableBodyElement g = None) /\
  extends (heap g) (heap (applyTableState g)).
Proof.
  unfold applyTableState.
  destruct (currentTableData g) as [data|] eqn:Ed;
    [destruct (tableBodyElement g) as [body|] eqn:Eb|];
    try (repeat split; solve [assumption | reflexivity | apply extends_refl | congruence]).
  pose proof (visibleRows_spec g data) as [Hext _].
  destruct (visibleRows g data) as [visible h]. simpl.
  repeat split; solve [assumption | congruence].
Qed.

(** What the grid shows after [applyTableState], for a grid that holds a
    snapshot and has its table body. *)
Lemma applyTableState_shows (g : Grid) data snapshot :
  currentTableData g = Some data ->
  heap g !! rows data = Some snapshot ->
  tableBodyElement g <> None ->
  tableBodyElement (applyTableState g)
    = Some (renderBody (columns data) (visibleContent g snapshot)) /\
  rowCountLabel (applyTableState g)
    = updateRowCount (length (visibleContent g snapshot)) (length snapshot) (rowCountLabel g).
Proof.
  intros Ed Hs Hb. unfold applyTableState. rewrite Ed.
  destruct (tableBodyElement g) as [body|]; [|congruence].
  pose proof (visibleRows_spec g data) as [Hext Hv].
  destruct (visibleRows g data) as [visible h]. simpl in *.
  rewrite (array_read_lookup _ _ _ Hs) in Hv.
  rewrite (array_read_lookup _ _ _ Hv).
  rewrite (array_read_lookup _ _ _ (Hext _ _ Hs)).
  split; reflexivity.
Qed.

Lemma every_from_true {A} (f : nat -> A -> bool) idx (l : list A) :
  (forall i x, f i x = true) -> every_from f idx l = true.
Proof.
  intros Hf. revert idx. induction l as [|x l IH]; intros idx; simpl; [reflexivity|].
  rewrite Hf, IH. reflexivity.
Qed.

Lemma every_from_empty_filters (f : nat -> jsstring -> bool) idx (l : list jsstring) :
  (forall i, f i [] = true) -> Forall (fun x => x = []) l -> every_from f idx l = true.
Proof.
  intros Hf Hl. revert idx. induction Hl as [|x l -> _ IH]; intros idx; simpl; [reflexivity|].
  rewrite Hf, IH. reflexivity.
Qed.

Lemma filter_all {A} (f : A -> bool) (l : list A) :
  (forall x, f x = true) -> List.filter f l = l.
Proof.
  intros Hf. induction l as [|x l IH]; simpl; [reflexivity|]. rewrite Hf, IH. reflexivity.
Qed.

(** With neutral filters every row passes. *)
Lemma rowPasses_neutral (filters : list jsstring) (row : TableRow) :
  toLowerCase [] = [] ->
  Forall (fun x => x = []) filters ->
  rowPasses (toLowerCase (trim []))
            (List.map (fun value => toLowerCase (trim value)) filters) row = true.
Proof.
  intros Hlower Hf. unfold rowPasses. rewrite trim_empty, Hlower. simpl.
  apply every_from_empty_filters; [reflexivity|].
  induction Hf as [|x l -> _ IH]; simpl; constructor; [|exact IH].
  rewrite trim_empty. exact Hlower.
Qed.

Lemma visibleContent_neutral (g : Grid) (snapshot : list TableRow) :
  toLowerCase [] = [] ->
  globalFilter g = [] ->
  Forall (fun x => x = []) (columnFilters g) ->
  direction (sortState g) = None \/ (columnIndex (sortState g) < 0)%Z ->
  visibleContent g snapshot = snapshot.
Proof.
  intros Hlower Hg Hf Hsort. unfold visibleContent. rewrite Hg.
  rewrite filter_all by (intros row; apply rowPasses_neutral; assumption).
  destruct (direction (sortState g)) as [d|]; [|reflexivity].
  destruct Hsort as [Hn|Hn]; [discriminate|].
  apply Z.leb_gt in Hn. rewrite Hn. reflexivity.
Qed.

Lemma visibleContent_unsorted (g : Grid) (snapshot : list TableRow) :
  direction (sortState g) = None ->
  visibleContent g snapshot
  = List.filter
      (rowPasses (toLowerCase (trim (globalFilter g)))
                 (List.map (fun value => toLowerCase (trim value)) (columnFilters g)))
      snapshot.
Proof. intros H. unfold visibleContent. rewrite H. reflexivity. Qed.

(** The visible rows depend on the filters and the sort state only. *)
Lemma visibleContent_ext (g g' : Grid) (snapshot : list TableRow) :
  globalFilter g' = globalFilter g ->
  columnFilters g' = columnFilters g ->
  sortState g' = sortState g ->
  visibleContent g' snapshot = visibleContent g snapshot.
Proof. intros H1 H2 H3. unfold visibleContent. rewrite H1, H2, H3. reflexivity. Qed.

Lemma toggleSort_sortState (c : Z) (g : Grid) :
  sortState (toggleSort c g) =
    if (columnIndex (sortState g) =? c)%Z then
      match direction (sortState g) with
      | Some asc => {| columnIndex := columnIndex (sortState g); direction := Some desc |}
      | Some desc => {| columnIndex := -1; direction := None |}
      | None => {| columnIndex := columnIndex (sortState g); direction := Some asc |}
      end
    else {| columnIndex := c; direction := Some asc |}.
Proof.
  unfold toggleSort.
  destruct (applyTableState_keeps (with_sortState
    (if (columnIndex (sortState g) =? c)%Z then
      match direction (sortState g) with
      | Some asc => {| columnIndex := columnIndex (sortState g); direction := Some desc |}
      | Some desc => {| columnIndex := -1; direction := None |}
      | None => {| columnIndex := columnIndex (sortState g); direction := Some asc |}
      end
    else {| columnIndex := c; direction := Some asc |}) g))
    as (_ & _ & _ & _ & H & _).
  rewrite H. reflexivity.
Qed.

(** [toggleSort] leaves the snapshot, the filters and the skeleton as they
    are, and keeps the older arrays. *)
Lemma toggleSort_keeps (c : Z) (g : Grid) :
  resultsContainer (toggleSort c g) = resultsContainer g /\
  currentTableData (toggleSort c g) = currentTableData g /\
  columnFilters (toggleSort c g) = columnFilters g /\
  globalFilter (toggleSort c g) = globalFilter g /\
  (tableBodyElement (toggleSort c g) = None <-> tableBodyElement g = None) /\
  extends (heap g) (heap (toggleSort c g)).
Proof.
  unfold toggleSort.
  match goal with |- context [applyTableState ?x] =>
    destruct (applyTableState_keeps x) as (H1 & H2 & H3 & H4 & _ & _ & H7 & H8)
  end.
  simpl in *. repeat (split; [assumption|]). assumption.
Qed.

(** C1. For a grid that holds a snapshot, with an empty global filter, all
    per-column filters empty and no sort column, the visible rows are the
    rows of the snapshot: the same rows in the same order, and so the same
    count.  The table body shows one row per row of the snapshot, and the
    label counts all of them. *)
Theorem neutral_state_shows_snapshot (g : Grid) data snapshot :
  toLowerCase [] = [] ->
  currentTableData g = Some data ->
  heap g !! rows data = Some snapshot ->
  tableBodyElement g <> None ->
  globalFilter g = [] ->
  Forall (fun x => x = []) (columnFilters g) ->
  direction (sortState g) = None \/ (columnIndex (sortState g) < 0)%Z ->
  (visibleRows g data).2 !! (visibleRows g data).1 = Some snapshot /\
  tableBodyElement (applyTableState g) = Some (renderBody (columns data) snapshot) /\
  rowCountLabel (applyTableState g)
    = updateRowCount (length snapshot) (length snapshot) (rowCountLabel g).
Proof.
  intros Hlower Hd Hs Hb Hg Hf Hsort.
  pose proof (visibleContent_neutral g snapshot Hlower Hg Hf Hsort) as Hv.
  split.
  - destruct (visibleRows_spec g data) as [_ H]. rewrite H.
    rewrite (array_read_lookup _ _ _ Hs), Hv. reflexivity.
  - destruct (applyTableState_shows g data snapshot Hd Hs Hb) as [H1 H2].
    rewrite H1, H2, Hv. split; reflexivity.
Qed.

(** C3. From the neutral sort state, a first toggle on a column sorts it
    ascending, a second one descending, and a third one returns to the
    neutral state, where the table body shows the rows that pass the
    filters in the order of the snapshot, as it did before the first
    toggle; a toggle on a column other than the current sort column sorts
    that column ascending. *)
Theorem toggleSort_cycle (c : Z) (g : Grid) :
  sortState g = neutralSort ->
  sortState (toggleSort c g) = {| columnIndex := c; direction := Some asc |} /\
  sortState (toggleSort c (toggleSort c g)) = {| columnIndex := c; direction := Some desc |} /\
  sortState (toggleSort c (toggleSort c (toggleSort c g))) = neutralSort /\
  (forall data snapshot,
      currentTableData g = Some data ->
      heap g !! rows data = Some snapshot ->
      tableBodyElement g <> None ->
      tableBodyElement (toggleSort c (toggleSort c (toggleSort c g)))
      = Some (renderBody (columns data)
                (List.filter
                   (rowPasses (toLowerCase (trim (globalFilter g)))
                      (List.map (fun value => toLowerCase (trim value)) (columnFilters g)))
                   snapshot)) /\
      tableBodyElement (toggleSort c (toggleSort c (toggleSort c g)))
      = tableBodyElement (applyTableState g)) /\
  (forall g' c',
      columnIndex (sortState g') <> c' ->
      sortState (toggleSort c' g') = {| columnIndex := c'; direction := Some asc |}).
Proof.
  intros Hn.
  assert (E1 : sortState (toggleSort c g) = {| columnIndex := c; direction := Some asc |}).
  { rewrite toggleSort_sortState, Hn. unfold neutralSort. cbn [columnIndex direction].
    destruct (-1 =? c)%Z eqn:E; [|reflexivity].
    apply Z.eqb_eq in E. subst c. reflexivity. }
  assert (E2 : sortState (toggleSort c (toggleSort c g))
               = {| columnIndex := c; direction := Some desc |}).
  { rewrite toggleSort_sortState, E1. cbn [columnIndex direction].
    rewrite Z.eqb_refl. reflexivity. }
  assert (E3 : sortState (toggleSort c (toggleSort c (toggleSort c g))) = neutralSort).
  { rewrite toggleSort_sortState, E2. cbn [columnIndex direction].
    rewrite Z.eqb_refl. reflexivity. }
  split; [exact E1|]. split; [exact E2|]. split; [exact E3|]. split.
  - intros data snapshot Hd Hs Hb.
    destruct (toggleSort_keeps c g) as (_ & D1 & F1 & G1 & B1 & X1).
    destruct (toggleSort_keeps c (toggleSort c g)) as (_ & D2 & F2 & G2 & B2 & X2).
    set (g2 := toggleSort c (toggleSort c g)) in *.
    assert (Hd2 : currentTableData g2 = Some data) by congruence.
    assert (Hs2 : heap g2 !! rows data = Some snapshot) by (apply X2, X1, Hs).
    assert (Hb2 : tableBodyElement g2 <> None) by tauto.
    assert (Hshown : tableBodyElement (toggleSort c g2)
                     = Some (renderBody (columns data) (visibleContent g snapshot))).
    { unfold toggleSort at 1.
      match goal with |- context [applyTableState ?x] =>
        destruct (applyTableState_shows x data snapshot Hd2 Hs2 Hb2) as [H _];
        rewrite H;
        rewrite (visibleContent_ext g x snapshot)
      end; try reflexivity.
      - simpl. congruence.
      - simpl. congruence.
      - cbn [sortState with_sortState]. fold g2. rewrite E2. cbn [columnIndex direction].
        rewrite Z.eqb_refl. symmetry. exact Hn. }
    split.
    + rewrite Hshown, visibleContent_unsorted; [reflexivity|]. rewrite Hn. reflexivity.
    + rewrite Hshown. destruct (applyTableState_shows g data snapshot Hd Hs Hb) as [H _].
      rewrite H. reflexivity.
  - intros g' c' Hne. rewrite toggleSort_sortState.
    apply Z.eqb_neq in Hne. rewrite Hne. reflexivity.
Qed.

Lemma handle_keeps (e : GridEvent) (g : Grid) :
  currentTableData (handle e g) = currentTableData g /\
  extends (heap g) (heap (handle e g)).
Proof.
  destruct e as [text|index text|index]; simpl.
  - destruct (globalSearchInput g); [|split; [reflexivity | apply extends_refl]].
    match goal with |- context [applyTableState ?x] =>
      destruct (applyTableState_keeps x) as (_ & H2 & _ & _ & _ & _ & _ & H8)
    end.
    simpl in *. auto.
  - destruct (resultsContainer g) as [[| |header]|];
      try (split; [reflexivity | apply extends_refl]).
    destruct (index <? length header)%nat; [|split; [reflexivity | apply extends_refl]].
    match goal with |- context [applyTableState ?x] =>
      destruct (applyTableState_keeps x) as (_ & H2 & _ & _ & _ & _ & _ & H8)
    end.
    simpl in *. auto.
  - destruct (resultsContainer g) as [[| |header]|];
      try (split; [reflexivity | apply extends_refl]).
    destruct (index <? length header)%nat; [|split; [reflexivity | apply extends_refl]].
    destruct (toggleSort_keeps (Z.of_nat index) g) as (_ & H2 & _ & _ & _ & H6). auto.
Qed.

(** The listeners keep [columnFilters] as long as the skeleton is wide. *)
Lemma handle_skeleton_filters (e : GridEvent) (g : Grid) :
  skeleton_filters g -> skeleton_filters (handle e g).
Proof.
  intros Hg. destruct e as [text|index text|index]; simpl.
  - destruct (globalSearchInput g); [|exact Hg].
    match goal with |- context [applyTableState ?x] =>
      destruct (applyTableState_keeps x) as (H1 & _ & H3 & _)
    end.
    intros header. rewrite H1, H3. apply Hg.
  - destruct (resultsContainer g) as [[| |header]|] eqn:Er; try exact Hg.
    destruct (index <? length header)%nat; [|exact Hg].
    match goal with |- context [applyTableState ?x] =>
      destruct (applyTableState_keeps x) as (H1 & _ & H3 & _)
    end.
    intros header'. rewrite H1, H3. simpl. rewrite length_insert. apply Hg.
  - destruct (resultsContainer g) as [[| |header]|] eqn:Er; try exact Hg.
    destruct (index <? length header)%nat; [|exact Hg].
    destruct (toggleSort_keeps (Z.of_nat index) g) as (H1 & _ & H3 & _).
    intros header'. rewrite H1, H3. apply Hg.
Qed.

(** C4. Deriving the visible rows writes to arrays it has made itself:
    every array there was before has the elements it had.  So whatever
    the user types into the filters and the search box and however the
    headers are clicked, the grid holds the same snapshot, the same
    columns and the same array of rows, each row with the raw values and
    display texts it had. *)
Theorem derivation_keeps_snapshot (g : Grid) (events : list GridEvent) data snapshot :
  currentTableData g = Some data ->
  heap g !! rows data = Some snapshot ->
  currentTableData (applyTableState g) = Some data /\
  heap (applyTableState g) !! rows data = Some snapshot /\
  currentTableData (foldl (fun g e => handle e g) g events) = Some data /\
  heap (foldl (fun g e => handle e g) g events) !! rows data = Some snapshot /\
  extends (heap g) (heap (foldl (fun g e => handle e g) g events)).
Proof.
  intros Hd Hs.
  destruct (applyTableState_keeps g) as (_ & H2 & _ & _ & _ & _ & _ & H8).
  split; [congruence|]. split; [apply H8, Hs|].
  clear H2 H8.
  assert (H : currentTableData (foldl (fun g e => handle e g) g events) = currentTableData g /\
              extends (heap g) (heap (foldl (fun g e => handle e g) g events))).
  { clear Hd Hs. revert g. induction events as [|e events IH]; intros g; simpl.
    - split; [reflexivity | apply extends_refl].
    - destruct (IH (handle e g)) as [H1 H2]. destruct (handle_keeps e g) as [K1 K2].
      split; [congruence | eapply extends_trans; eassumption]. }
  destruct H as [H1 H2]. split; [congruence|]. split; [apply H2, Hs | exact H2].
Qed.

End GridFacts.

(** ** History ledger *)

Section LedgerFacts.
Import Values Grid Session.
Context {platform : Platform}.

Lemma take_app_take {A} (n : nat) (l k : list A) :
  take n (l ++ take n k) = take n (l ++ k).
Proof.
  rewrite !take_app, take_take. f_equal. f_equal. lia.
Qed.

Lemma recordAll_history (entries : list QueryHistoryEntry) (s : State) :
  (length (queryHistory s) <= 25)%nat ->
  queryHistory (recordAll entries s) = take 25 (reverse entries ++ queryHistory s).
Proof.
  revert s. induction entries as [|e entries IH]; intros s Hs.
  - simpl. rewrite take_ge; [reflexivity | exact Hs].
  - change (recordAll (e :: entries) s) with (recordAll entries (recordQueryHistory e s)).
    change (queryHistory (recordQueryHistory e s)) with (take 25 (e :: queryHistory s)) in IH.
    rewrite IH.
    + change (queryHistory (recordQueryHistory e s)) with (take 25 (e :: queryHistory s)).
      rewrite reverse_cons, <- app_assoc. apply (take_app_take 25).
    + change (queryHistory (recordQueryHistory e s)) with (take 25 (e :: queryHistory s)).
      rewrite length_take. lia.
Qed.

Lemma find_none_all {A} (f : A -> bool) (l : list A) :
  (forall x, x ∈ l -> f x = false) -> List.find f l = None.
Proof.
  induction l as [|x l IH]; intros H; simpl; [reflexivity|].
  rewrite (H x) by constructor. apply IH. intros y Hy. apply H. constructor. exact Hy.
Qed.

(** C6. The ledger never holds more than 25 entries; the entry recorded
    last is at index 0, and the entries are in the order newest first: the
    ledger is the first 25 of the recorded entries read backwards.  Once
    25 + k entries are recorded, the ledger is the last 25 of them, and
    none of the k oldest is found by its id again (ids being distinct). *)
Theorem ledger_bounded (entries : list QueryHistoryEntry) (s : State) :
  queryHistory s = [] ->
  (length (queryHistory (recordAll entries s)) <= 25)%nat /\
  queryHistory (recordAll entries s) = take 25 (reverse entries) /\
  (forall earlier e, entries = earlier ++ [e] ->
     queryHistory (recordAll entries s) !! 0%nat = Some e) /\
  (forall oldest recent,
     entries = oldest ++ recent -> length recent = 25%nat ->
     queryHistory (recordAll entries s) = reverse recent /\
     (NoDup (Session.id <$> entries) ->
      forall e, e ∈ oldest -> findHistory (Session.id e) (recordAll entries s) = None)) /\
  (forall e s0,
     (length (queryHistory (recordQueryHistory e s0)) <= 25)%nat /\
     queryHistory (recordQueryHistory e s0) !! 0%nat = Some e).
Proof.
  intros Hs.
  assert (H : queryHistory (recordAll entries s) = take 25 (reverse entries)).
  { rewrite recordAll_history by (rewrite Hs; simpl; lia).
    rewrite Hs, app_nil_r. reflexivity. }
  split; [rewrite H, length_take; lia|]. split; [exact H|]. split; [|split].
  - intros earlier e ->. rewrite H, reverse_snoc. reflexivity.
  - intros oldest recent -> Hlen.
    assert (Hr : queryHistory (recordAll (oldest ++ recent) s) = reverse recent).
    { rewrite H, reverse_app. apply take_app_length'. rewrite length_reverse. congruence. }
    split; [exact Hr|].
    intros Hnd e He. unfold findHistory. rewrite Hr. apply find_none_all.
    intros x Hx. rewrite elem_of_reverse in Hx. apply Z.eqb_neq. intros E.
    rewrite fmap_app in Hnd. apply NoDup_app in Hnd as (_ & Hdisj & _).
    apply (Hdisj (Session.id e)).
    + apply list_elem_of_fmap_2. exact He.
    + rewrite <- E. apply list_elem_of_fmap_2. exact Hx.
  - intros e s0.
    change (queryHistory (recordQueryHistory e s0)) with (take 25 (e :: queryHistory s0)).
    split; [rewrite length_take; lia | reflexivity].
Qed.

End LedgerFacts.

(** ** Running a query *)

Section RunFacts.
Import Values Grid Session.
Context {platform : Platform}.

(** Ingesting a result touches the grid and [lastArrowResult] only. *)
Lemma renderResults_frame (table : option Table) (s : State) :
  queryHistory (renderResults table s).2 = queryHistory s /\
  nextHistoryId (renderResults table s).2 = nextHistoryId s /\
  world (renderResults table s).2 = world s /\
  page (renderResults table s).2 = page s /\
  db (renderResults table s).2 = db s /\
  connection (renderResults table s).2 = connection s.
Proof.
  unfold renderResults. destruct (resultsContainer (grid s)); [|auto 10].
  destruct table as [t|]; [|simpl; auto 10].
  destruct (numRows t =? 0)%nat; [simpl; auto 10|].
  destruct (readRows (tableRows t) (fields t)); simpl; auto 10.
Qed.

Lemma runQuery_try_records (normalizedSql : jsstring) (start : JsNumber)
    (entryBase : QueryHistoryEntry) (s : State) :
  exists entry,
    queryHistory (runQuery_try normalizedSql start entryBase s).2
      = take 25 (entry :: queryHistory s) /\
    Session.sql entry = Session.sql entryBase /\
    Session.id entry = Session.id entryBase /\
    match (runQuery_try normalizedSql start entryBase s).1 with
    | Normal _ =>
        error entry = None /\
        exists result,
          engine_query (engineLog (world s)) normalizedSql = Normal result /\
          rowCount entry = match result with Some t => numRows t | None => 0%nat end
    | Throw e => error entry = Some e /\ rowCount entry = rowCount entryBase
    end /\
    (forall e, engine_query (engineLog (world s)) normalizedSql = Throw e ->
               (runQuery_try normalizedSql start entryBase s).1 = Throw e).
Proof.
  unfold runQuery_try, connectionQuery.
  destruct (engine_query (engineLog (world s)) normalizedSql) as [result|e] eqn:Eq.
  - pose proof (renderResults_frame result (log_call (CallQuery normalizedSql) s))
      as (F & _).
    destruct (renderResults result (log_call (CallQuery normalizedSql) s))
      as [[u|e] s2] eqn:Er; simpl in F.
    + eexists. cbn. rewrite F. repeat split; eauto. discriminate.
    + eexists. cbn. rewrite F. repeat split. discriminate.
  - eexists. cbn. repeat split. intros e' E. congruence.
Qed.

(** C5. A run with query text that is not blank, on a live connection,
    records one history entry: the ledger afterwards is the new entry in
    front of the earlier ones, cut to the bound.  The entry carries the
    trimmed text.  When the run ends normally the engine has answered,
    the entry has no error and its row count is that of the answer; when
    the run fails, be it that the engine rejects the statement or that the
    answer cannot be shown, the entry has the error's message and a row
    count of 0. *)
Theorem runQuery_records_once (sql' : jsstring) (s : State) :
  connection s = true ->
  truthy (trim sql') = true ->
  exists entry,
    queryHistory (runQuery sql' s).2 = take 25 (entry :: queryHistory s) /\
    Session.sql entry = trim sql' /\
    Session.id entry = nextHistoryId s /\
    match (runQuery sql' s).1 with
    | Normal _ =>
        error entry = None /\
        exists result,
          engine_query (engineLog (world s)) (trim sql') = Normal result /\
          rowCount entry = match result with Some t => numRows t | None => 0%nat end
    | Throw e => error entry = Some e /\ rowCount entry = 0%nat
    end /\
    (forall e, engine_query (engineLog (world s)) (trim sql') = Throw e ->
               (runQuery sql' s).1 = Throw e).
Proof.
  intros Hc Ht. unfold runQuery. rewrite Hc, Ht. cbn [negb].
  cbn [performanceNow dateNow].
  match goal with |- context [runQuery_try ?a ?b ?c ?d] =>
    destruct (runQuery_try_records a b c d) as (entry & H1 & H2 & H3 & H4 & H5);
    destruct (runQuery_try a b c d) as [outcome s3]
  end.
  exists entry. cbn in H1, H2, H3, H4, H5 |- *.
  repeat split; assumption.
Qed.

End RunFacts.

(** ** Ingesting a result *)

Section IngestFacts.
Import Values Grid Session.
Context {platform : Platform}.

Lemma formatCell_renderable (v : JsValue) :
  renderable v -> exists text, formatCell v = Normal text.
Proof.
  destruct v as [| |b|x|z|s|ref t|ref o]; simpl; intros H; eauto.
  - unfold toISOString. rewrite H. eauto.
  - destruct (obj_json o); eauto.
Qed.

Lemma property_renderable (row : list (jsstring * JsValue)) (name : jsstring) :
  Forall (fun kv => renderable kv.2) row -> renderable (property row name).
Proof.
  induction 1 as [|[k v] row Hv _ IH]; simpl; [exact I|].
  destruct (bool_decide (k = name)); assumption.
Qed.

Lemma readCells_renderable (row : list (jsstring * JsValue)) (names : list jsstring) :
  Forall (fun kv => renderable kv.2) row ->
  exists r, readCells row names = Normal r /\
            length (raw r) = length names /\ length (display r) = length names.
Proof.
  intros Hrow. induction names as [|name names (r & IH & L1 & L2)]; simpl.
  - eexists. repeat split.
  - destruct (formatCell_renderable _ (property_renderable row name Hrow)) as [text ->].
    rewrite IH. eexists. split; [reflexivity|]. simpl. split; congruence.
Qed.

(** A table without invalid dates is read without an exception, each row
    with one raw value and one display text per column. *)
Lemma readRows_renderable (rows' : list (option (list (jsstring * JsValue))))
    (names : list jsstring) :
  Forall (fun r => match r with
                   | Some row => Forall (fun kv => renderable kv.2) row
                   | None => True
                   end) rows' ->
  exists rs, readRows rows' names = Normal rs /\
             Forall (fun r => length (raw r) = length names /\
                              length (display r) = length names) rs.
Proof.
  induction 1 as [|[row|] rows' Hrow _ (rs & IH & Hl)]; simpl.
  - eexists. split; [reflexivity | constructor].
  - destruct (readCells_renderable row names Hrow) as (r & -> & L).
    rewrite IH. eexists. split; [reflexivity | constructor; assumption].
  - rewrite IH. eauto.
Qed.

Lemma renderTable_ingests (columns' : list jsstring) (rows' : list TableRow) (g : Grid) :
  resultsContainer g <> None ->
  exists a,
    currentTableData (renderTable columns' rows' g)
      = Some {| columns := columns'; rows := a |} /\
    heap (renderTable columns' rows' g) !! a = Some rows' /\
    heap g !! a = None /\
    extends (heap g) (heap (renderTable columns' rows' g)) /\
    columnFilters (renderTable columns' rows' g) = List.map (fun _ => []) columns' /\
    globalFilter (renderTable columns' rows' g) = [] /\
    sortState (renderTable columns' rows' g) = neutralSort /\
    resultsContainer (renderTable columns' rows' g) = Some (TableView columns') /\
    tableBodyElement (renderTable columns' rows' g) <> None.
Proof.
  intros Hr. unfold renderTable.
  pose proof (array_new_lookup rows' (heap g)) as Hl.
  pose proof (array_new_fresh rows' (heap g)) as Hf.
  pose proof (array_new_extends rows' (heap g)) as He.
  destruct (array_new rows' (heap g)) as [a h]. simpl in Hl, Hf, He.
  match goal with |- context [applyTableState ?x] =>
    destruct (applyTableState_keeps x) as (K1 & K2 & K3 & K4 & K5 & _ & K7 & K8)
  end.
  unfold buildTableSkeleton in *. cbn [resultsContainer] in *.
  destruct (resultsContainer g) as [view|]; [|congruence].
  exists a. rewrite K1, K2, K3, K4, K5.
  cbn [resultsContainer currentTableData columnFilters globalFilter sortState
       tableBodyElement heap] in K7, K8 |- *.
  repeat split; try assumption; try reflexivity.
  - apply K8, Hl.
  - eapply extends_trans; eassumption.
  - intros E. apply K7 in E. discriminate.
Qed.

Lemma renderTable_skeleton_filters (columns' : list jsstring) (rows' : list TableRow)
    (g : Grid) :
  skeleton_filters (renderTable columns' rows' g).
Proof.
  unfold renderTable. destruct (array_new rows' (heap g)) as [a h].
  match goal with |- context [applyTableState ?x] =>
    destruct (applyTableState_keeps x) as (K1 & _ & K3 & _)
  end.
  intros header. rewrite K1, K3. unfold buildTableSkeleton.
  cbn [resultsContainer columnFilters].
  destruct (resultsContainer g); cbn [resultsContainer columnFilters].
  - intros [= <-]. apply length_map.
  - discriminate.
Qed.

(** C2, as amended. On a page with the results container, ingesting a
    result that has rows, all of them read without an exception, leaves
    the grid populated: it holds a snapshot with the columns of the
    result and the rows read, in a new array, and the filter, search and
    sort state is neutral, with one empty filter per column.  Ingesting a
    result without rows leaves the grid without a snapshot, showing the
    empty-state message, and keeps the filter, search and sort state it
    had. *)
Theorem renderResults_ingests (table : Table) (s : State) :
  resultsContainer (grid s) <> None ->
  (forall rows',
     numRows table <> 0%nat ->
     readRows (tableRows table) (fields table) = Normal rows' ->
     (renderResults (Some table) s).1 = Normal tt /\
     lastArrowResult (renderResults (Some table) s).2 = Some table /\
     exists a,
       currentTableData (grid (renderResults (Some table) s).2)
         = Some {| columns := fields table; rows := a |} /\
       heap (grid (renderResults (Some table) s).2) !! a = Some rows' /\
       columnFilters (grid (renderResults (Some table) s).2)
         = List.map (fun _ => []) (fields table) /\
       length (columnFilters (grid (renderResults (Some table) s).2))
         = length (fields table) /\
       globalFilter (grid (renderResults (Some table) s).2) = [] /\
       sortState (grid (renderResults (Some table) s).2) = neutralSort /\
       tableBodyElement (grid (renderResults (Some table) s).2) <> None) /\
  (numRows table = 0%nat ->
     (renderResults (Some table) s).1 = Normal tt /\
     currentTableData (grid (renderResults (Some table) s).2) = None /\
     resultsContainer (grid (renderResults (Some table) s).2) = Some EmptyStateView /\
     columnFilters (grid (renderResults (Some table) s).2) = columnFilters (grid s) /\
     globalFilter (grid (renderResults (Some table) s).2) = globalFilter (grid s) /\
     sortState (grid (renderResults (Some table) s).2) = sortState (grid s)).
Proof.
  intros Hr. unfold renderResults.
  destruct (resultsContainer (grid s)) as [view|] eqn:Er; [|congruence].
  split.
  - intros rows' Hn Hrows. apply Nat.eqb_neq in Hn. rewrite Hn, Hrows.
    cbn [fst snd grid lastArrowResult with_grid with_lastArrowResult].
    split; [reflexivity|]. split; [reflexivity|].
    destruct (renderTable_ingests (fields table) rows' (grid s))
      as (a & H1 & H2 & _ & _ & H5 & H6 & H7 & _ & H9); [congruence|].
    exists a. rewrite H5. repeat split; try assumption. apply length_map.
  - intros ->. cbn. repeat split.
Qed.

End IngestFacts.

(** ** Export *)

Section ExportFacts.
Import Values Grid Session.
Context {platform : Platform}.

(** C9. An export request whose query text trims to the empty string
    ends at once, for each of the three formats: no call is made to the
    engine, no bytes are produced and no message is posted to the host,
    and nothing of the session changes but the export status. With the
    engine ready the request returns after setting the export status to
    the message that asks for a query; without it the request throws the
    error that says the engine is not ready. *)
Theorem exportResult_blank_query (format : ExportFormat) (s : State) :
  truthy (trim (sqlInput (page s))) = false ->
  world (exportResult format s).2 = world s /\
  engineLog (world (exportResult format s).2) = engineLog (world s) /\
  posted (world (exportResult format s).2) = posted (world s) /\
  grid (exportResult format s).2 = grid s /\
  queryHistory (exportResult format s).2 = queryHistory s /\
  lastArrowResult (exportResult format s).2 = lastArrowResult s /\
  ((connection s && db s = true /\
    exportResult format s
    = (Normal tt, updateExportStatus (js "Write a SQL query to export first.") s)) \/
   (connection s && db s = false /\
    exportResult format s = (Throw (js "DuckDB is not ready for export."), s))).
Proof.
  intros Hblank. unfold exportResult. rewrite Hblank.
  destruct (connection s), (db s); cbn; repeat split; auto.
Qed.

End ExportFacts.

(* ===================================================================== *)
(** * The properties on the demonstration platform *)
(* ===================================================================== *)

Section Witnesses.
Import Values Grid Session Demo.

(** A file in a directory, with a dot in its name. *)
Lemma generateViewName_safe_witness :
  SqlHelpers.generateViewName (js "dir/report.v2.csv")
  = SqlHelpers.defaulted_and_prefixed
      (List.map SqlHelpers.underscored (js "report.v2")).
Proof.
  refine (proj2 (proj2 (proj2 (proj2
    (generateViewName_safe (js "dir/report.v2.csv")))))
    (js "report.v2.csv") (js "report.v2") _ _).
  - apply (SqlHelpers.trailing_after (js "dir") 47 (js "report.v2.csv")); reflexivity.
  - apply (SqlHelpers.extension_final (js "report.v2") (js "csv")); [discriminate | reflexivity].
Defined.

(** The loaded grid, untouched, shows the two rows of the result. *)
Lemma neutral_state_shows_snapshot_witness :
  tableBodyElement (applyTableState (grid loadedState))
  = Some (renderBody [js "a"; js "b"] rows_ab).
Proof.
  refine (proj1 (proj2
    (@neutral_state_shows_snapshot Demo.platform (grid loadedState)
       {| columns := [js "a"; js "b"]; rows := 0 |} rows_ab _ _ _ _ _ _ _))).
  - reflexivity.
  - vm_compute. reflexivity.
  - vm_compute. reflexivity.
  - vm_compute. discriminate.
  - vm_compute. reflexivity.
  - vm_compute. repeat constructor.
  - left. vm_compute. reflexivity.
Defined.

(** Three clicks on the first header of the loaded grid. *)
Lemma toggleSort_cycle_witness :
  sortState (toggleSort 0 (toggleSort 0 (toggleSort 0 (grid loadedState)))) = neutralSort.
Proof.
  refine (proj1 (proj2 (proj2
    (@toggleSort_cycle Demo.platform 0%Z (grid loadedState) _)))).
  vm_compute. reflexivity.
Defined.

(** Filtering, sorting and searching the loaded grid. *)
Lemma derivation_keeps_snapshot_witness :
  heap (foldl (fun g e => handle e g) (grid loadedState)
          [ColumnFilterInput 1 (js "y"); HeaderClick 0; GlobalSearchInput (js "x")])
    !! 0%nat
  = Some rows_ab.
Proof.
  refine (proj1 (proj2 (proj2 (proj2
    (@derivation_keeps_snapshot Demo.platform (grid loadedState)
       [ColumnFilterInput 1 (js "y"); HeaderClick 0; GlobalSearchInput (js "x")]
       {| columns := [js "a"; js "b"]; rows := 0 |} rows_ab _ _))))).
  - vm_compute. reflexivity.
  - vm_compute. reflexivity.
Defined.

(** A statement the engine rejects, run on the loaded session. *)
Lemma runQuery_records_once_witness :
  exists entry,
    queryHistory (runQuery (js " oops ") loadedState).2
      = take 25 (entry :: queryHistory loadedState) /\
    Session.sql entry = js "oops".
Proof.
  destruct (@runQuery_records_once Demo.platform (js " oops ") loadedState)
    as (entry & H1 & H2 & _).
  - vm_compute. reflexivity.
  - vm_compute. reflexivity.
  - exists entry. split; [exact H1 | exact H2].
Defined.

(** Thirty entries recorded into the empty ledger. *)
Lemma ledger_bounded_witness :
  (length (queryHistory (recordAll thirtyEntries initialState)) <= 25)%nat.
Proof.
  refine (proj1 (ledger_bounded thirtyEntries initialState _)).
  reflexivity.
Defined.

(** The two-row result ingested on the initial page. *)
Lemma renderResults_ingests_witness :
  (renderResults (Some table_ab) initialState).1 = Normal tt.
Proof.
  refine (proj1 (proj1
    (@renderResults_ingests Demo.platform table_ab initialState _) rows_ab _ _)).
  - vm_compute. discriminate.
  - vm_compute. discriminate.
  - vm_compute. reflexivity.
Defined.

(** An export of the initial session, whose query box is empty. *)
Lemma exportResult_blank_query_witness :
  posted (world (exportResult parquet initialState).2) = posted (world initialState).
Proof.
  refine (proj1 (proj2 (proj2
    (@exportResult_blank_query Demo.platform parquet initialState _)))).
  reflexivity.
Defined.

(** C2, as stated, fails on a result without rows: ingesting it on the
    sorted and searched grid leaves no snapshot, and the search text and
    the sort state stay as they were. *)
Lemma renderResults_no_rows_not_populated :
  currentTableData (grid (renderResults (Some table_none) busyState).2) = None /\
  globalFilter (grid (renderResults (Some table_none) busyState).2) = js "x" /\
  sortState (grid (renderResults (Some table_none) busyState).2)
  = {| columnIndex := 0; direction := Some asc |}.
Proof. vm_compute. repeat split. Qed.

End Witnesses.

(** * Worked examples *)

Section Examples.
Import Loaders SqlHelpers Values Grid Session Demo.

Example generateViewName_path :
  generateViewName (js "C:\\data/2020.sales data.csv") = js "v_2020_sales_data".
Proof. vm_compute. reflexivity. Qed.

Example generateViewName_only_extension : generateViewName (js ".csv") = js "data_view".
Proof. vm_compute. reflexivity. Qed.

Example selectLoader_upper_case : Loaders.id (selectLoader (js "TRADES.PARQ")) = js "parquet".
Proof. vm_compute. reflexivity. Qed.

Example selectLoader_default : Loaders.id (selectLoader (js "notes.txt")) = js "csv".
Proof. vm_compute. reflexivity. Qed.

Example loaded_grid_body :
  tableBodyElement (grid loadedState)
  = Some [DataRow [js "1"; js "x"]; DataRow [js "2"; js "y"]].
Proof. vm_compute. reflexivity. Qed.

Example sorted_descending :
  tableBodyElement (toggleSort 0 (toggleSort 0 (grid loadedState)))
  = Some [DataRow [js "2"; js "y"]; DataRow [js "1"; js "x"]].
Proof. vm_compute. reflexivity. Qed.

Example column_filter_trims_and_folds :
  tableBodyElement (handle (ColumnFilterInput 1 (js " Y ")) (grid loadedState))
  = Some [DataRow [js "2"; js "y"]].
Proof. vm_compute. reflexivity. Qed.

Example failed_run_in_history :
  List.map (fun e => (Session.id e, rowCount e, error e))
           (queryHistory (runQuery (js " oops ") loadedState).2)
  = [(2%Z, 0%nat, Some (js "Parser Error")); (1%Z, 2%nat, None)].
Proof. vm_compute. reflexivity. Qed.

Example blank_run_not_in_history :
  queryHistory (runQuery (js "  ") loadedState).2 = queryHistory loadedState.
Proof. vm_compute. reflexivity. Qed.

End Examples.

(* ===================================================================== *)
(** * Further properties of the script *)
(* ===================================================================== *)

(** ** Trimming *)

Section TrimFacts.

Lemma trimStart_head (s : jsstring) :
  match trimStart s with [] => True | c :: _ => is_whitespace c = false end.
Proof.
  induction s as [|c s IH]; simpl; [exact I|].
  destruct (is_whitespace c) eqn:E; [exact IH | exact E].
Qed.

Lemma trimStart_suffix (s : jsstring) :
  exists spaces, s = spaces ++ trimStart s /\ forallb is_whitespace spaces = true.
Proof.
  induction s as [|c s (spaces & IH & Hs)]; simpl.
  - exists []. auto.
  - destruct (is_whitespace c) eqn:E.
    + exists (c :: spaces). simpl. rewrite E, Hs. split; [congruence | reflexivity].
    + exists []. auto.
Qed.

Lemma trimStart_fixed (s : jsstring) :
  match s with [] => True | c :: _ => is_whitespace c = false end -> trimStart s = s.
Proof. destruct s as [|c s]; simpl; [reflexivity|]. intros ->. reflexivity. Qed.

Lemma trimStart_spaces (s : jsstring) : forallb is_whitespace s = true -> trimStart s = [].
Proof.
  induction s as [|c s IH]; simpl; [reflexivity|]. intros H.
  apply andb_prop in H as [-> H]. auto.
Qed.

Lemma trim_fixed (s : jsstring) : SqlText.trimmed s -> trim s = s.
Proof.
  intros [H1 H2]. unfold trim. rewrite (trimStart_fixed s H1), (trimStart_fixed _ H2).
  apply rev_involutive.
Qed.

Lemma trim_trimmed (s : jsstring) : SqlText.trimmed (trim s).
Proof.
  unfold trim, SqlText.trimmed. rewrite rev_involutive.
  split; [|apply trimStart_head].
  destruct (trimStart_suffix (rev (trimStart s))) as (spaces & E & _).
  pose proof (trimStart_head s) as Hs.
  destruct (trimStart (rev (trimStart s))) as [|d t] using rev_ind; [exact I|].
  rewrite rev_app_distr. simpl.
  rewrite app_assoc in E. apply (f_equal (@rev N)) in E.
  rewrite rev_involutive, rev_app_distr in E. simpl in E.
  rewrite E in Hs. exact Hs.
Qed.

Lemma trim_idempotent (s : jsstring) : trim (trim s) = trim s.
Proof. apply trim_fixed, trim_trimmed. Qed.

Lemma trim_spaces (s : jsstring) : forallb is_whitespace s = true -> trim s = [].
Proof. intros H. unfold trim. rewrite (trimStart_spaces s H). reflexivity. Qed.

End TrimFacts.

(** ** Escaping *)

Section EscapeFacts.
Import SqlHelpers SqlText.

(** A substitution of code words for characters can be undone when no
    code word is empty and the first character of a text is determined by
    the code words that follow each other in it. *)
Lemma flat_map_code_inj {A} (f : A -> jsstring) :
  (forall a, f a <> []) ->
  (forall a b x y, f a ++ x = f b ++ y -> a = b) ->
  forall l1 l2, List.flat_map f l1 = List.flat_map f l2 -> l1 = l2.
Proof.
  intros Hne Hcode. induction l1 as [|a l1 IH]; intros [|b l2] H; simpl in H.
  - reflexivity.
  - symmetry in H. apply app_eq_nil in H as [H _]. destruct (Hne _ H).
  - apply app_eq_nil in H as [H _]. destruct (Hne _ H).
  - pose proof (Hcode _ _ _ _ H) as ->. apply app_inv_head in H.
    f_equal. apply IH, H.
Qed.

Lemma length_flat_map_ge {A} (f : A -> jsstring) (l : list A) :
  (forall a, f a <> []) -> (length l <= length (List.flat_map f l))%nat.
Proof.
  intros Hne. induction l as [|a l IH]; simpl; [lia|].
  rewrite length_app. specialize (Hne a). destruct (f a); [congruence|]. simpl. lia.
Qed.

Lemma doubling_nonempty (q a : N) : (if a =? q then [q; q] else [a]) <> [].
Proof. destruct (a =? q); discriminate. Qed.

Lemma doubling_code (q a b : N) (x y : jsstring) :
  (if a =? q then [q; q] else [a]) ++ x = (if b =? q then [q; q] else [b]) ++ y -> a = b.
Proof.
  destruct (a =? q) eqn:Ea, (b =? q) eqn:Eb; simpl; intros H.
  - apply N.eqb_eq in Ea, Eb. congruence.
  - injection H as H _. apply N.eqb_neq in Eb. congruence.
  - injection H as H _. apply N.eqb_neq in Ea. congruence.
  - injection H as H _. exact H.
Qed.

(** X1. The SQL identifier of a name is the name itself exactly when the
    name matches the safe pattern, and is never empty; two different
    names never get the same identifier. *)
Theorem formatIdentifierForSql_injective :
  (forall x y, formatIdentifierForSql x = formatIdentifierForSql y -> x = y) /\
  (forall x, formatIdentifierForSql x = x <-> test_full simplePattern x = true) /\
  (forall x, formatIdentifierForSql x <> []) /\
  (forall x, test_full simplePattern (formatIdentifierForSql x) = test_full simplePattern x).
Proof.
  assert (Hquoted : forall x c t,
             test_full simplePattern (c :: t) = true ->
             c :: t <> [34] ++ List.flat_map (fun c => if c =? 34 then [34; 34] else [c]) x
                        ++ [34]).
  { intros x c t Hs E. apply test_full_simplePattern in Hs as (c' & t' & E' & Hc & _).
    injection E' as <- <-. injection E as -> _. discriminate. }
  assert (Hsafe : forall x, test_full simplePattern x = true -> exists c t, x = c :: t).
  { intros x Hx. apply test_full_simplePattern in Hx as (c & t & -> & _). eauto. }
  split; [|split; [|split]].
  - intros x y. unfold formatIdentifierForSql.
    destruct (test_full simplePattern x) eqn:Ex, (test_full simplePattern y) eqn:Ey; intros H.
    + exact H.
    + destruct (Hsafe x Ex) as (c & t & ->). destruct (Hquoted y c t Ex H).
    + destruct (Hsafe y Ey) as (c & t & ->). symmetry in H. destruct (Hquoted x c t Ey H).
    + injection H as H. apply app_inv_tail in H.
      apply (flat_map_code_inj _ (doubling_nonempty 34) (doubling_code 34)), H.
  - intros x. unfold formatIdentifierForSql.
    destruct (test_full simplePattern x) eqn:Ex; split; try reflexivity; try discriminate.
    intros H. apply (f_equal (@length N)) in H. simpl in H. rewrite length_app in H.
    pose proof (length_flat_map_ge (fun c => if c =? 34 then [34; 34] else [c]) x
                  (doubling_nonempty 34)).
    simpl in H. lia.
  - intros x. unfold formatIdentifierForSql.
    destruct (test_full simplePattern x) eqn:Ex; [|discriminate].
    destruct (Hsafe x Ex) as (c & t & ->). discriminate.
  - intros x. unfold formatIdentifierForSql.
    destruct (test_full simplePattern x) eqn:Ex; [exact Ex|].
    apply not_true_is_false. intros H.
    apply test_full_simplePattern in H as (c & t & E & Hc & _).
    injection E as <- _. discriminate.
Qed.

Lemma buildDefaultQuery_shape (columnNames : list jsstring) (viewReference : jsstring) :
  exists middle, buildDefaultQuery columnNames viewReference = 83 :: middle ++ [59].
Proof.
  unfold buildDefaultQuery.
  match goal with |- context [if ?b then ?x else ?y] => set (columns := if b then x else y) end.
  exists (js "ELECT " ++ columns ++ [10] ++ js "FROM " ++ viewReference).
  change (js "SELECT ") with (83 :: js "ELECT "). change (js ";") with [59].
  simpl. rewrite <- !app_assoc. reflexivity.
Qed.

Lemma SEMICOLON_Matches (s : jsstring) :
  Matches (Seq (Chr 59) (Star (Class is_whitespace))) s <->
  exists spaces, s = 59 :: spaces /\ forallb is_whitespace spaces = true.
Proof.
  split.
  - intros H. apply Matches_Seq_inv in H as (s1 & s2 & -> & H1 & H2).
    apply Matches_Class_inv in H1 as (c & -> & Hc). apply N.eqb_eq in Hc. subst c.
    apply Matches_Star_Class in H2. eauto.
  - intros (spaces & -> & H). change (59 :: spaces) with ([59] ++ spaces).
    constructor; [constructor; reflexivity | apply Matches_Star_Class, H].
Qed.

Lemma semicolon_inside (x y : jsstring) :
  forallb is_whitespace (x ++ 59 :: y) = false.
Proof.
  induction x as [|c x IH]; simpl; [reflexivity|]. rewrite IH. apply andb_false_r.
Qed.

(** X3. [normalizeSqlForEmbedding] removes one semicolon that ends the
    statement, with the white space after it, and trims what is left: a
    second semicolon before it stays.  A statement that does not end so
    is only trimmed.  The result has no white space at either end. *)
Theorem normalizeSqlForEmbedding_one_semicolon :
  (forall statement spaces,
      forallb is_whitespace spaces = true ->
      Session.normalizeSqlForEmbedding (statement ++ 59 :: spaces) = trim statement) /\
  (forall sql',
      (forall statement spaces, sql' = statement ++ 59 :: spaces ->
                                forallb is_whitespace spaces = false) ->
      Session.normalizeSqlForEmbedding sql' = trim sql') /\
  (forall sql', trimmed (Session.normalizeSqlForEmbedding sql')).
Proof.
  split; [|split].
  - intros statement spaces Hs. unfold Session.normalizeSqlForEmbedding. f_equal.
    apply strip_suffix_leftmost.
    + apply SEMICOLON_Matches. eauto.
    + intros s1 c s2 -> H. apply SEMICOLON_Matches in H as (spaces' & E & H).
      injection E as -> <-. rewrite semicolon_inside in H. discriminate.
  - intros sql' Hnone. unfold Session.normalizeSqlForEmbedding. f_equal.
    apply strip_suffix_none. intros stem tail -> H.
    apply SEMICOLON_Matches in H as (spaces & -> & H).
    rewrite (Hnone stem spaces eq_refl) in H. discriminate.
  - intros sql'. apply trim_trimmed.
Qed.

Lemma htmlEntity_clean (c : N) :
  Forall (fun x => is_html_special x = true -> x = 38) (htmlEntity c).
Proof.
  unfold htmlEntity.
  destruct (c =? 38); [|destruct (c =? 60); [|destruct (c =? 62); [|destruct (c =? 34)]]];
    repeat constructor; discriminate.
Qed.

(** X4. The text [escapeHtml] returns has no angle bracket, no double
    quote and no apostrophe, and its ampersands are those of the five
    entities; a text without any of the five characters is returned as it
    is, and two different texts never get the same escaped text. *)
Theorem escapeHtml_safe :
  (forall value, Forall (fun c => c <> 60 /\ c <> 62 /\ c <> 34 /\ c <> 39) (escapeHtml value)) /\
  (forall value, forallb (fun c => negb (is_html_special c)) value = true ->
                 escapeHtml value = value) /\
  (forall v1 v2, escapeHtml v1 = escapeHtml v2 -> v1 = v2).
Proof.
  split; [|split].
  - intros value. unfold escapeHtml. induction value as [|c value IH]; simpl; [constructor|].
    apply Forall_app. split; [|exact IH].
    destruct (is_html_special c) eqn:Ec.
    + eapply Forall_impl; [apply htmlEntity_clean|]. simpl. intros x Hx.
      repeat split; intros ->; specialize (Hx eq_refl); discriminate.
    + constructor; [|constructor]. unfold is_html_special in Ec.
      apply orb_false_iff in Ec as [Ec E39]. apply orb_false_iff in Ec as [Ec E34].
      apply orb_false_iff in Ec as [Ec E62]. apply orb_false_iff in Ec as [_ E60].
      repeat split; intros ->; discriminate.
  - intros value. unfold escapeHtml. induction value as [|c value IH]; simpl; [reflexivity|].
    intros H. apply andb_prop in H as [Hc H]. apply negb_true_iff in Hc.
    rewrite Hc, (IH H). reflexivity.
  - unfold escapeHtml. apply flat_map_code_inj.
    + intros a. unfold htmlEntity.
      destruct (is_html_special a), (a =? 38), (a =? 60), (a =? 62), (a =? 34); discriminate.
    + intros a b x y. unfold is_html_special, htmlEntity.
      destruct (a =? 38) eqn:A1; [|destruct (a =? 60) eqn:A2;
        [|destruct (a =? 62) eqn:A3; [|destruct (a =? 34) eqn:A4; [|destruct (a =? 39) eqn:A5]]]];
      (destruct (b =? 38) eqn:B1; [|destruct (b =? 60) eqn:B2;
        [|destruct (b =? 62) eqn:B3; [|destruct (b =? 34) eqn:B4; [|destruct (b =? 39) eqn:B5]]]]);
      intros H; vm_compute in H;
      repeat match goal with
             | E : (_ =? _) = true |- _ => apply N.eqb_eq in E
             | E : (_ =? _) = false |- _ => apply N.eqb_neq in E
             end;
      try congruence; try (injection H; intros; subst; congruence).
Qed.

End EscapeFacts.

(** ** Filtering and sorting *)

Section FilterFacts.
Import Values Grid.
Context {platform : Platform}.

Lemma sort_insert_Permutation {A} (compare : A -> A -> JsNumber) (x : A) (l : list A) :
  sort_insert compare x l ≡ₚ x :: l.
Proof.
  induction l as [|y l IH]; cbn [sort_insert]; [reflexivity|].
  destruct (SFltb _ _); [|reflexivity].
  rewrite IH. apply perm_swap.
Qed.

Lemma sorted_by_Permutation {A} (compare : A -> A -> JsNumber) (l : list A) :
  sorted_by compare l ≡ₚ l.
Proof.
  induction l as [|x l IH]; simpl; [reflexivity|].
  rewrite sort_insert_Permutation, IH. reflexivity.
Qed.

Lemma visibleContent_Permutation (g : Grid) (snapshot : list TableRow) :
  visibleContent g snapshot ≡ₚ
  List.filter
    (rowPasses (toLowerCase (trim (globalFilter g)))
               (List.map (fun value => toLowerCase (trim value)) (columnFilters g)))
    snapshot.
Proof.
  unfold visibleContent. destruct (direction (sortState g)); [|reflexivity].
  destruct (0 <=? columnIndex (sortState g))%Z; [|reflexivity].
  apply sorted_by_Permutation.
Qed.

(** X5. Whatever the sort state, the rows on show are the rows of the
    snapshot that pass the filters, each as often as it passes: sorting
    neither drops a row nor shows one twice.  So the row-count label does
    not depend on the sort state, and never counts more rows than the
    snapshot has. *)
Theorem sort_keeps_rows (g : Grid) data snapshot :
  currentTableData g = Some data ->
  heap g !! rows data = Some snapshot ->
  tableBodyElement g <> None ->
  exists shown,
    tableBodyElement (applyTableState g) = Some (renderBody (columns data) shown) /\
    shown ≡ₚ
      List.filter
        (rowPasses (toLowerCase (trim (globalFilter g)))
                   (List.map (fun value => toLowerCase (trim value)) (columnFilters g)))
        snapshot /\
    (forall row, row ∈ shown -> row ∈ snapshot) /\
    (length shown <= length snapshot)%nat /\
    rowCountLabel (applyTableState g)
    = updateRowCount
        (length (List.filter
           (rowPasses (toLowerCase (trim (globalFilter g)))
                      (List.map (fun value => toLowerCase (trim value)) (columnFilters g)))
           snapshot))
        (length snapshot) (rowCountLabel g).
Proof.
  intros Hd Hs Hb. destruct (applyTableState_shows g data snapshot Hd Hs Hb) as [H1 H2].
  pose proof (visibleContent_Permutation g snapshot) as Hp.
  exists (visibleContent g snapshot). split; [exact H1|]. split; [exact Hp|].
  split; [|split].
  - intros row Hrow. rewrite Hp in Hrow. apply list_elem_of_In in Hrow.
    apply filter_In in Hrow as [Hrow _]. apply list_elem_of_In. exact Hrow.
  - rewrite Hp. apply List.filter_length_le.
  - rewrite H2, Hp. reflexivity.
Qed.

Lemma normalized_spaces (filters : list jsstring) :
  toLowerCase [] = [] ->
  Forall (fun value => forallb is_whitespace value = true) filters ->
  Forall (fun x => x = []) (List.map (fun value => toLowerCase (trim value)) filters).
Proof.
  intros Hlower. induction 1 as [|value filters Hv _ IH]; simpl; constructor; [|exact IH].
  rewrite (trim_spaces value Hv). exact Hlower.
Qed.

(** X6. Filters that hold white space only filter nothing: with such a
    global filter and such column filters every row of the snapshot
    passes, and without a sort column the table body shows the whole
    snapshot in its order. *)
Theorem blank_filters_pass_all (g : Grid) data snapshot :
  toLowerCase [] = [] ->
  forallb is_whitespace (globalFilter g) = true ->
  Forall (fun value => forallb is_whitespace value = true) (columnFilters g) ->
  List.filter
    (rowPasses (toLowerCase (trim (globalFilter g)))
               (List.map (fun value => toLowerCase (trim value)) (columnFilters g)))
    snapshot = snapshot /\
  (currentTableData g = Some data ->
   heap g !! rows data = Some snapshot ->
   tableBodyElement g <> None ->
   direction (sortState g) = None ->
   tableBodyElement (applyTableState g) = Some (renderBody (columns data) snapshot)).
Proof.
  intros Hlower Hg Hf.
  assert (Hall : List.filter
    (rowPasses (toLowerCase (trim (globalFilter g)))
               (List.map (fun value => toLowerCase (trim value)) (columnFilters g)))
    snapshot = snapshot).
  { apply filter_all. intros row. unfold rowPasses.
    rewrite (trim_spaces _ Hg), Hlower. simpl.
    apply every_from_empty_filters; [reflexivity|].
    apply normalized_spaces; assumption. }
  split; [exact Hall|].
  intros Hd Hs Hb Hn. destruct (applyTableState_shows g data snapshot Hd Hs Hb) as [H1 _].
  rewrite H1, (visibleContent_unsorted g snapshot Hn), Hall. reflexivity.
Qed.

Lemma every_from_lookup {A} (f : nat -> A -> bool) (idx : nat) (l : list A) :
  every_from f idx l = true <-> forall i x, l !! i = Some x -> f (idx + i)%nat x = true.
Proof.
  revert idx. induction l as [|y l IH]; intros idx; simpl.
  - split; [intros _ i x H; discriminate | reflexivity].
  - rewrite andb_true_iff, IH. split.
    + intros [Hy Hl] [|i] x H; simpl in H.
      * injection H as <-. rewrite Nat.add_0_r. exact Hy.
      * rewrite <- Nat.add_succ_comm. apply Hl, H.
    + intros H. split.
      * specialize (H 0%nat y eq_refl). rewrite Nat.add_0_r in H. exact H.
      * intros i x Hx. rewrite Nat.add_succ_comm. apply (H (S i)), Hx.
Qed.

(** One column filter over empty ones: a row passes exactly when the
    filter's needle is empty or occurs in the lower-cased display text of
    that column. *)
Lemma rowPasses_one_column (filters : list jsstring) (index : nat) (text : jsstring)
    (row : TableRow) :
  toLowerCase [] = [] ->
  Forall (fun x => x = []) filters ->
  (index < length filters)%nat ->
  rowPasses (toLowerCase (trim []))
    (List.map (fun value => toLowerCase (trim value)) (<[index := text]> filters)) row
  = negb (truthy (toLowerCase (trim text)))
    || includes (toLowerCase (or_empty (display row !! index))) (toLowerCase (trim text)).
Proof.
  intros Hlower Hf Hi. unfold rowPasses. rewrite trim_empty, Hlower. simpl.
  set (needle := toLowerCase (trim text)).
  set (check := fun (idx : nat) (filter : jsstring) =>
                  if negb (truthy filter) then true
                  else includes (toLowerCase (or_empty (display row !! idx))) filter).
  assert (Hcheck : negb (truthy needle)
                   || includes (toLowerCase (or_empty (display row !! index))) needle
                   = check index needle).
  { unfold check. destruct (truthy needle); reflexivity. }
  assert (Hat : List.map (fun value => toLowerCase (trim value)) (<[index := text]> filters)
                  !! index = Some needle).
  { change (List.map ?f ?l) with (f <$> l).
    rewrite list_lookup_fmap, list_lookup_insert_eq by exact Hi. reflexivity. }
  rewrite Hcheck. apply Bool.eq_true_iff_eq. rewrite every_from_lookup. split.
  - intros H. apply (H index needle Hat).
  - intros H i x Hx. simpl.
    destruct (decide (i = index)) as [->|Hne].
    + rewrite Hat in Hx. injection Hx as <-. exact H.
    + assert (x = []) as ->; [|reflexivity].
      change (List.map ?f ?l) with (f <$> l) in Hx.
      rewrite list_lookup_fmap, list_lookup_insert_ne in Hx by congruence.
      destruct (filters !! i) as [value|] eqn:Ev; [|discriminate].
      simpl in Hx. injection Hx as <-.
      rewrite Forall_forall in Hf. rewrite (Hf value), trim_empty; [exact Hlower|].
      eapply list_elem_of_lookup_2, Ev.
Qed.

End FilterFacts.

(** ** One column filter *)

Section ColumnFilterFacts.
Import Values Grid.
Context {platform : Platform}.

(** X7. On a grid whose filters are empty and that has no sort column,
    typing into the filter of one column leaves on show the rows whose
    display text in that column, in lower case, contains the trimmed and
    lower-cased filter text, in the order of the snapshot (all rows when
    that text is empty); the label counts them against the rows of the
    snapshot. *)
Theorem column_filter_shows_matches (g : Grid) data snapshot header index text :
  toLowerCase [] = [] ->
  currentTableData g = Some data ->
  heap g !! rows data = Some snapshot ->
  tableBodyElement g <> None ->
  resultsContainer g = Some (TableView header) ->
  (index < length header)%nat ->
  length (columnFilters g) = length header ->
  globalFilter g = [] ->
  Forall (fun x => x = []) (columnFilters g) ->
  direction (sortState g) = None ->
  tableBodyElement (handle (ColumnFilterInput index text) g)
  = Some (renderBody (columns data)
            (List.filter
               (fun row =>
                  negb (truthy (toLowerCase (trim text)))
                  || includes (toLowerCase (or_empty (display row !! index)))
                              (toLowerCase (trim text)))
               snapshot)) /\
  rowCountLabel (handle (ColumnFilterInput index text) g)
  = updateRowCount
      (length (List.filter
                 (fun row =>
                    negb (truthy (toLowerCase (trim text)))
                    || includes (toLowerCase (or_empty (display row !! index)))
                                (toLowerCase (trim text)))
                 snapshot))
      (length snapshot) (rowCountLabel g).
Proof.
  intros Hlower Hd Hs Hb Hr Hi Hlen Hg Hf Hn.
  cbn [handle]. rewrite Hr. apply Nat.ltb_lt in Hi as Hi'. rewrite Hi'.
  set (g1 := with_columnFilters (<[index := text]> (columnFilters g)) g).
  destruct (applyTableState_shows g1 data snapshot Hd Hs Hb) as [H1 H2].
  assert (Hv : visibleContent g1 snapshot
               = List.filter
                   (fun row =>
                      negb (truthy (toLowerCase (trim text)))
                      || includes (toLowerCase (or_empty (display row !! index)))
                                  (toLowerCase (trim text)))
                   snapshot).
  { rewrite (visibleContent_unsorted g1 snapshot Hn).
    apply List.filter_ext. intros row. cbn [globalFilter columnFilters g1 with_columnFilters].
    rewrite Hg. apply rowPasses_one_column; [assumption | assumption | lia]. }
  rewrite H1, H2, Hv. split; reflexivity.
Qed.

End ColumnFilterFacts.

(** ** The session under the user's actions *)

Section SessionFacts.
Import Values Grid Session Actions.
Context {platform : Platform}.

Lemma formatCell_Throw (v : JsValue) (message : jsstring) :
  formatCell v = Throw message -> message = js "Invalid time value" /\ ~ renderable v.
Proof.
  destruct v as [| |b|x|z|s|ref t|ref o]; simpl; try discriminate.
  - unfold toISOString. destruct (isFinite t); [discriminate|].
    intros [= <-]. split; [reflexivity | discriminate].
  - destruct (obj_json o); discriminate.
Qed.

Lemma readCells_shape (row : list (jsstring * JsValue)) (names : list jsstring) r :
  readCells row names = Normal r ->
  raw r = List.map (property row) names /\
  length (display r) = length names /\
  Forall2 (fun v text => formatCell v = Normal text) (raw r) (display r).
Proof.
  revert r. induction names as [|name names IH]; simpl; intros r.
  - intros [= <-]. simpl. repeat split. constructor.
  - destruct (formatCell (property row name)) as [text|] eqn:Ef; [|discriminate].
    destruct (readCells row names) as [r'|]; [|discriminate].
    intros [= <-]. destruct (IH r' eq_refl) as (H1 & H2 & H3). simpl.
    rewrite H1, H2. repeat split. constructor; [exact Ef|]. rewrite <- H1. exact H3.
Qed.

Lemma readRows_shape (rows' : list (option (list (jsstring * JsValue))))
    (names : list jsstring) rs :
  readRows rows' names = Normal rs ->
  Forall (row_shaped (length names)) rs /\
  Forall (fun r => Forall2 (fun v text => formatCell v = Normal text) (raw r) (display r)) rs /\
  (length rs <= length rows')%nat.
Proof.
  revert rs. induction rows' as [|[row|] rows' IH]; simpl; intros rs.
  - intros [= <-]. repeat split; constructor.
  - destruct (readCells row names) as [r|] eqn:Er; [|discriminate].
    destruct (readRows rows' names) as [rs'|]; [|discriminate].
    intros [= <-]. destruct (IH rs' eq_refl) as (H1 & H2 & H3).
    destruct (readCells_shape row names r Er) as (R1 & R2 & R3).
    repeat split; [constructor; [|exact H1] | constructor; assumption | simpl; lia].
    split; [rewrite R1; apply length_map | exact R2].
  - intros H. destruct (IH rs H) as (H1 & H2 & H3). repeat split; try assumption. lia.
Qed.

Lemma applyTableState_grid_ok (g : Grid) : grid_ok g -> grid_ok (applyTableState g).
Proof.
  intros [Hsk Hg].
  destruct (applyTableState_keeps g) as (K1 & K2 & K3 & K4 & K5 & K6 & K7 & K8).
  split.
  - intros header. rewrite K1, K3. apply Hsk.
  - intros data. rewrite K1, K2, K3. intros Hd.
    destruct (Hg data Hd) as (G1 & G2 & G3 & snapshot & G4 & G5).
    repeat split; try assumption; [tauto|]. exists snapshot. split; [apply K8, G4 | exact G5].
Qed.

Lemma handle_grid_ok (e : GridEvent) (g : Grid) : grid_ok g -> grid_ok (handle e g).
Proof.
  intros Hg. destruct e as [text|index text|index]; cbn [handle].
  - destruct (globalSearchInput g); [|exact Hg]. apply applyTableState_grid_ok.
    destruct Hg as [Hsk Hg]. split; [exact Hsk | exact Hg].
  - destruct (resultsContainer g) as [[| |header]|] eqn:Er; try exact Hg.
    destruct (index <? length header)%nat; [|exact Hg]. apply applyTableState_grid_ok.
    destruct Hg as [Hsk Hg]. split.
    + intros header'. cbn. rewrite length_insert. apply Hsk.
    + intros data. cbn. rewrite length_insert. apply Hg.
  - destruct (resultsContainer g) as [[| |header]|] eqn:Er; try exact Hg.
    destruct (index <? length header)%nat; [|exact Hg]. unfold toggleSort.
    apply applyTableState_grid_ok.
    destruct Hg as [Hsk Hg]. split; [exact Hsk | exact Hg].
Qed.

Lemma renderResults_grid_ok (table : option Table) (s : State) :
  grid_ok (grid s) -> grid_ok (grid (renderResults table s).2).
Proof.
  intros Hg. unfold renderResults.
  destruct (resultsContainer (grid s)) as [view|] eqn:Er; [|exact Hg].
  assert (Hempty : grid_ok (renderEmpty (grid s))).
  { split; [intros header; discriminate | intros data; discriminate]. }
  destruct table as [t|]; [|exact Hempty].
  destruct (numRows t =? 0)%nat; [exact Hempty|].
  destruct (readRows (tableRows t) (fields t)) as [rows'|] eqn:Erows; [|exact Hg].
  cbn [snd grid with_grid with_lastArrowResult].
  destruct (renderTable_ingests (fields t) rows' (grid s))
    as (a & H1 & H2 & _ & _ & H5 & _ & _ & H8 & H9); [congruence|].
  split; [apply renderTable_skeleton_filters|].
  intros data. rewrite H1. intros [= <-]. cbn [columns rows].
  repeat split; try assumption.
  - rewrite H5. apply length_map.
  - exists rows'. split; [exact H2|]. apply (readRows_shape _ _ _ Erows).
Qed.

(** The grid changes in [runQuery] by [renderResults] only. *)
Lemma runQuery_grid (P : Grid -> Prop) (sql' : jsstring) (s : State) :
  (forall t s0, P (grid s0) -> P (grid (renderResults t s0).2)) ->
  P (grid s) -> P (grid (runQuery sql' s).2).
Proof.
  intros HP Hs. unfold runQuery.
  destruct (connection s); [|exact Hs]. cbn [negb].
  destruct (truthy (trim sql')); [|exact Hs]. cbn [negb performanceNow dateNow].
  unfold runQuery_try, connectionQuery.
  match goal with |- context [engine_query ?l ?q] => destruct (engine_query l q) as [result|e] end.
  - match goal with |- context [renderResults result ?s0] =>
      pose proof (HP result s0 Hs) as H; destruct (renderResults result s0) as [[u|e] s2]
    end; cbn in H |- *; exact H.
  - cbn. exact Hs.
Qed.

Lemma exportResult_grid (P : Grid -> Prop) (format : ExportFormat) (s : State) :
  (forall t s0, P (grid s0) -> P (grid (renderResults t s0).2)) ->
  P (grid s) -> P (grid (exportResult format s).2).
Proof.
  intros HP Hs. unfold exportResult.
  destruct (negb (connection s) || negb (db s)); [exact Hs|].
  destruct (negb (truthy (trim (sqlInput (page s))))); [exact Hs|].
  destruct format.
  - cbn [dateNow]. unfold connectionQuery, copyFileToBuffer, dropFile.
    repeat match goal with
           | |- context [match ?c with Normal _ => _ | Throw _ => _ end] => destruct c
           | |- context [let '(_, _) := ?c in _] => destruct c
           end; cbn; exact Hs.
  - cbn [dateNow]. unfold connectionQuery, copyFileToBuffer, dropFile.
    repeat match goal with
           | |- context [match ?c with Normal _ => _ | Throw _ => _ end] => destruct c
           | |- context [let '(_, _) := ?c in _] => destruct c
           end; cbn; exact Hs.
  - cbn [lastArrowResult updateExportStatus with_page].
    destruct (lastArrowResult s) as [t|] eqn:El.
    + cbn. rewrite El. cbn. exact Hs.
    + match goal with |- context [runQuery ?q ?s0] =>
        pose proof (runQuery_grid P q s0 HP Hs) as H; destruct (runQuery q s0) as [[u|e] s2]
      end; cbn in H |- *; [|exact H].
      destruct (lastArrowResult s2); cbn; exact H.
Qed.

Lemma catchReport_grid (outcome : Completion unit * State) :
  grid (catchReport outcome) = grid outcome.2.
Proof. destruct outcome as [[u|e] s]; reflexivity. Qed.

Lemma act_grid_ok (a : UserAction) (s : State) : grid_ok (grid s) -> grid_ok (grid (act a s)).
Proof.
  intros Hs. destruct a as [text| |id'|format|e|message|message]; cbn [act].
  - exact Hs.
  - rewrite catchReport_grid. apply (runQuery_grid grid_ok); [apply renderResults_grid_ok | exact Hs].
  - destruct (findHistory id' s); [|exact Hs].
    rewrite catchReport_grid.
    apply (runQuery_grid grid_ok); [apply renderResults_grid_ok | exact Hs].
  - rewrite catchReport_grid.
    apply (exportResult_grid grid_ok); [apply renderResults_grid_ok | exact Hs].
  - apply handle_grid_ok, Hs.
  - exact Hs.
  - exact Hs.
Qed.

(** X8. Whatever the user does, in any order (edits the query, runs it,
    runs an entry of the history again, exports, filters, searches,
    sorts), and whatever errors and export statuses the host reports in
    between, a grid that holds a snapshot shows the skeleton of the
    snapshot's columns with its table body, has exactly one filter per
    column, and holds the snapshot's rows, every row with one raw value
    and one display text per column. *)
Theorem snapshot_stays_consistent (actions : list UserAction) (s : State) :
  grid_ok (grid s) ->
  forall data,
    currentTableData (grid (actAll actions s)) = Some data ->
    resultsContainer (grid (actAll actions s)) = Some (TableView (columns data)) /\
    tableBodyElement (grid (actAll actions s)) <> None /\
    length (columnFilters (grid (actAll actions s))) = length (columns data) /\
    exists snapshot,
      heap (grid (actAll actions s)) !! rows data = Some snapshot /\
      Forall (row_shaped (length (columns data))) snapshot.
Proof.
  intros Hs.
  assert (H : grid_ok (grid (actAll actions s))).
  { revert s Hs. unfold actAll. induction actions as [|a actions IH]; intros s Hs; simpl.
    - exact Hs.
    - apply IH, act_grid_ok, Hs. }
  exact (proj2 H).
Qed.

End SessionFacts.

(** ** Runs, the ledger and the history list *)

Section LedgerInvariant.
Import Values Grid Session Actions.
Context {platform : Platform}.

Lemma runQuery_try_frame (normalizedSql : jsstring) (start : JsNumber)
    (entryBase : QueryHistoryEntry) (s : State) :
  nextHistoryId (runQuery_try normalizedSql start entryBase s).2 = nextHistoryId s /\
  connection (runQuery_try normalizedSql start entryBase s).2 = connection s /\
  db (runQuery_try normalizedSql start entryBase s).2 = db s /\
  engineLog (world (runQuery_try normalizedSql start entryBase s).2)
    = engineLog (world s) ++ [CallQuery normalizedSql] /\
  posted (world (runQuery_try normalizedSql start entryBase s).2) = posted (world s) /\
  sqlInput (page (runQuery_try normalizedSql start entryBase s).2) = sqlInput (page s) /\
  exportStatus (page (runQuery_try normalizedSql start entryBase s).2)
    = exportStatus (page s).
Proof.
  unfold runQuery_try, connectionQuery.
  destruct (engine_query (engineLog (world s)) normalizedSql) as [result|e].
  - pose proof (renderResults_frame result (log_call (CallQuery normalizedSql) s))
      as (_ & F2 & F3 & F4 & F5 & F6).
    destruct (renderResults result (log_call (CallQuery normalizedSql) s)) as [[u|e] s2];
      cbn in F2, F3, F4, F5, F6 |- *; rewrite F2, F3, F4, F5, F6; repeat split.
  - cbn. repeat split.
Qed.

(** What a run that starts does to the session, besides the grid. *)
Lemma runQuery_live (sql' : jsstring) (s : State) :
  connection s = true ->
  truthy (trim sql') = true ->
  exists entry,
    queryHistory (runQuery sql' s).2 = take 25 (entry :: queryHistory s) /\
    Session.sql entry = trim sql' /\
    Session.id entry = nextHistoryId s /\
    nextHistoryId (runQuery sql' s).2 = (nextHistoryId s + 1)%Z /\
    connection (runQuery sql' s).2 = true /\
    db (runQuery sql' s).2 = db s /\
    engineLog (world (runQuery sql' s).2) = engineLog (world s) ++ [CallQuery (trim sql')] /\
    posted (world (runQuery sql' s).2) = posted (world s) /\
    sqlInput (page (runQuery sql' s).2) = sqlInput (page s) /\
    exportStatus (page (runQuery sql' s).2) = exportStatus (page s) /\
    runButtonDisabled (page (runQuery sql' s).2) = false.
Proof.
  intros Hc Ht. unfold runQuery. rewrite Hc, Ht. cbn [negb].
  cbn [performanceNow dateNow].
  match goal with |- context [runQuery_try ?a ?b ?c ?d] =>
    destruct (runQuery_try_records a b c d) as (entry & H1 & H2 & H3 & _);
    destruct (runQuery_try_frame a b c d) as (F1 & F2 & F3 & F4 & F5 & F6 & F7);
    destruct (runQuery_try a b c d) as [outcome s3]
  end.
  exists entry. cbn in H1, H2, H3, F1, F2, F3, F4, F5, F6, F7 |- *.
  rewrite F1, F2, F3, F4, F5, F6, F7, Hc. repeat split; assumption.
Qed.

(** X9. A run asks the engine once, with the trimmed text, when there is
    a connection and the text is not blank: the next id moves on by one,
    nothing is posted to the host, and the Run button is enabled again
    whether the run fails or not.  Without a connection the run throws
    and with blank text it sets the status message; in both cases the
    engine is not asked and the session is otherwise as it was. *)
Theorem runQuery_asks_engine_once (sql' : jsstring) (s : State) :
  (connection s = true -> truthy (trim sql') = true ->
     engineLog (world (runQuery sql' s).2)
       = engineLog (world s) ++ [CallQuery (trim sql')] /\
     nextHistoryId (runQuery sql' s).2 = (nextHistoryId s + 1)%Z /\
     posted (world (runQuery sql' s).2) = posted (world s) /\
     runButtonDisabled (page (runQuery sql' s).2) = false) /\
  (connection s = false ->
     runQuery sql' s = (Throw (js "No database connection."), s)) /\
  (connection s = true -> truthy (trim sql') = false ->
     runQuery sql' s = (Normal tt, updateStatus (js "Enter a SQL query to run.") s)).
Proof.
  split; [|split].
  - intros Hc Ht. destruct (runQuery_live sql' s Hc Ht)
      as (entry & _ & _ & _ & H4 & _ & _ & H7 & H8 & _ & _ & H11). auto.
  - intros Hc. unfold runQuery. rewrite Hc. reflexivity.
  - intros Hc Ht. unfold runQuery. rewrite Hc, Ht. reflexivity.
Qed.

Lemma ledger_ok_frame (s s' : State) :
  queryHistory s' = queryHistory s -> nextHistoryId s' = nextHistoryId s ->
  ledger_ok s -> ledger_ok s'.
Proof. unfold ledger_ok. intros -> ->. auto. Qed.

Lemma ledger_ok_record (s s' : State) entry :
  queryHistory s' = take 25 (entry :: queryHistory s) ->
  nextHistoryId s' = (nextHistoryId s + 1)%Z ->
  Session.id entry = nextHistoryId s ->
  SqlText.trimmed (sql entry) -> sql entry <> [] ->
  ledger_ok s -> ledger_ok s'.
Proof.
  unfold ledger_ok. intros -> -> Hid Ht Hne (Hlen & Hnd & Hall).
  split; [rewrite length_take; lia|]. split.
  - rewrite fmap_take. eapply sublist_NoDup; [|apply sublist_take].
    rewrite fmap_cons. apply NoDup_cons. split; [|exact Hnd].
    intros Hin. apply list_elem_of_fmap in Hin as (e & He & Hin).
    rewrite Forall_forall in Hall. destruct (Hall e Hin) as [Hlt _]. lia.
  - apply Forall_take. constructor.
    + split; [lia | split; assumption].
    + eapply Forall_impl; [exact Hall|]. simpl. intros e (H1 & H2 & H3).
      split; [lia | split; assumption].
Qed.

Lemma runQuery_ledger_ok (sql' : jsstring) (s : State) :
  ledger_ok s -> ledger_ok (runQuery sql' s).2.
Proof.
  intros Hs. destruct (connection s) eqn:Hc.
  - destruct (truthy (trim sql')) eqn:Ht.
    + destruct (runQuery_live sql' s Hc Ht) as (entry & H1 & H2 & H3 & H4 & _).
      apply (ledger_ok_record s _ entry H1 H4 H3); [| |exact Hs].
      * rewrite H2. apply trim_trimmed.
      * rewrite H2. apply truthy_true, Ht.
    + unfold runQuery. rewrite Hc, Ht. exact Hs.
  - unfold runQuery. rewrite Hc. exact Hs.
Qed.

Lemma exportResult_ledger_ok (format : ExportFormat) (s : State) :
  ledger_ok s -> ledger_ok (exportResult format s).2.
Proof.
  intros Hs. unfold exportResult.
  destruct (negb (connection s) || negb (db s)); [exact Hs|].
  destruct (negb (truthy (trim (sqlInput (page s))))); [exact Hs|].
  destruct format.
  - cbn [dateNow]. unfold connectionQuery, copyFileToBuffer, dropFile.
    repeat match goal with
           | |- context [match ?c with Normal _ => _ | Throw _ => _ end] => destruct c
           | |- context [let '(_, _) := ?c in _] => destruct c
           end; cbn; exact Hs.
  - cbn [dateNow]. unfold connectionQuery, copyFileToBuffer, dropFile.
    repeat match goal with
           | |- context [match ?c with Normal _ => _ | Throw _ => _ end] => destruct c
           | |- context [let '(_, _) := ?c in _] => destruct c
           end; cbn; exact Hs.
  - cbn [lastArrowResult updateExportStatus with_page].
    destruct (lastArrowResult s) as [t|] eqn:El.
    + cbn. rewrite El. cbn. exact Hs.
    + match goal with |- context [runQuery ?q ?s0] =>
        pose proof (runQuery_ledger_ok q s0 Hs) as H; destruct (runQuery q s0) as [[u|e] s2]
      end; cbn in H |- *; [|exact H].
      destruct (lastArrowResult s2); cbn; exact H.
Qed.

Lemma catchReport_ledger_ok (outcome : Completion unit * State) :
  ledger_ok outcome.2 -> ledger_ok (catchReport outcome).
Proof. destruct outcome as [[u|e] s]; intros H; exact H. Qed.

Lemma act_ledger_ok (a : UserAction) (s : State) : ledger_ok s -> ledger_ok (act a s).
Proof.
  intros Hs. destruct a as [text| |id'|format|e|message|message]; cbn [act].
  - exact Hs.
  - apply catchReport_ledger_ok, runQuery_ledger_ok, Hs.
  - destruct (findHistory id' s); [|exact Hs].
    apply catchReport_ledger_ok, runQuery_ledger_ok, Hs.
  - apply catchReport_ledger_ok, exportResult_ledger_ok, Hs.
  - exact Hs.
  - exact Hs.
  - exact Hs.
Qed.

(** X10. Whatever the user does and the host reports, in any order, the
    ledger holds at most 25 entries, their ids are all different and
    below the id the next run gets, and the text of every entry is
    trimmed and not blank. *)
Theorem ledger_stays_well_kept (actions : list UserAction) (s : State) :
  ledger_ok s ->
  (length (queryHistory (actAll actions s)) <= 25)%nat /\
  NoDup (Session.id <$> queryHistory (actAll actions s)) /\
  Forall (fun entry =>
            (Session.id entry < nextHistoryId (actAll actions s))%Z /\
            SqlText.trimmed (sql entry) /\ sql entry <> [])
         (queryHistory (actAll actions s)).
Proof.
  revert s. unfold actAll. induction actions as [|a actions IH]; intros s Hs; simpl.
  - exact Hs.
  - apply IH, act_ledger_ok, Hs.
Qed.

(** X11. A click on "Run again" for an entry in the ledger puts the
    entry's text into the query box and runs exactly that text: the
    engine is asked once with it, and a new entry with the same text and
    a new id heads the ledger.  For an id that is not in the ledger the
    click does nothing. *)
Theorem run_again_repeats_entry (id' : Z) (s : State) :
  ledger_ok s ->
  connection s = true ->
  (forall entry,
     findHistory id' s = Some entry ->
     exists newest,
       queryHistory (act (RunAgainClick id') s) = take 25 (newest :: queryHistory s) /\
       sql newest = sql entry /\
       Session.id newest = nextHistoryId s /\
       Session.id newest <> Session.id entry /\
       sqlInput (page (act (RunAgainClick id') s)) = sql entry /\
       engineLog (world (act (RunAgainClick id') s))
         = engineLog (world s) ++ [CallQuery (sql entry)]) /\
  (findHistory id' s = None -> act (RunAgainClick id') s = s).
Proof.
  intros (_ & _ & Hall) Hc. split.
  - intros entry Hfind. cbn [act]. rewrite Hfind.
    assert (Hin : entry ∈ queryHistory s).
    { unfold findHistory in Hfind. apply find_some in Hfind as [Hin _].
      apply list_elem_of_In, Hin. }
    rewrite Forall_forall in Hall. destruct (Hall entry Hin) as (Hlt & Htrim & Hne).
    pose proof (trim_fixed _ Htrim) as Efix.
    assert (Ht : truthy (trim (sql entry)) = true) by (rewrite Efix; apply truthy_true, Hne).
    destruct (runQuery_live (sql entry) (with_sqlInput (sql entry) s) Hc Ht)
      as (newest & H1 & H2 & H3 & _ & _ & _ & H7 & _ & H9 & _).
    rewrite Efix in H2, H7.
    destruct (runQuery (sql entry) (with_sqlInput (sql entry) s)) as [[u|e] s2];
      cbn in H1, H3, H7, H9 |- *; exists newest; repeat split; try assumption; lia.
  - intros Hfind. cbn [act]. rewrite Hfind. reflexivity.
Qed.

End LedgerInvariant.

(** ** The default query *)

Section DefaultQueryFacts.
Import SqlHelpers SqlText.

Lemma join_safe (names : list jsstring) :
  Forall (fun name => test_full simplePattern name = true) names ->
  List.map formatIdentifierForSql names = names.
Proof.
  induction 1 as [|name names Hn _ IH]; simpl; [reflexivity|].
  rewrite IH. unfold formatIdentifierForSql. rewrite Hn. reflexivity.
Qed.

(** X2. The default query has no white space at either end and is not
    blank, so a run takes it as it is.  It selects [*] when there are no
    column names, and the names themselves, separated by a comma and a
    space, when every name matches the safe pattern. *)
Theorem buildDefaultQuery_trimmed (columnNames : list jsstring) (viewReference : jsstring) :
  trim (buildDefaultQuery columnNames viewReference)
    = buildDefaultQuery columnNames viewReference /\
  truthy (trim (buildDefaultQuery columnNames viewReference)) = true /\
  (columnNames = [] ->
   buildDefaultQuery columnNames viewReference
   = js "SELECT *" ++ [10] ++ js "FROM " ++ viewReference ++ js ";") /\
  (columnNames <> [] ->
   Forall (fun name => test_full simplePattern name = true) columnNames ->
   buildDefaultQuery columnNames viewReference
   = js "SELECT " ++ join (js ", ") columnNames ++ [10] ++ js "FROM " ++ viewReference
        ++ js ";").
Proof.
  destruct (buildDefaultQuery_shape columnNames viewReference) as [middle E].
  assert (Ht : trim (buildDefaultQuery columnNames viewReference)
               = buildDefaultQuery columnNames viewReference).
  { apply trim_fixed. rewrite E. split; [reflexivity|].
    change (83 :: middle ++ [59]) with ((83 :: middle) ++ [59]).
    rewrite rev_app_distr. reflexivity. }
  split; [exact Ht|]. split; [rewrite Ht, E; reflexivity|]. split.
  - intros ->. reflexivity.
  - intros Hne Hsafe. unfold buildDefaultQuery. rewrite (join_safe _ Hsafe).
    destruct columnNames; [congruence | reflexivity].
Qed.

End DefaultQueryFacts.

(** ** The export protocol *)

Section ExportProtocol.
Import Values Grid Session.
Context {platform : Platform}.



End ExportProtocol.

Section ArrowExport.
Import Values Grid Session.
Context {platform : Platform}.

(** X13. An Arrow export with a cached result does not ask the engine:
    it posts the serialized cached result under the name
    [duckdb_result.arrow], whatever the query text now says, as long as
    it is not blank.  Without a cached result it runs the query text
    first, as a run of its own (one engine call, one history entry), and
    posts a message only if that run ends normally and leaves a result;
    a failing run ends the export with the run's error and nothing is
    posted. *)
Theorem exportResult_arrow (s : State) :
  connection s = true -> db s = true ->
  truthy (trim (sqlInput (page s))) = true ->
  (forall t, lastArrowResult s = Some t ->
     (exportResult arrow s).1 = Normal tt /\
     engineLog (world (exportResult arrow s).2) = engineLog (world s) /\
     posted (world (exportResult arrow s).2)
       = posted (world s) ++ [ExportData (js "duckdb_result.arrow") arrow (tableToIPC t)] /\
     queryHistory (exportResult arrow s).2 = queryHistory s /\
     grid (exportResult arrow s).2 = grid s) /\
  (lastArrowResult s = None ->
     engineLog (world (exportResult arrow s).2)
       = engineLog (world s) ++ [CallQuery (trim (sqlInput (page s)))] /\
     (exists entry,
        queryHistory (exportResult arrow s).2 = take 25 (entry :: queryHistory s) /\
        sql entry = trim (sqlInput (page s))) /\
     match (exportResult arrow s).1, lastArrowResult (exportResult arrow s).2 with
     | Normal _, Some t =>
         posted (world (exportResult arrow s).2)
         = posted (world s) ++ [ExportData (js "duckdb_result.arrow") arrow (tableToIPC t)]
     | _, _ => posted (world (exportResult arrow s).2) = posted (world s)
     end).
Proof.
  intros Hc Hd Ht. unfold exportResult. rewrite Hc, Hd, Ht. cbn [negb orb]. split.
  - intros t Hl. cbn [lastArrowResult updateExportStatus with_page]. rewrite Hl.
    cbn. rewrite Hl. cbn. repeat split.
  - intros Hl. cbn [lastArrowResult updateExportStatus with_page]. rewrite Hl.
    assert (Ht' : truthy (trim (trim (sqlInput (page s)))) = true)
      by (rewrite trim_idempotent; exact Ht).
    match goal with |- context [runQuery ?q ?s0] =>
      destruct (runQuery_live q s0 Hc Ht')
        as (entry & H1 & H2 & _ & _ & _ & _ & H7 & H8 & _);
      destruct (runQuery q s0) as [[u|e] s2]
    end; rewrite trim_idempotent in H2, H7; cbn in H1, H7, H8.
    + destruct (lastArrowResult s2) as [t|] eqn:El; cbn; rewrite ?El; cbn;
        (split; [exact H7|]); (split; [eauto|]); rewrite H8; reflexivity.
    + cbn. split; [exact H7|]. split; [eauto|]. destruct (lastArrowResult s2); exact H8.
Qed.

End ArrowExport.

(** ** Reading the cells of a result *)

Section IngestCells.
Import Values Grid Session.
Context {platform : Platform}.

Lemma readCells_Throw (row : list (jsstring * JsValue)) (names : list jsstring) message :
  readCells row names = Throw message ->
  exists name, name ∈ names /\ formatCell (property row name) = Throw message.
Proof.
  induction names as [|name names IH]; simpl; [discriminate|].
  destruct (formatCell (property row name)) as [text|m] eqn:Ef.
  - destruct (readCells row names) as [r|m]; [discriminate|].
    intros [= <-]. destruct (IH eq_refl) as (name' & Hin & H).
    exists name'. split; [constructor; exact Hin | exact H].
  - intros [= <-]. exists name. split; [constructor | exact Ef].
Qed.

Lemma readRows_Throw (rows' : list (option (list (jsstring * JsValue))))
    (names : list jsstring) message :
  readRows rows' names = Throw message ->
  exists row, Some row ∈ rows' /\ readCells row names = Throw message.
Proof.
  induction rows' as [|[row|] rows' IH]; simpl; [discriminate| |].
  - destruct (readCells row names) as [r|m] eqn:Er.
    + destruct (readRows rows' names) as [rs|m]; [discriminate|].
      intros [= <-]. destruct (IH eq_refl) as (row' & Hin & H).
      exists row'. split; [constructor; exact Hin | exact H].
    + intros [= <-]. exists row. split; [constructor | exact Er].
  - intros H. destruct (IH H) as (row' & Hin & H').
    exists row'. split; [constructor; exact Hin | exact H'].
Qed.

Lemma readRows_raw (rows' : list (option (list (jsstring * JsValue))))
    (names : list jsstring) rs :
  readRows rows' names = Normal rs ->
  List.map raw rs
  = List.map (fun row => List.map (property row) names) (omap (fun row => row) rows').
Proof.
  revert rs. induction rows' as [|[row|] rows' IH]; simpl; intros rs.
  - intros [= <-]. reflexivity.
  - destruct (readCells row names) as [r|] eqn:Er; [|discriminate].
    destruct (readRows rows' names) as [rs'|]; [|discriminate].
    intros [= <-]. simpl. rewrite (IH rs' eq_refl).
    destruct (readCells_shape row names r Er) as (-> & _). reflexivity.
  - apply IH.
Qed.

(** X14. Ingesting a result that has rows, on a page with the results
    container, ends in one of two ways.  Normally: the snapshot holds,
    for every row the table returns, in the table's order, the values of
    the row's properties named by the schema's fields, and next to each
    value the text [formatCell] gives it.  With an exception: then some
    cell is a date that is not valid, the message is the one of
    [toISOString], the grid still holds what it held, and the cached
    Arrow result is already the new table. *)
Theorem renderResults_reads_cells (table : Table) (s : State) :
  resultsContainer (grid s) <> None ->
  numRows table <> 0%nat ->
  match (renderResults (Some table) s).1 with
  | Normal _ =>
      exists a rs,
        currentTableData (grid (renderResults (Some table) s).2)
          = Some {| columns := fields table; rows := a |} /\
        heap (grid (renderResults (Some table) s).2) !! a = Some rs /\
        List.map raw rs
          = List.map (fun row => List.map (property row) (fields table))
                     (omap (fun row => row) (tableRows table)) /\
        Forall (fun r => Forall2 (fun v text => formatCell v = Normal text)
                                  (raw r) (display r)) rs
  | Throw message =>
      message = js "Invalid time value" /\
      grid (renderResults (Some table) s).2 = grid s /\
      lastArrowResult (renderResults (Some table) s).2 = Some table /\
      exists row name,
        Some row ∈ tableRows table /\ name ∈ fields table /\
        ~ renderable (property row name)
  end.
Proof.
  intros Hr Hn. unfold renderResults.
  destruct (resultsContainer (grid s)) as [view|] eqn:Er; [|congruence].
  apply Nat.eqb_neq in Hn. rewrite Hn.
  destruct (readRows (tableRows table) (fields table)) as [rs|message] eqn:Erows.
  - cbn [fst snd grid with_grid with_lastArrowResult].
    destruct (renderTable_ingests (fields table) rs (grid s))
      as (a & H1 & H2 & _); [congruence|].
    exists a, rs. split; [exact H1|]. split; [exact H2|].
    split; [apply readRows_raw, Erows | apply (readRows_shape _ _ _ Erows)].
  - cbn [fst snd]. destruct (readRows_Throw _ _ _ Erows) as (row & Hrow & Hcells).
    destruct (readCells_Throw _ _ _ Hcells) as (name & Hname & Hcell).
    destruct (formatCell_Throw _ _ Hcell) as [-> Hnot].
    repeat split. exists row, name. auto.
Qed.

End IngestCells.

(** ** The chart's column *)

Section ChartFacts.
Import Grid Chart.

Lemma indexOf_range (columns' : list jsstring) (text : jsstring) :
  (-1 <= indexOf columns' text < Z.of_nat (length columns'))%Z.
Proof.
  induction columns' as [|first rest IH]; cbn [indexOf length]; [lia|].
  destruct (bool_decide (first = text)); [lia|].
  destruct (indexOf rest text =? -1)%Z eqn:E; [lia|].
  apply Z.eqb_neq in E. lia.
Qed.

Lemma indexOf_found (columns' : list jsstring) (text : jsstring) :
  text ∈ columns' -> indexOf columns' text <> (-1)%Z.
Proof.
  induction columns' as [|first rest IH]; intros Hin.
  - inversion Hin.
  - cbn [indexOf]. destruct (bool_decide (first = text)) eqn:E; [discriminate|].
    apply bool_decide_eq_false in E.
    apply elem_of_cons in Hin as [->|Hin]; [congruence|].
    specialize (IH Hin). pose proof (indexOf_range rest text) as Hrange.
    destruct (indexOf rest text =? -1)%Z eqn:E'; [|lia].
    apply Z.eqb_eq in E'. contradiction.
Qed.

Lemma existsb_name (fields : list Field) (text : jsstring) :
  existsb (fun field => bool_decide (name field = text)) fields = true ->
  exists field, field ∈ fields /\ name field = text.
Proof.
  intros H. apply existsb_exists in H as (field & Hin & Hname).
  exists field. split; [apply list_elem_of_In, Hin | apply bool_decide_eq_true in Hname; exact Hname].
Qed.

Lemma populated_column (fields : list Field) (c : ChartState) :
  chartColumnSelect c <> None ->
  (exists field,
      field ∈ fields /\ isNumericField field = true /\
      name field = column (populateChartColumns (Some fields) c)) \/
  (column (populateChartColumns (Some fields) c) = [] /\
   List.filter isNumericField fields = []).
Proof.
  intros Hsel. unfold populateChartColumns.
  destruct (chartColumnSelect c) as [options|]; [|congruence]. cbn [column].
  set (numeric := List.filter isNumericField fields).
  assert (Hnum : forall field, field ∈ numeric ->
                   field ∈ fields /\ isNumericField field = true).
  { intros field Hin. apply list_elem_of_In, filter_In in Hin as [H1 H2].
    split; [apply list_elem_of_In, H1 | exact H2]. }
  destruct (existsb _ numeric) eqn:Esome; cbn [negb].
  - apply existsb_name in Esome as (field & Hin & Hname).
    left. exists field. destruct (Hnum field Hin). auto.
  - destruct (List.find isIntegerField numeric) as [field|] eqn:Efind.
    + apply find_some in Efind as [Hin _]. apply list_elem_of_In in Hin.
      left. exists field. destruct (Hnum field Hin). auto.
    + destruct numeric as [|field rest] eqn:En; cbn [hd_error].
      * right. split; reflexivity.
      * left. exists field. destruct (Hnum field) as [H1 H2]; [constructor|]. auto.
Qed.

(** X15. On a page with the column select, after the select has been
    filled for a result, the chart's column is the name of one of the
    result's numeric fields, or it is empty and the result has no numeric
    field.  A column chosen before is kept when the new result has a
    numeric field of that name; otherwise the first integer field is
    taken when there is one. *)
Theorem populateChartColumns_numeric (fields : list Field) (c : ChartState) :
  chartColumnSelect c <> None ->
  ((exists field,
       field ∈ fields /\ isNumericField field = true /\
       name field = column (populateChartColumns (Some fields) c)) \/
   (column (populateChartColumns (Some fields) c) = [] /\
    forall field, field ∈ fields -> isNumericField field = false)) /\
  ((exists field, field ∈ fields /\ isNumericField field = true /\ name field = column c) ->
   column (populateChartColumns (Some fields) c) = column c) /\
  ((forall field, field ∈ fields -> isNumericField field = true -> name field <> column c) ->
   forall before field after,
     List.filter isNumericField fields = before ++ field :: after ->
     isIntegerField field = true ->
     Forall (fun other => isIntegerField other = false) before ->
     column (populateChartColumns (Some fields) c) = name field).
Proof.
  intros Hsel. split; [|split].
  - destruct (populated_column fields c Hsel) as [H|[H1 H2]]; [left; exact H|].
    right. split; [exact H1|]. intros field Hin.
    destruct (isNumericField field) eqn:E; [|reflexivity].
    assert (Hf : field ∈ List.filter isNumericField fields).
    { apply list_elem_of_In, filter_In. split; [apply list_elem_of_In, Hin | exact E]. }
    rewrite H2 in Hf. inversion Hf.
  - intros (field & Hin & Hnum & Hname). unfold populateChartColumns.
    destruct (chartColumnSelect c) as [options|]; [|congruence]. cbn [column].
    assert (E : existsb (fun field => bool_decide (name field = column c))
                  (List.filter isNumericField fields) = true).
    { apply existsb_exists. exists field. split.
      - apply filter_In. split; [apply list_elem_of_In, Hin | exact Hnum].
      - apply bool_decide_eq_true. exact Hname. }
    rewrite E. reflexivity.
  - intros Hnone before field after Hsplit Hint Hbefore. unfold populateChartColumns.
    destruct (chartColumnSelect c) as [options|]; [|congruence]. cbn [column].
    assert (E : existsb (fun field => bool_decide (name field = column c))
                  (List.filter isNumericField fields) = false).
    { destruct (existsb _ _) eqn:E; [|reflexivity].
      apply existsb_name in E as (other & Hin & Hname).
      apply list_elem_of_In, filter_In in Hin as [H1 H2].
      destruct (Hnone other (proj2 (list_elem_of_In _ _) H1) H2 Hname). }
    rewrite E. cbn [negb]. rewrite Hsplit.
    assert (Efind : List.find isIntegerField (before ++ field :: after) = Some field).
    { clear -Hint Hbefore. induction Hbefore as [|other before Hother _ IH]; cbn.
      - rewrite Hint. reflexivity.
      - rewrite Hother. exact IH. }
    rewrite Efind. reflexivity.
Qed.

(** X16. On a page with the column select, the chart drawn right after
    the select has been filled for a result never reports that the
    selected column is not in the result: with a snapshot of that result
    it shows the hint to pick a column, or goes on to the points of a
    column of the snapshot. *)
Theorem renderChart_column_found (fields : list Field) (c : ChartState)
    (chartCanvas : bool) (a : nat) :
  chartColumnSelect c <> None ->
  let data := {| columns := List.map name fields; rows := a |} in
  let view := renderChart chartCanvas (Some data) (populateChartColumns (Some fields) c) in
  view <> EmptyState (js "Selected column is not in the current result.") /\
  (chartCanvas = true ->
   view = EmptyState (js "Pick a numeric column to start charting.") \/
   exists columnIndex,
     view = PointsOf columnIndex /\
     (0 <= columnIndex < Z.of_nat (length fields))%Z).
Proof.
  intros Hsel data view.
  assert (Hview :
            view = NoCanvas \/
            view = EmptyState (js "Pick a numeric column to start charting.") \/
            exists columnIndex,
              view = PointsOf columnIndex /\
              (0 <= columnIndex < Z.of_nat (length fields))%Z).
  { subst view. unfold renderChart. destruct chartCanvas; cbn [negb]; [|left; reflexivity].
    right. set (c' := populateChartColumns (Some fields) c).
    destruct (truthy (column c')) eqn:Et; cbn [negb]; [|left; reflexivity].
    right. cbn [columns data].
    assert (Hin : column c' ∈ List.map name fields).
    { destruct (populated_column fields c Hsel) as [(field & H1 & _ & H3)|[H1 _]].
      - fold c' in H3. rewrite <- H3. apply list_elem_of_In, in_map, list_elem_of_In, H1.
      - fold c' in H1. rewrite H1 in Et. discriminate. }
    pose proof (indexOf_found _ _ Hin) as Hfound.
    pose proof (indexOf_range (List.map name fields) (column c')) as Hrange.
    rewrite length_map in Hrange.
    destruct (indexOf (List.map name fields) (column c') =? -1)%Z eqn:E.
    - apply Z.eqb_eq in E. contradiction.
    - eexists. split; [reflexivity | lia]. }
  split.
  - destruct Hview as [->|[->|(i & -> & _)]]; [discriminate| |discriminate].
    intros H. vm_compute in H. discriminate.
  - intros ->. destruct Hview as [H|[H|H]]; [|left; exact H|right; exact H].
    subst view. cbn in H. revert H.
    repeat match goal with |- context [if ?b then _ else _] => destruct b end;
      discriminate.
Qed.

End ChartFacts.

(** ** The order of numbers *)

Section CompareFacts.
Import Values.
Context {platform : Platform}.

Lemma SFcompare_swap (x y : JsNumber) (c : comparison) :
  SFcompare x y = Some c -> SFcompare y x = Some (CompOpp c).
Proof.
  destruct x as [sx|sx| |sx mx ex], y as [sy|sy| |sy my ey]; cbn [SFcompare];
    try discriminate;
    try (destruct sx; intros [= <-]; reflexivity);
    try (destruct sy; intros [= <-]; reflexivity).
  - destruct sx, sy; intros [= <-]; reflexivity.
  - intros [= <-]. f_equal.
    destruct sx, sy; try reflexivity.
    + rewrite (Z.compare_antisym ex ey).
      destruct (ex ?= ey)%Z; cbn [CompOpp]; try reflexivity.
      change (Pos.compare_cont Eq mx my) with (mx ?= my)%positive.
      change (Pos.compare_cont Eq my mx) with (my ?= mx)%positive.
      rewrite (Pos.compare_antisym mx my). reflexivity.
    + rewrite (Z.compare_antisym ex ey).
      destruct (ex ?= ey)%Z; cbn [CompOpp]; try reflexivity.
      change (Pos.compare_cont Eq mx my) with (mx ?= my)%positive.
      change (Pos.compare_cont Eq my mx) with (my ?= mx)%positive.
      rewrite (Pos.compare_antisym mx my). reflexivity.
Qed.

Lemma SFcompare_finite (x y : JsNumber) :
  isFinite x = true -> isFinite y = true -> exists c, SFcompare x y = Some c.
Proof.
  destruct x as [sx|sx| |sx mx ex], y as [sy|sy| |sy my ey]; cbn [isFinite SFcompare];
    try discriminate; intros _ _; eexists; reflexivity.
Qed.

(** X17. On two finite numbers [compareValues] is a three-way
    comparison that agrees with the order of numbers and is
    antisymmetric: it gives 0 both ways round when the two are equal, -1
    one way and 1 the other when one is smaller; the display texts play
    no part. *)
Theorem compareValues_numbers (x y : JsNumber) (aDisplay bDisplay : option jsstring) :
  isFinite x = true -> isFinite y = true ->
  (SFeqb x y = true /\
   compareValues (VNumber x) (VNumber y) aDisplay bDisplay = js_of_Z 0 /\
   compareValues (VNumber y) (VNumber x) bDisplay aDisplay = js_of_Z 0) \/
  (SFltb x y = true /\
   compareValues (VNumber x) (VNumber y) aDisplay bDisplay = js_of_Z (-1) /\
   compareValues (VNumber y) (VNumber x) bDisplay aDisplay = js_of_Z 1) \/
  (SFltb y x = true /\
   compareValues (VNumber x) (VNumber y) aDisplay bDisplay = js_of_Z 1 /\
   compareValues (VNumber y) (VNumber x) bDisplay aDisplay = js_of_Z (-1)).
Proof.
  intros Hx Hy. unfold compareValues. cbn [strict_equal]. rewrite Hx, Hy. cbn [andb].
  destruct (SFcompare_finite x y Hx Hy) as [c Hc].
  pose proof (SFcompare_swap x y c Hc) as Hc'.
  unfold SFeqb, SFltb. rewrite Hc, Hc'.
  destruct c; cbn [CompOpp]; auto.
Qed.

End CompareFacts.

(** ** The statements of the file loaders *)

Section LoaderSqlFacts.
Import Values LoaderSql.

Lemma readStringLiteral_escaped (fileName after : jsstring) :
  match after with [] => True | c :: _ => c <> 39 end ->
  readStringLiteral (SqlText.escapeSingleQuotes fileName ++ 39 :: after)
  = Some (fileName, after).
Proof.
  intros Hafter. unfold SqlText.escapeSingleQuotes.
  induction fileName as [|c fileName IH].
  - cbn [flat_map app readStringLiteral]. rewrite N.eqb_refl.
    destruct after as [|c' after']; [reflexivity|].
    apply N.eqb_neq in Hafter. rewrite Hafter. reflexivity.
  - cbn [flat_map]. destruct (c =? 39) eqn:E.
    + apply N.eqb_eq in E. subst c. cbn [app readStringLiteral].
      rewrite !N.eqb_refl. rewrite IH. reflexivity.
    + cbn [app readStringLiteral]. rewrite E, IH. reflexivity.
Qed.

(** X18. In the four statements that the CSV and Parquet loaders send,
    the file name stands in a SQL string literal that reads back as the
    file name, whatever quotes the name holds: read from just after the
    quote that the loader opens, the literal's text is the file name and
    it closes where the loader closes it. *)
Theorem loader_statements_quote_fileName (fileName relationIdentifier : jsstring) :
  (exists literal,
      csv_describeQuery fileName
      = js "DESCRIBE SELECT * FROM read_csv('" ++ literal /\
      readStringLiteral literal = Some (fileName, js ", header=true);")) /\
  (exists literal,
      parquet_describeQuery fileName
      = js "DESCRIBE SELECT * FROM read_parquet('" ++ literal /\
      readStringLiteral literal = Some (fileName, js ");")) /\
  (exists literal,
      csv_createViewQuery relationIdentifier fileName
      = ([10] ++ js "      CREATE OR REPLACE TEMP VIEW " ++ relationIdentifier
              ++ js " AS " ++ [10] ++ js "      SELECT * FROM read_csv('") ++ literal /\
      readStringLiteral literal
      = Some (fileName, js ", header=true);" ++ [10] ++ js "    ")) /\
  (exists literal,
      parquet_createViewQuery relationIdentifier fileName
      = ([10] ++ js "      CREATE OR REPLACE TEMP VIEW " ++ relationIdentifier
              ++ js " AS " ++ [10] ++ js "      SELECT * FROM read_parquet('") ++ literal /\
      readStringLiteral literal = Some (fileName, js ");" ++ [10] ++ js "    ")).
Proof.
  split; [|split; [|split]].
  - exists (SqlText.escapeSingleQuotes fileName ++ js "', header=true);").
    split; [reflexivity|].
    apply (readStringLiteral_escaped fileName (js ", header=true);")). discriminate.
  - exists (SqlText.escapeSingleQuotes fileName ++ js "');").
    split; [reflexivity|].
    apply (readStringLiteral_escaped fileName (js ");")). discriminate.
  - exists (SqlText.escapeSingleQuotes fileName
              ++ js "', header=true);" ++ [10] ++ js "    ").
    split; [unfold csv_createViewQuery; rewrite <- !app_assoc; reflexivity|].
    apply (readStringLiteral_escaped fileName
             (js ", header=true);" ++ [10] ++ js "    ")). discriminate.
  - exists (SqlText.escapeSingleQuotes fileName ++ js "');" ++ [10] ++ js "    ").
    split; [unfold parquet_createViewQuery; rewrite <- !app_assoc; reflexivity|].
    apply (readStringLiteral_escaped fileName (js ");" ++ [10] ++ js "    ")). discriminate.
Qed.

Lemma detectedColumns_cons (key : jsstring) (row : InfoRow) (rows : list InfoRow) :
  detectedColumns key (row :: rows)
  = match is_named (property row key) with
    | Some text => text :: detectedColumns key rows
    | None => detectedColumns key rows
    end.
Proof. reflexivity. Qed.

(** X19. What the CSV and Parquet loaders report for a [DESCRIBE]
    answer: the schema has one entry per row of the answer, and the
    detected columns are, in the same order, the names of the schema
    entries of the rows whose [column_name] is a string that is not
    empty.  So the columns are a sublist of the schema's names, and the
    two lists are equal exactly when every row has such a name. *)
Theorem describe_columns_and_schema {platform : Platform} (rows : list InfoRow) :
  length (List.map describedColumn rows) = length rows /\
  detectedColumns (js "column_name") rows
  = List.map column_name
      (List.map describedColumn
         (List.filter
            (fun row => bool_decide (is_named (property row (js "column_name")) <> None))
            rows)) /\
  detectedColumns (js "column_name") rows
    `sublist_of` List.map column_name (List.map describedColumn rows) /\
  (Forall (fun row => is_named (property row (js "column_name")) <> None) rows <->
   detectedColumns (js "column_name") rows
   = List.map column_name (List.map describedColumn rows)).
Proof.
  assert (Hname : forall row text,
            is_named (property row (js "column_name")) = Some text ->
            column_name (describedColumn row) = text).
  { intros row text. unfold describedColumn, is_named. cbn [column_name].
    destruct (property row (js "column_name")); try discriminate.
    destruct (negb _); [|discriminate]. intros [= ->]. reflexivity. }
  split; [apply length_map|]. split; [|split; [|split]].
  - induction rows as [|row rows IH]; [reflexivity|].
    rewrite detectedColumns_cons. cbn [List.filter].
    destruct (is_named (property row (js "column_name"))) as [text|] eqn:E.
    + rewrite bool_decide_eq_true_2 by discriminate. cbn [List.map].
      rewrite (Hname row text E), IH. reflexivity.
    + rewrite bool_decide_eq_false_2 by (intros H; apply H; reflexivity). exact IH.
  - induction rows as [|row rows IH]; [constructor|].
    rewrite detectedColumns_cons. cbn [List.map].
    destruct (is_named (property row (js "column_name"))) as [text|] eqn:E.
    + rewrite (Hname row text E). apply sublist_skip, IH.
    + apply sublist_cons, IH.
  - intros Hall. induction Hall as [|row rows Hrow _ IH]; [reflexivity|].
    rewrite detectedColumns_cons. cbn [List.map].
    destruct (is_named (property row (js "column_name"))) as [text|] eqn:E; [|congruence].
    rewrite (Hname row text E), IH. reflexivity.
  - intros Heq. apply Forall_forall. intros row Hin Hnone.
    assert (Hlen : (length (detectedColumns (js "column_name") rows) < length rows)%nat).
    { clear Heq. induction rows as [|row' rows IH]; [inversion Hin|].
      rewrite detectedColumns_cons. cbn [length].
      assert (Hle : forall l : list InfoRow,
                (length (detectedColumns (js "column_name") l) <= length l)%nat).
      { clear. induction l as [|r l IH]; [reflexivity|].
        rewrite detectedColumns_cons. cbn [length].
        destruct (is_named _); cbn [length]; lia. }
      apply elem_of_cons in Hin as [<-|Hin].
      - rewrite Hnone. specialize (Hle rows). lia.
      - specialize (IH Hin).
        destruct (is_named (property row' (js "column_name"))); cbn [length]; lia. }
    rewrite Heq, !length_map in Hlen. lia.
Qed.

End LoaderSqlFacts.


(** ** Starting the engine *)

Section BootFacts.
Import Values Grid Session Actions Boot.
Context {platform : Platform}.

Ltac boot_simpl :=
  cbn [fst snd session duckdbInitializationPromise readyPosted with_session with_db
       with_connection postReady startupStatus connection db updateStatus reportError
       with_page].

Lemma stage_ends_throw (b : Startup) (message : jsstring) :
  stage_ends b (Throw message, b).
Proof.
  split; [reflexivity|]. right. split; [eexists; reflexivity|].
  split; [reflexivity|]. left. auto.
Qed.

Lemma stage_ends_status (message : jsstring) (b : Startup) (r : Completion unit * Startup) :
  stage_ends (startupStatus message b) r -> stage_ends b r.
Proof. intros H. exact H. Qed.

Lemma stage_ends_db (b : Startup) (r : Completion unit * Startup) :
  stage_ends (with_session (with_db true (session b)) b) r -> stage_ends b r.
Proof.
  intros (Hp & H). split; [exact Hp|].
  destruct H as [H|(Hm & Hr & H)]; [left; exact H|].
  right. split; [exact Hm|]. split; [exact Hr|].
  destruct H as [(Hc & Hd)|H]; [|right; exact H].
  left. split; [exact Hc|]. right. destruct Hd as [Hd|Hd]; exact Hd.
Qed.

Lemma stage_ends_connection (b : Startup) (r : Completion unit * Startup) :
  db (session b) = true ->
  stage_ends (with_session (with_connection true (session b)) b) r -> stage_ends b r.
Proof.
  intros Hdb (Hp & H). split; [exact Hp|].
  destruct H as [H|(Hm & Hr & H)]; [left; exact H|].
  right. split; [exact Hm|]. split; [exact Hr|].
  right. destruct H as [(Hc & Hd)|H]; [|exact H].
  split; [exact Hc|]. cbn [session with_session with_connection db] in Hd.
  destruct Hd as [Hd|Hd]; congruence.
Qed.

Lemma startupQuery_ends (sql' : jsstring) (b : Startup) :
  duckdbInitializationPromise (startupQuery sql' b).2 = duckdbInitializationPromise b /\
  readyPosted (startupQuery sql' b).2 = readyPosted b /\
  connection (session (startupQuery sql' b).2) = connection (session b) /\
  db (session (startupQuery sql' b).2) = db (session b).
Proof. unfold startupQuery, connectionQuery. cbn [fst snd]. auto. Qed.

Lemma installExtensions_ends (b : Startup) :
  connection (session b) = true -> db (session b) = true ->
  stage_ends b (installExtensions b).
Proof.
  intros Hc Hd. unfold stage_ends, installExtensions. cbv zeta.
  destruct (startupQuery_ends (js "INSTALL parquet; LOAD parquet;")
              (startupStatus (js "Installing extensions...") b)) as (P1 & R1 & C1 & D1).
  destruct (startupQuery (js "INSTALL parquet; LOAD parquet;")
              (startupStatus (js "Installing extensions...") b)) as [[[]|message] b1];
    cbn [fst snd session duckdbInitializationPromise readyPosted with_session
         startupStatus connection db updateStatus with_page] in *.
  - destruct (startupQuery_ends (js "INSTALL sqlite; LOAD sqlite;") b1) as (P2 & R2 & C2 & D2).
    destruct (startupQuery (js "INSTALL sqlite; LOAD sqlite;") b1) as [[[]|message] b2];
      cbn [fst snd] in *.
    + split; [boot_simpl; congruence|]. left. boot_simpl.
      split; [reflexivity|]. split; [congruence|]. split; congruence.
    + split; [congruence|]. right. split; [eexists; reflexivity|].
      split; [congruence|]. left. split; [congruence|]. left. congruence.
  - split; [congruence|]. right. split; [eexists; reflexivity|].
    split; [congruence|]. left. split; [congruence|]. left. congruence.
Qed.

Lemma connectEngine_ends (a : Attempt) (b : Startup) :
  db (session b) = true -> stage_ends b (connectEngine a b).
Proof.
  intros Hd. unfold connectEngine, attempt_step.
  apply (stage_ends_status (js "Connecting to DuckDB...")).
  destruct (connect a) as [[]|message]; [|apply stage_ends_throw].
  apply stage_ends_connection; [exact Hd|].
  apply installExtensions_ends; [reflexivity | exact Hd].
Qed.

Lemma openEngine_ends (a : Attempt) (b : Startup) :
  db (session b) = true -> stage_ends b (openEngine a b).
Proof.
  intros Hd. unfold openEngine, attempt_step.
  apply (stage_ends_status (js "Opening DuckDB...")).
  destruct (open a) as [[]|message]; [|apply stage_ends_throw].
  apply connectEngine_ends. exact Hd.
Qed.

Lemma instantiateEngine_ends (a : Attempt) (b : Startup) :
  db (session b) = true -> stage_ends b (instantiateEngine a b).
Proof.
  intros Hd. unfold instantiateEngine, attempt_step.
  apply (stage_ends_status (js "Instantiating DuckDB...")).
  destruct (instantiate a) as [[]|message]; [|apply stage_ends_throw].
  apply openEngine_ends. exact Hd.
Qed.

Lemma createEngine_ends (a : Attempt) (b : Startup) : stage_ends b (createEngine a b).
Proof.
  unfold createEngine, attempt_step.
  apply (stage_ends_status (js "Creating DuckDB worker from source...")).
  destruct (createDuckDBWorker a) as [[]|message]; [|apply stage_ends_throw].
  apply stage_ends_db, instantiateEngine_ends. reflexivity.
Qed.

(** How the [try] block of the start-up can end. *)
Lemma bootstrapDuckDB_try_ends (a : Attempt) (b : Startup) :
  stage_ends b (bootstrapDuckDB_try a b).
Proof.
  unfold bootstrapDuckDB_try, attempt_step.
  apply (stage_ends_status (js "Selecting DuckDB bundle...")).
  destruct (selectBundle a) as [[[w|] [m|]]|message]; cbn [mainWorker mainModule];
    try apply stage_ends_throw.
  apply createEngine_ends.
Qed.

Lemma bootstrapDuckDB_ends (a : Attempt) (b : Startup) :
  (bootstrapDuckDB a b).1 = Normal tt /\
  duckdbInitializationPromise (bootstrapDuckDB a b).2 = duckdbInitializationPromise b /\
  ((readyPosted (bootstrapDuckDB a b).2 = S (readyPosted b) /\
    connection (session (bootstrapDuckDB a b).2) = true /\
    db (session (bootstrapDuckDB a b).2) = true) \/
   (readyPosted (bootstrapDuckDB a b).2 = readyPosted b /\
    ((connection (session (bootstrapDuckDB a b).2) = connection (session b) /\
      (db (session (bootstrapDuckDB a b).2) = db (session b) \/
       db (session (bootstrapDuckDB a b).2) = true)) \/
     (connection (session (bootstrapDuckDB a b).2) = true /\
      db (session (bootstrapDuckDB a b).2) = true)))).
Proof.
  unfold bootstrapDuckDB.
  destruct (bootstrapDuckDB_try_ends a b) as (Hp & H).
  destruct (bootstrapDuckDB_try a b) as [[[]|message] b']; cbn [fst snd] in *.
  - split; [reflexivity|]. split; [exact Hp|].
    destruct H as [(_ & H)|((m & Hm) & _)]; [left; exact H | discriminate].
  - split; [reflexivity|]. split; [exact Hp|].
    destruct H as [(Hm & _)|(_ & H)]; [discriminate | right; exact H].
Qed.

(** One [init] message: the promise variable is set afterwards unless
    the connection was there already, a connection is never lost, and the
    host is told at most once, and only with an engine and a connection. *)
Lemma init_ends (a : Attempt) (b : Startup) :
  (connection (session b) = true -> db (session b) = true) ->
  (connection (session (init a b)) = true -> db (session (init a b)) = true) /\
  (connection (session b) = true -> connection (session (init a b)) = true) /\
  (connection (session b) = false -> duckdbInitializationPromise (init a b) = true) /\
  (readyPosted (init a b) = readyPosted b \/
   (readyPosted (init a b) = S (readyPosted b) /\
    connection (session (init a b)) = true)).
Proof.
  intros Hinv. unfold init, ensureDuckDBInitialized.
  destruct (connection (session b)) eqn:Ec.
  - boot_simpl. rewrite Ec. repeat split; auto. discriminate.
  - destruct (duckdbInitializationPromise b) eqn:Ep; cbn [negb].
    + boot_simpl. rewrite Ec. repeat split; auto; discriminate.
    + match goal with |- context [bootstrapDuckDB a ?b0] =>
        destruct (bootstrapDuckDB_ends a b0) as (Hn & Hp & H);
        destruct (bootstrapDuckDB a b0) as [outcome b']
      end.
      cbn [fst snd session duckdbInitializationPromise readyPosted] in Hn, Hp, H.
      subst outcome. rewrite Ec in H.
      split; [|split; [discriminate|split; [intros _; exact Hp|]]].
      * destruct H as [(_ & _ & Hd)|(_ & [(Hc & _)|(_ & Hd)])];
          [intros _; exact Hd | rewrite Hc; discriminate | intros _; exact Hd].
      * destruct H as [(Hr & Hc & _)|(Hr & _)]; [right; auto | left; exact Hr].
Qed.

Lemma init_idle (a : Attempt) (b : Startup) :
  connection (session b) = false -> duckdbInitializationPromise b = true ->
  init a b = b.
Proof.
  intros Hc Hp. unfold init, ensureDuckDBInitialized. rewrite Hc, Hp. reflexivity.
Qed.

(** X20. A start-up that ended without a connection is final: the
    [init] message that met the failure told the host nothing, and no
    later [init] message, whatever it would meet, starts the engine
    again, tells the host that the engine is ready, or changes anything
    on the page. *)
Theorem failed_start_is_final (a : Attempt) (b : Startup) :
  connection (session b) = false ->
  connection (session (init a b)) = false ->
  readyPosted (init a b) = readyPosted b /\
  forall attempts, initAll attempts (init a b) = init a b.
Proof.
  intros Hc Hc'.
  destruct (init_ends a b) as (_ & _ & Hp & Hr); [rewrite Hc; discriminate|].
  split.
  - destruct Hr as [Hr|(_ & Hcon)]; [exact Hr | congruence].
  - specialize (Hp Hc). intros attempts. unfold initAll.
    induction attempts as [|a' attempts IH]; [reflexivity|].
    cbn [foldl]. rewrite (init_idle a' _ Hc' Hp). exact IH.
Qed.

(** X21. Over any sequence of [init] messages, from a script in which a
    connection comes with an engine: if the host has been told that the
    engine is ready, the script holds both an engine and a connection,
    the two things that [handleFileLoad] asks for before it reads the
    file that the host sends in answer. *)
Theorem ready_only_when_connected (attempts : list Attempt) (b : Startup) :
  (connection (session b) = true -> db (session b) = true) ->
  readyPosted (initAll attempts b) <> readyPosted b ->
  connection (session (initAll attempts b)) = true /\
  db (session (initAll attempts b)) = true.
Proof.
  intros Hinv Hposted.
  assert (Hgen : forall attempts b,
            (connection (session b) = true -> db (session b) = true) ->
            (connection (session (initAll attempts b)) = true ->
             db (session (initAll attempts b)) = true) /\
            (connection (session b) = true ->
             connection (session (initAll attempts b)) = true) /\
            (readyPosted (initAll attempts b) = readyPosted b \/
             connection (session (initAll attempts b)) = true)).
  { clear. unfold initAll. induction attempts as [|a attempts IH]; intros b Hinv; cbn [foldl].
    - auto.
    - destruct (init_ends a b Hinv) as (Hinv' & Hmono & _ & Hr).
      destruct (IH (init a b) Hinv') as (Hinv'' & Hmono' & Hr').
      split; [exact Hinv''|]. split; [auto|].
      destruct Hr' as [Hr'|Hr']; [|right; exact Hr'].
      destruct Hr as [Hr|(_ & Hcon)]; [left; congruence | right; auto]. }
  destruct (Hgen attempts b Hinv) as (Hdb & _ & [Hr|Hcon]); [contradiction|auto].
Qed.

(** X22. When the engine connects but the first statement that installs
    an extension fails, the [init] message ends with the error on the
    status line and nothing is told to the host, and the second
    extension is never asked for; yet the connection is kept, so every
    later [init] message tells the host that the engine is ready. *)
Theorem failed_install_still_answers_ready (a a' : Attempt) (b : Startup)
    (worker module' message : jsstring) :
  connection (session b) = false ->
  duckdbInitializationPromise b = false ->
  selectBundle a = Normal {| mainWorker := Some worker; mainModule := Some module' |} ->
  createDuckDBWorker a = Normal tt ->
  instantiate a = Normal tt -> open a = Normal tt -> connect a = Normal tt ->
  engine_query (engineLog (world (session b))) (js "INSTALL parquet; LOAD parquet;")
  = Throw message ->
  readyPosted (init a b) = readyPosted b /\
  connection (session (init a b)) = true /\
  db (session (init a b)) = true /\
  engineLog (world (session (init a b)))
  = engineLog (world (session b)) ++ [CallQuery (js "INSTALL parquet; LOAD parquet;")] /\
  status (page (session (init a b)))
  = match status (page (session b)) with
    | Some _ => Some (js "Error: " ++ message)
    | None => None
    end /\
  readyPosted (init a' (init a b)) = S (readyPosted b) /\
  status (page (session (init a' (init a b))))
  = match status (page (session b)) with
    | Some _ => Some ready_text
    | None => None
    end.
Proof.
  intros Hc Hp Hsel Hcw Hins Hop Hcon Hq.
  assert (E : exists b1,
            init a b = with_session (reportError message (session b1)) b1 /\
            readyPosted b1 = readyPosted b /\
            connection (session b1) = true /\ db (session b1) = true /\
            engineLog (world (session b1))
            = engineLog (world (session b))
                ++ [CallQuery (js "INSTALL parquet; LOAD parquet;")] /\
            (status (page (session b1)) = None <-> status (page (session b)) = None)).
  { unfold init, ensureDuckDBInitialized. rewrite Hc, Hp. cbn [negb].
    unfold bootstrapDuckDB, bootstrapDuckDB_try.
    rewrite Hsel. cbn [attempt_step mainWorker mainModule].
    unfold createEngine. rewrite Hcw. cbn [attempt_step].
    unfold instantiateEngine. rewrite Hins. cbn [attempt_step].
    unfold openEngine. rewrite Hop. cbn [attempt_step].
    unfold connectEngine. rewrite Hcon. cbn [attempt_step].
    unfold installExtensions, startupQuery, connectionQuery.
    match goal with |- context [engine_query ?l ?q] =>
      replace (engine_query l q) with (@Throw (option Table) message)
        by (rewrite <- Hq; reflexivity)
    end.
    eexists. split; [reflexivity|].
    split; [reflexivity|]. split; [reflexivity|]. split; [reflexivity|].
    split; [reflexivity|].
    clear. destruct b as [[d c g l q n [text disabled st shown export] w] promise posted].
    lazy [status page session with_session startupStatus with_connection with_db
          updateStatus with_page log_call with_world].
    destruct st; split; intros H; congruence. }
  destruct E as (b1 & -> & Hr & Hcon1 & Hdb1 & Hlog & Hstatus).
  set (b2 := with_session (reportError message (session b1)) b1).
  assert (Hcon2 : connection (session b2) = true) by exact Hcon1.
  assert (Hstatus2 :
            status (page (session b2))
            = match status (page (session b)) with
              | Some _ => Some (js "Error: " ++ message)
              | None => None
              end).
  { subst b2. cbn [session with_session]. unfold reportError. cbn [status page with_page].
    destruct (status (page (session b1))), (status (page (session b)));
      try reflexivity; destruct Hstatus as [H1 H2];
      [specialize (H2 eq_refl) | specialize (H1 eq_refl)]; discriminate. }
  split; [exact Hr|]. split; [exact Hcon2|]. split; [exact Hdb1|]. split; [exact Hlog|].
  split; [exact Hstatus2|].
  unfold init, ensureDuckDBInitialized. rewrite Hcon2.
  cbn [fst snd postReady startupStatus session with_session readyPosted].
  split; [f_equal; exact Hr|].
  unfold updateStatus. cbn [status page with_page]. rewrite Hstatus2.
  destruct (status (page (session b))); reflexivity.
Qed.

End BootFacts.

(** ** The further properties on concrete inputs *)

Section FurtherWitnesses.
Import Values Grid Session Actions Boot Demo Sample.

(** The sorted and searched grid of [Demo]. *)
Lemma sort_keeps_rows_witness :
  exists shown,
    tableBodyElement (applyTableState (grid busyState))
    = Some (renderBody [js "a"; js "b"] shown) /\
    (length shown <= length rows_ab)%nat.
Proof.
  destruct (@sort_keeps_rows Demo.platform (grid busyState)
              {| columns := [js "a"; js "b"]; rows := 0 |} rows_ab)
    as (shown & H1 & _ & _ & H4 & _).
  - vm_compute. reflexivity.
  - vm_compute. reflexivity.
  - vm_compute. discriminate.
  - exists shown. split; [exact H1 | exact H4].
Defined.

(** Two spaces in the search box of the loaded grid. *)
Lemma blank_filters_pass_all_witness :
  List.filter
    (rowPasses (toLowerCase (trim (globalFilter blankSearchGrid)))
       (List.map (fun value => toLowerCase (trim value)) (columnFilters blankSearchGrid)))
    rows_ab = rows_ab.
Proof.
  refine (proj1 (@blank_filters_pass_all Demo.platform blankSearchGrid
                   {| columns := [js "a"; js "b"]; rows := 0 |} rows_ab _ _ _)).
  - reflexivity.
  - vm_compute. reflexivity.
  - vm_compute. repeat constructor.
Defined.

(** The letter y typed into the filter of the second column. *)
Lemma column_filter_shows_matches_witness :
  tableBodyElement (handle (ColumnFilterInput 1 (js "y")) (grid loadedState))
  = Some (renderBody [js "a"; js "b"]
            (List.filter
               (fun row =>
                  negb (truthy (toLowerCase (trim (js "y"))))
                  || includes (toLowerCase (or_empty (display row !! 1%nat)))
                              (toLowerCase (trim (js "y"))))
               rows_ab)).
Proof.
  refine (proj1 (@column_filter_shows_matches Demo.platform (grid loadedState)
                   {| columns := [js "a"; js "b"]; rows := 0 |} rows_ab
                   [js "a"; js "b"] 1%nat (js "y") _ _ _ _ _ _ _ _ _ _)).
  - reflexivity.
  - vm_compute. reflexivity.
  - vm_compute. reflexivity.
  - vm_compute. discriminate.
  - vm_compute. reflexivity.
  - vm_compute. repeat constructor.
  - vm_compute. reflexivity.
  - vm_compute. reflexivity.
  - vm_compute. repeat constructor.
  - vm_compute. reflexivity.
Defined.

(** A visit to the page that has just loaded. *)
Lemma snapshot_stays_consistent_witness :
  resultsContainer (grid (actAll visit initialState)) = Some (TableView [js "a"; js "b"]) /\
  length (columnFilters (grid (actAll visit initialState))) = 2%nat.
Proof.
  destruct (@snapshot_stays_consistent Demo.platform visit initialState)
    with (data := {| columns := [js "a"; js "b"]; rows := 5 |})
    as (H1 & _ & H3 & _).
  - split.
    + intros header H. vm_compute in H. discriminate.
    + intros data H. vm_compute in H. discriminate.
  - vm_compute. reflexivity.
  - split; [exact H1 | exact H3].
Defined.

Lemma ledger_stays_well_kept_witness :
  (length (queryHistory (actAll visit initialState)) <= 25)%nat /\
  NoDup (Session.id <$> queryHistory (actAll visit initialState)).
Proof.
  destruct (@ledger_stays_well_kept Demo.platform visit initialState) as (H1 & H2 & _).
  - split; [cbn; lia|]. split; constructor.
  - split; [exact H1 | exact H2].
Defined.

(** "Run again" on the one entry of the loaded session. *)
Lemma run_again_repeats_entry_witness :
  exists newest,
    queryHistory (act (RunAgainClick 1) loadedState)
    = take 25 (newest :: queryHistory loadedState) /\
    Session.id newest = nextHistoryId loadedState.
Proof.
  destruct (findHistory 1 loadedState) as [entry|] eqn:E;
    [|vm_compute in E; discriminate].
  destruct (proj1 (@run_again_repeats_entry Demo.platform 1%Z loadedState
                     (runQuery_ledger_ok (js "SELECT a, b FROM t;") initialState
                        (conj (le_0_n 25) (conj (NoDup_nil_2 : NoDup []) (Forall_nil_2 _)))) eq_refl)
              entry E)
    as (newest & H1 & _ & H3 & _).
  exists newest. split; [exact H1 | exact H3].
Defined.


(** An Arrow export of the loaded session, whose result is cached. *)
Lemma exportResult_arrow_witness :
  (exportResult arrow typedState).1 = Normal tt /\
  engineLog (world (exportResult arrow typedState).2) = engineLog (world typedState).
Proof.
  destruct (proj1 (@exportResult_arrow Demo.platform typedState
                     eq_refl eq_refl eq_refl) table_ab)
    as (H1 & H2 & _).
  - vm_compute. reflexivity.
  - split; [exact H1 | exact H2].
Defined.

(** The two-row result ingested on the initial page. *)
Lemma renderResults_reads_cells_witness :
  exists a rs,
    heap (grid (renderResults (Some table_ab) initialState).2) !! a = Some rs /\
    List.map raw rs
    = List.map (fun row => List.map (property row) (fields table_ab))
               (omap (fun row => row) (tableRows table_ab)).
Proof.
  pose proof (@renderResults_reads_cells Demo.platform table_ab initialState) as H.
  destruct ((renderResults (Some table_ab) initialState).1) as [u|message] eqn:E.
  - destruct H as (a & rs & _ & H2 & H3 & _).
    + vm_compute. discriminate.
    + vm_compute. discriminate.
    + exists a, rs. split; [exact H2 | exact H3].
  - vm_compute in E. discriminate.
Defined.

(** The select filled for a result with one integer column. *)
Lemma populateChartColumns_numeric_witness :
  Chart.column (Chart.populateChartColumns (Some fields_ab) initialChart) = js "a".
Proof.
  refine (proj2 (proj2 (populateChartColumns_numeric fields_ab initialChart _)) _
            [] {| Chart.name := js "a"; Chart.typeId := Some Chart.Int32 |} [] _ _ _).
  - discriminate.
  - intros field Hin Hnum Hname. apply list_elem_of_In in Hin.
    destruct Hin as [<-|[<-|[]]];
      [vm_compute in Hname; discriminate | vm_compute in Hnum; discriminate].
  - reflexivity.
  - reflexivity.
  - constructor.
Defined.

Lemma renderChart_column_found_witness :
  Chart.renderChart true
    (Some {| columns := List.map Chart.name fields_ab; rows := 0 |})
    (Chart.populateChartColumns (Some fields_ab) initialChart)
  <> Chart.EmptyState (js "Selected column is not in the current result.").
Proof.
  refine (proj1 (renderChart_column_found fields_ab initialChart true 0%nat _)).
  discriminate.
Defined.

(** The numbers one and two. *)
Lemma compareValues_numbers_witness :
  compareValues (VNumber (js_of_Z 1)) (VNumber (js_of_Z 2)) None None = js_of_Z (-1) /\
  compareValues (VNumber (js_of_Z 2)) (VNumber (js_of_Z 1)) None None = js_of_Z 1.
Proof.
  destruct (@compareValues_numbers Demo.platform (js_of_Z 1) (js_of_Z 2) None None)
    as [(H & _)|[(_ & H)|(H & _)]].
  - reflexivity.
  - reflexivity.
  - vm_compute in H. discriminate.
  - exact H.
  - vm_compute in H. discriminate.
Defined.

(** No bundle can be selected; a good attempt comes too late. *)
Lemma failed_start_is_final_witness :
  initAll [goodAttempt] (init failingAttempt freshStartup) = init failingAttempt freshStartup.
Proof.
  refine (proj2 (@failed_start_is_final Demo.platform failingAttempt freshStartup _ _)
            [goodAttempt]).
  - reflexivity.
  - vm_compute. reflexivity.
Defined.

(** The engine starts at the first attempt. *)
Lemma ready_only_when_connected_witness :
  connection (session (initAll [goodAttempt] freshStartup)) = true /\
  db (session (initAll [goodAttempt] freshStartup)) = true.
Proof.
  apply (@ready_only_when_connected Demo.platform [goodAttempt] freshStartup).
  - intros H. vm_compute in H. discriminate.
  - vm_compute. discriminate.
Defined.

(** The engine connects, and cannot install the Parquet extension. *)
Lemma failed_install_still_answers_ready_witness :
  readyPosted (@init noExtensions goodAttempt freshStartup) = 0%nat /\
  readyPosted (@init noExtensions goodAttempt (@init noExtensions goodAttempt freshStartup))
  = 1%nat.
Proof.
  destruct (@failed_install_still_answers_ready noExtensions goodAttempt goodAttempt
              freshStartup (js "worker") (js "duckdb.wasm") (js "IO Error"))
    as (H1 & _ & _ & _ & _ & H6 & _).
  - reflexivity.
  - reflexivity.
  - reflexivity.
  - reflexivity.
  - reflexivity.
  - reflexivity.
  - reflexivity.
  - vm_compute. reflexivity.
  - split; [exact H1 | exact H6].
Defined.

(** A name that needs no quoting. *)
Lemma formatIdentifierForSql_injective_witness :
  SqlHelpers.formatIdentifierForSql (js "total_2024") = js "total_2024".
Proof.
  refine (proj2 (proj1 (proj2 formatIdentifierForSql_injective) (js "total_2024")) _).
  vm_compute. reflexivity.
Defined.

(** The default query of a file without detected columns. *)
Lemma buildDefaultQuery_trimmed_witness :
  SqlText.buildDefaultQuery [] (js "t")
  = js "SELECT *" ++ [10] ++ js "FROM " ++ js "t" ++ js ";".
Proof.
  refine (proj1 (proj2 (proj2 (buildDefaultQuery_trimmed [] (js "t")))) _).
  reflexivity.
Defined.

(** A statement with a final semicolon and a space after it. *)
Lemma normalizeSqlForEmbedding_one_semicolon_witness :
  normalizeSqlForEmbedding (js "SELECT 1" ++ 59 :: js " ") = trim (js "SELECT 1").
Proof.
  refine (proj1 normalizeSqlForEmbedding_one_semicolon (js "SELECT 1") (js " ") _).
  reflexivity.
Defined.

(** A text without special characters. *)
Lemma escapeHtml_safe_witness : SqlText.escapeHtml (js "abc") = js "abc".
Proof.
  refine (proj1 (proj2 escapeHtml_safe) (js "abc") _).
  reflexivity.
Defined.

(** A statement run on the loaded session. *)
Lemma runQuery_asks_engine_once_witness :
  engineLog (world (runQuery (js " oops ") loadedState).2)
  = engineLog (world loadedState) ++ [CallQuery (trim (js " oops "))].
Proof.
  refine (proj1 (proj1 (@runQuery_asks_engine_once Demo.platform (js " oops ") loadedState)
                   _ _)).
  - reflexivity.
  - reflexivity.
Defined.

(** A [DESCRIBE] answer with one named row. *)
Lemma describe_columns_and_schema_witness :
  LoaderSql.detectedColumns (js "column_name")
    [[(js "column_name", VString (js "a"))]]
  = List.map LoaderSql.column_name
      (List.map LoaderSql.describedColumn [[(js "column_name", VString (js "a"))]]).
Proof.
  refine (proj1 (proj2 (proj2 (proj2
            (@describe_columns_and_schema Demo.platform
               [[(js "column_name", VString (js "a"))]])))) _).
  repeat constructor. vm_compute. discriminate.
Defined.

End FurtherWitnesses.
